(** * Wave Notes MCP: tenant filter, note store and search handlers

    A shallow embedding of the TypeScript sources of the notes server
    (utils/autorag, utils/metadata, tools/note-tools, tools/search-tools,
    google-handler and utils) together with the properties stated about
    them.

    Modelling conventions.
    - A JavaScript string is a [string]: a sequence of code units, here
      restricted to the code units 0..255.  [String.length] is [.length],
      comparison is by code unit, as JavaScript's [<] on strings.
    - A JavaScript number is a [Z]: the handlers only compute with
      integers (lengths, millisecond timestamps, day counts), which are
      exact in a double below 2^53.
    - [undefined] for an optional field or parameter is [None].
    - An awaited call either resolves with a value or rejects with an
      error: [Outcome].  Handlers that touch the R2 bucket are written in
      a small state-and-exception monad over the bucket. *)

From Stdlib Require Import ZArith Ascii String List Bool Lia.
From stdpp Require Import base option list gmap strings sorting.

Local Open Scope Z_scope.

(* ===================================================================== *)
(** * JavaScript string primitives *)
(* ===================================================================== *)

Module Js.

(** Code unit of a character. *)
Definition code (c : ascii) : N := N_of_ascii c.

(** [s < t] and [s <= t] on strings: lexicographic by code unit. *)
Definition str_lt (s t : string) : bool := String.ltb s t.
Definition str_le (s t : string) : bool := String.leb s t.

(** [t.startsWith(s)] *)
Fixpoint startsWith (s t : string) : bool :=
  match s, t with
  | EmptyString, _ => true
  | String _ _, EmptyString => false
  | String a s', String b t' => if Ascii.eqb a b then startsWith s' t' else false
  end.

(** [t.includes(s)]: [s] occurs in [t] as a contiguous substring. *)
Fixpoint includes (t s : string) : bool :=
  match t with
  | EmptyString => startsWith s EmptyString
  | String _ t' => startsWith s t || includes t' s
  end.

(** [WhiteSpace] and [LineTerminator] code units below 256: this is both
    the class [\s] of a regular expression and what [trim] strips. *)
Definition is_space (c : ascii) : bool :=
  match code c with
  | 9%N | 10%N | 11%N | 12%N | 13%N | 32%N | 160%N => true
  | _ => false
  end.

(** [\w] is [[A-Za-z0-9_]]. *)
Definition is_word (c : ascii) : bool :=
  let n := code c in
  ((48 <=? n) && (n <=? 57) || (65 <=? n) && (n <=? 90)
   || (97 <=? n) && (n <=? 122) || (n =? 95))%N.

(** [toLowerCase] on one code unit: A-Z, and the Latin-1 capitals
    U+00C0..U+00DE except the multiplication sign U+00D7. *)
Definition lower_char (c : ascii) : ascii :=
  let n := code c in
  if ((65 <=? n) && (n <=? 90)
      || (192 <=? n) && (n <=? 222) && negb (n =? 215))%N
  then ascii_of_N (n + 32) else c.

Fixpoint toLowerCase (s : string) : string :=
  match s with
  | EmptyString => EmptyString
  | String c s' => String (lower_char c) (toLowerCase s')
  end.

Fixpoint trimStart (s : string) : string :=
  match s with
  | EmptyString => EmptyString
  | String c s' => if is_space c then trimStart s' else s
  end.

(** Drops the trailing white space: a character is kept when something
    that is kept follows it, or when it is not white space itself. *)
Fixpoint trimEnd (s : string) : string :=
  match s with
  | EmptyString => EmptyString
  | String c s' =>
      match trimEnd s' with
      | EmptyString => if is_space c then EmptyString else String c EmptyString
      | r => String c r
      end
  end.

Definition trim (s : string) : string := trimEnd (trimStart s).

Fixpoint take (n : nat) (s : string) : string :=
  match n, s with
  | O, _ => EmptyString
  | S _, EmptyString => EmptyString
  | S n', String c s' => String c (take n' s')
  end.

Fixpoint drop (n : nat) (s : string) : string :=
  match n, s with
  | O, _ => s
  | S _, EmptyString => EmptyString
  | S n', String _ s' => drop n' s'
  end.

(** The index arithmetic of [slice(start, end)] on a sequence of length
    [len]: a negative index counts from the end, and both are clamped
    to [0, len]. *)
Definition rel_index (len i : Z) : Z :=
  if i <? 0 then Z.max (len + i) 0 else Z.min i len.

(** [s.slice(start, end)] *)
Definition slice (s : string) (start stop : Z) : string :=
  let len := Z.of_nat (String.length s) in
  let from := rel_index len start in
  let to := rel_index len stop in
  take (Z.to_nat (to - from)) (drop (Z.to_nat from) s).

(** [l.slice(start, end)] on an array. *)
Definition slice_list {A} (l : list A) (start stop : Z) : list A :=
  let len := Z.of_nat (List.length l) in
  let from := rel_index len start in
  let to := rel_index len stop in
  firstn (Z.to_nat (to - from)) (skipn (Z.to_nat from) l).

(** [s.split('\n')[0]]: the text before the first line feed. *)
Fixpoint first_line (s : string) : string :=
  match s with
  | EmptyString => EmptyString
  | String c s' => if (code c =? 10)%N then EmptyString else String c (first_line s')
  end.

(** [s.split(/\s+/)]: the pieces between the maximal runs of white
    space; a run at either end leaves an empty piece there. *)
Fixpoint split_ws (s : string) : list string :=
  match s with
  | EmptyString => [EmptyString]
  | String c s' =>
      let r := split_ws s' in
      if is_space c then
        match s' with
        | String d _ => if is_space d then r else EmptyString :: r
        | EmptyString => EmptyString :: r
        end
      else
        match r with
        | p :: ps => String c p :: ps
        | [] => [String c EmptyString]
        end
  end.

(** Decimal digits of a positive number, most significant first. *)
Definition digit (d : Z) : ascii := ascii_of_N (48 + Z.to_N d).

Fixpoint digits (fuel : nat) (n : Z) (acc : string) : string :=
  match fuel with
  | O => acc
  | S f =>
      let acc' := String (digit (n mod 10)) acc in
      if n <? 10 then acc' else digits f (n / 10) acc'
  end.

(** [String(n)] and [n.toString()] for an integer [n] below [10^21] in
    absolute value, where JavaScript prints every digit; the numbers
    rendered here are lengths, counts and timestamps of [Date]. *)
Definition num_toString (n : Z) : string :=
  let a := Z.abs n in
  let d := digits (S (Z.to_nat (Z.log2 a))) a EmptyString in
  if n <? 0 then String "-"%char d else d.

End Js.

(* ===================================================================== *)
(** * utils/autorag: tenant filters *)
(* ===================================================================== *)

(** The comparison kinds of [AutoRAGFilter]. *)
Inductive CmpType := T_eq | T_ne | T_gt | T_gte | T_lt | T_lte.

(** [AutoRAGFilter]: a comparison on a metadata key, or a combination. *)
#[warnings="-register-all"] Inductive AutoRAGFilter :=
| Cmp (type : CmpType) (key : string) (value : string)
| And (filters : list AutoRAGFilter)
| Or (filters : list AutoRAGFilter).

Definition createUserFolderFilter (user : string) : AutoRAGFilter :=
  And [ Cmp T_gte "folder" (user +:+ "/");
        Cmp T_lt "folder" (user +:+ "/z") ].

(** Lexical-range reading of a comparison. *)
Definition cmp_holds (t : CmpType) (x v : string) : bool :=
  match t with
  | T_eq => String.eqb x v
  | T_ne => negb (String.eqb x v)
  | T_gt => Js.str_lt v x
  | T_gte => Js.str_le v x
  | T_lt => Js.str_lt x v
  | T_lte => Js.str_le x v
  end.

(** A filter evaluated on the attributes of an indexed item. *)
Fixpoint matches (attrs : gmap string string) (f : AutoRAGFilter) : bool :=
  match f with
  | Cmp t k v =>
      match attrs !! k with
      | Some x => cmp_holds t x v
      | None => false
      end
  | And fs => forallb (matches attrs) fs
  | Or fs => existsb (matches attrs) fs
  end.

(** The filter of [user] applied to an item whose folder key is [folder]. *)
Definition folder_match (user folder : string) : bool :=
  matches {[ "folder" := folder ]} (createUserFolderFilter user).

(** utils: [UserPaths] *)
Definition getUserFolder (user : string) : string := user +:+ "/".
Definition getMetadataFolder (user : string) : string := user +:+ "/.metadata/".
Definition getNotePath (user noteId : string) : string :=
  user +:+ "/" +:+ noteId +:+ ".md".
Definition getMetadataPath (user noteId : string) : string :=
  user +:+ "/.metadata/" +:+ noteId +:+ ".json".


(** [createAdvancedFilter(user, options)].  [if (options.since_timestamp)]
    tests the number for truthiness: [undefined] and [0] both skip the
    clause. *)
Definition truthy_num (n : option Z) : bool :=
  match n with
  | Some v => negb (v =? 0)
  | None => false
  end.

Definition timestamp_clause (t : CmpType) (ts : option Z) : list AutoRAGFilter :=
  match ts with
  | Some v => if truthy_num ts then [Cmp t "timestamp" (Js.num_toString v)] else []
  | None => []
  end.

Definition createAdvancedFilter (user : string)
    (since_timestamp until_timestamp : option Z) : AutoRAGFilter :=
  let filters :=
    [ Cmp T_gte "folder" (user +:+ "/");
      Cmp T_lt "folder" (user +:+ "/z") ] in
  let filters := filters ++ timestamp_clause T_gte since_timestamp in
  let filters := filters ++ timestamp_clause T_lte until_timestamp in
  And filters.

(* ===================================================================== *)
(** * JavaScript values, thrown values and outcomes of awaited calls *)
(* ===================================================================== *)

(** A dynamically typed value.  An integer number is [JNum]; any other
    number is carried by its rendering ([JReal "0.3"], [JReal "NaN"]). *)
#[warnings="-register-all"] Inductive JsVal :=
| JUndefined
| JNull
| JBool (b : bool)
| JNum (n : Z)
| JReal (rendering : string)
| JStr (s : string)
| JArr (items : list JsVal)
| JObj (fields : list (string * JsVal)).

Definition nullish (v : JsVal) : bool :=
  match v with
  | JUndefined | JNull => true
  | _ => false
  end.

(** [l.join(sep)] on already rendered items. *)
Fixpoint join (sep : string) (l : list string) : string :=
  match l with
  | [] => ""
  | [x] => x
  | x :: rest => x +:+ sep +:+ join sep rest
  end.

(** [String(v)]: an array joins the renderings of its items with commas,
    null and undefined items rendering as empty; a plain object renders
    as [[object Object]]. *)
Fixpoint js_String (v : JsVal) : string :=
  match v with
  | JUndefined => "undefined"
  | JNull => "null"
  | JBool true => "true"
  | JBool false => "false"
  | JNum n => Js.num_toString n
  | JReal r => r
  | JStr s => s
  | JArr items =>
      join "," (List.map (fun x => if nullish x then "" else js_String x) items)
  | JObj _ => "[object Object]"
  end.

(** Property read [v.k] on a parsed JSON value ([undefined] when absent). *)
Fixpoint assoc_get (k : string) (fields : list (string * JsVal)) : option JsVal :=
  match fields with
  | [] => None
  | (k', v) :: rest => if String.eqb k k' then Some v else assoc_get k rest
  end.

(** A thrown value: an [Error] with its message, or anything else. *)
Inductive Thrown :=
| ErrorObj (message : string)
| ThrownVal (v : JsVal).

(** What awaiting a call gives. *)
Inductive Outcome (A : Type) :=
| Resolved (a : A)
| Rejected (e : Thrown).
Arguments Resolved {A} a.
Arguments Rejected {A} e.

(* ===================================================================== *)
(** * utils/metadata *)
(* ===================================================================== *)

(** The values of the [note_type] enumeration. *)
Inductive NoteType := meeting | idea | task | diary | code | other.

Definition note_type_name (t : NoteType) : string :=
  match t with
  | meeting => "meeting" | idea => "idea" | task => "task"
  | diary => "diary" | code => "code" | other => "other"
  end.

(** States of the scan for [/#(\w+)/g]. *)
Inductive TagScan := TagIdle | TagHash | TagWord (rev_word : string).

(** The matches of [/#(\w+)/g], each without its [#]. *)
Fixpoint scan_tags (st : TagScan) (s : string) : list string :=
  let flush := match st with TagWord w => [String.rev w] | _ => [] end in
  match s with
  | EmptyString => flush
  | String c s' =>
      if Ascii.eqb c "#" then flush ++ scan_tags TagHash s'
      else if Js.is_word c then
        match st with
        | TagIdle => scan_tags TagIdle s'
        | TagHash => scan_tags (TagWord (String c "")) s'
        | TagWord w => scan_tags (TagWord (String c w)) s'
        end
      else flush ++ scan_tags TagIdle s'
  end.

(** [[...new Set(l)]]: first occurrences, in order. *)
Fixpoint dedupe (seen l : list string) : list string :=
  match l with
  | [] => []
  | x :: rest =>
      if existsb (String.eqb x) seen then dedupe seen rest
      else x :: dedupe (x :: seen) rest
  end.

Definition extractTags (text : string) : list string :=
  dedupe [] (List.map Js.toLowerCase (scan_tags TagIdle text)).

(** A match of [/https?:\/\/[^\s]+/] starts here. *)
Definition link_starts (s : string) : bool :=
  let after (scheme : string) :=
    Js.startsWith scheme s &&
    match Js.drop (String.length scheme) s with
    | String c _ => negb (Js.is_space c)
    | EmptyString => false
    end in
  after "http://" || after "https://".

(** The matches of [/https?:\/\/[^\s]+/g]: [cur] is the match being read,
    reversed, when inside one. *)
Fixpoint scan_links (cur : option string) (s : string) : list string :=
  match s with
  | EmptyString => match cur with Some w => [String.rev w] | None => [] end
  | String c s' =>
      match cur with
      | Some w =>
          if Js.is_space c then String.rev w :: scan_links None s'
          else scan_links (Some (String c w)) s'
      | None =>
          if link_starts s then scan_links (Some (String c "")) s'
          else scan_links None s'
      end
  end.

Definition extractLinks (text : string) : list string :=
  dedupe [] (scan_links None text).

(** The match of [/^[^.!?]+[.!?]?/]: the longest run of characters other
    than [.], [!] and [?] at the start, with one such character after it
    when there is one; no match when the run is empty. *)
Definition is_stop (c : ascii) : bool :=
  Ascii.eqb c "." || Ascii.eqb c "!" || Ascii.eqb c "?".

Fixpoint sentence_run (s : string) : string :=
  match s with
  | EmptyString => EmptyString
  | String c s' =>
      if is_stop c then String c EmptyString else String c (sentence_run s')
  end.

Definition match_first_sentence (text : string) : option string :=
  match text with
  | EmptyString => None
  | String c _ => if is_stop c then None else Some (sentence_run text)
  end.

Definition typePrefix (t : NoteType) : string :=
  match t with
  | meeting => "Meeting Notes"
  | idea => "Idea"
  | task => "Task"
  | diary => "Journal Entry"
  | code => "Code Snippet"
  | other => "Note"
  end.

Definition generateTitle (text : string) (noteType : option NoteType) : string :=
  let firstLine := Js.trim (Js.first_line text) in
  let firstSentence :=
    match match_first_sentence text with
    | Some m => m
    | None => firstLine
    end in
  let titleBase := Js.slice firstSentence 0 50 in
  let prefix := typePrefix (default other noteType) in
  prefix +:+ ": " +:+ titleBase +:+
    (if 50 <=? Z.of_nat (String.length titleBase) then "..." else "").

(** [Object.entries] of a record, as the loop of [createCustomMetadata]
    visits it. *)
Definition Object_entries (o : gmap string JsVal) : list (string * JsVal) :=
  map_to_list o.

Definition createCustomMetadata (metadata : gmap string JsVal) : gmap string string :=
  foldl (fun customMetadata '(key, value) =>
           if negb (nullish value) then
             <[ key := match value with JStr s => s | _ => js_String value end ]>
               customMetadata
           else customMetadata)
        ∅ (Object_entries metadata).

(* ===================================================================== *)
(** * The R2 bucket and the AI binding *)
(* ===================================================================== *)

(** An object of the bucket: body, content type ([httpMetadata]) and the
    string-valued custom metadata. *)
Record R2Object := mkR2Object {
  body : string;
  contentType : string;
  customMetadata : option (gmap string string)
}.

(** One result of the search endpoint.  [content] is an array of chunks
    or a string; the other fields are read as they come. *)
Record Chunk := mkChunk { chunk_text : option string }.

Inductive Content :=
| ContentChunks (chunks : list Chunk)
| ContentString (s : string).

Record AutoRAGSearchResult := mkResult {
  filename : option string;
  content : option Content;
  text : option string;
  score : option JsVal;
  metadata : option (gmap string string);
  enriched_metadata : option JsVal;
  sidecarMetadata : option JsVal
}.

(** [SearchParams] and [AISearchParams]. *)
Record SearchParams := mkParams {
  query : string;
  max_num_results : Z;
  rewrite_query : bool;
  score_threshold : JsVal;
  filters : AutoRAGFilter
}.

(** What the endpoint answers before it is normalised: anything that is
    not an object, or an object whose fields may be missing. *)
Inductive RawResponse :=
| RawNonObject
| RawObject (object : option string) (search_query : option string)
            (response : option string) (data : option (list AutoRAGSearchResult)).

(** The calls a handler issues on its bindings, in the order issued. *)
Inductive Call :=
| R2Head (key : string)
| R2Get (key : string)
| R2Put (key : string) (value : R2Object)
| R2Delete (key : string)
| R2List (prefix : string) (limit : Z)
| AISearch (params : SearchParams)
| AIAiSearch (params : SearchParams).

(** The state a handler runs in: the objects of [env.NOTES] and the
    calls issued so far. *)
Record World := mkWorld {
  objects : gmap string R2Object;
  calls : list Call
}.

(** The bindings: which bucket calls reject, and what the search
    endpoint answers. *)
Record Env := mkEnv {
  NOTES_rejects : Call -> option Thrown;
  AI_search : SearchParams -> Outcome RawResponse;
  AI_aiSearch : SearchParams -> Outcome RawResponse
}.

(** Asynchronous code: runs in a world, resolves or rejects. *)
Definition M (A : Type) : Type := World -> Outcome A * World.

Definition ret {A} (a : A) : M A := fun w => (Resolved a, w).

Definition throw {A} (e : Thrown) : M A := fun w => (Rejected e, w).

Definition bind {A B} (m : M A) (k : A -> M B) : M B :=
  fun w =>
    match m w with
    | (Resolved a, w') => k a w'
    | (Rejected e, w') => (Rejected e, w')
    end.

Notation "'let!' x ':=' m 'in' k" := (bind m (fun x => k))
  (at level 10, x name, m at level 100, k at level 200).
Notation "m ';;;' k" := (bind m (fun _ => k))
  (at level 100, k at level 200, right associativity).

(** [try { body } catch (e) { handler }] *)
Definition try_catch {A} (body : M A) (handler : Thrown -> M A) : M A :=
  fun w =>
    match body w with
    | (Rejected e, w') => handler e w'
    | r => r
    end.

(** [Promise.all([p1, p2])]: both calls have been issued; the result
    rejects with the first rejection in array order. *)
Definition promise_all2 (p1 p2 : M unit) : M unit :=
  fun w =>
    let '(o1, w1) := p1 w in
    let '(o2, w2) := p2 w1 in
    (match o1, o2 with
     | Rejected e, _ => Rejected e
     | Resolved _, Rejected e => Rejected e
     | Resolved _, Resolved _ => Resolved tt
     end, w2).

(** [Promise.all(l.map(f))] where no [f x] rejects before the others
    have been started. *)
Fixpoint mapM {A B} (f : A -> M B) (l : list A) : M (list B) :=
  match l with
  | [] => ret []
  | x :: rest =>
      let! y := f x in
      let! ys := mapM f rest in
      ret (y :: ys)
  end.

Definition record_call (c : Call) (w : World) : World :=
  mkWorld (objects w) (calls w ++ [c]).

(** A call on the bucket: recorded, then rejected or served. *)
Definition r2_call {A} (env : Env) (c : Call) (serve : World -> A * World) : M A :=
  fun w =>
    let w1 := record_call c w in
    match NOTES_rejects env c with
    | Some e => (Rejected e, w1)
    | None => let '(a, w2) := serve w1 in (Resolved a, w2)
    end.

Definition NOTES_head (env : Env) (key : string) : M (option R2Object) :=
  r2_call env (R2Head key) (fun w => (objects w !! key, w)).

Definition NOTES_get (env : Env) (key : string) : M (option R2Object) :=
  r2_call env (R2Get key) (fun w => (objects w !! key, w)).

Definition NOTES_put (env : Env) (key : string) (value : R2Object) : M unit :=
  r2_call env (R2Put key value)
    (fun w => (tt, mkWorld (<[ key := value ]> (objects w)) (calls w))).

Definition NOTES_delete (env : Env) (key : string) : M unit :=
  r2_call env (R2Delete key)
    (fun w => (tt, mkWorld (delete key (objects w)) (calls w))).

Definition key_le (a b : string * R2Object) : Prop := String.le a.1 b.1.

#[global] Instance key_le_dec : RelDecision key_le.
Proof. intros a b. unfold key_le. apply _. Defined.

(** What a listing of the bucket returns: the objects under the prefix,
    by key, at most [limit] of them. *)
Definition list_objects (prefix : string) (limit : Z)
    (objs : gmap string R2Object) : list (string * R2Object) :=
  firstn (Z.to_nat limit)
    (merge_sort key_le
       (List.filter (fun kv => Js.startsWith prefix kv.1) (map_to_list objs))).

(** [list({prefix, limit})] *)
Definition NOTES_list (env : Env) (prefix : string) (limit : Z)
  : M (list (string * R2Object)) :=
  r2_call env (R2List prefix limit)
    (fun w => (list_objects prefix limit (objects w), w)).

(** The search endpoint: the call is recorded and answered by the
    binding. *)
Definition AI_call (c : Call) (answer : Outcome RawResponse) : M RawResponse :=
  fun w => (answer, record_call c w).

(** [Props]: the identity the grant carries. *)
Record Props := mkProps {
  login : string;
  name : string;
  email : string;
  accessToken : string
}.

(** The double quote character, for messages that quote a title. *)
Definition dq : string := String (ascii_of_nat 34) EmptyString.

(** Truthiness of a value. *)
Definition truthy (v : JsVal) : bool :=
  match v with
  | JUndefined | JNull => false
  | JBool b => b
  | JNum n => negb (n =? 0)
  | JReal r => negb (String.eqb r "NaN")
  | JStr s => negb (String.eqb s "")
  | JArr _ | JObj _ => true
  end.

(** Truthiness of an optional string: [undefined] and [""] are falsy. *)
Definition truthy_str (s : option string) : bool :=
  match s with
  | Some v => negb (String.eqb v "")
  | None => false
  end.

(** [a || b] on an optional string. *)
Definition or_else (a : option string) (b : string) : string :=
  match a with
  | Some v => if String.eqb v "" then b else v
  | None => b
  end.

(** [v.k]: reading a property of [null] or [undefined] throws; a parsed
    object lists each key once; the other values have no own property
    [k] for the keys read here. *)
Definition prop_get (v : JsVal) (k : string) : Outcome JsVal :=
  match v with
  | JUndefined | JNull =>
      Rejected (ErrorObj ("Cannot read properties of " +:+ js_String v))
  | JObj fields => Resolved (default JUndefined (assoc_get k fields))
  | _ => Resolved JUndefined
  end.

(** [error instanceof Error ? error.message : String(error)] *)
Definition error_message (e : Thrown) : string :=
  match e with
  | ErrorObj m => m
  | ThrownVal v => js_String v
  end.

(* ===================================================================== *)
(** * tools/note-tools *)
(* ===================================================================== *)

Record NoteMetadata := mkMeta {
  id : string;
  created_at : string;
  created_timestamp : Z;
  title : string;
  note_type : NoteType;
  author : string;
  char_count : Z;
  word_count : Z;
  version : Z
}.

(** The fields of the metadata as the entries of a JavaScript object. *)
Definition metadata_fields (m : NoteMetadata) : list (string * JsVal) :=
  [ ("id", JStr (id m));
    ("created_at", JStr (created_at m));
    ("created_timestamp", JNum (created_timestamp m));
    ("title", JStr (title m));
    ("note_type", JStr (note_type_name (note_type m)));
    ("author", JStr (author m));
    ("char_count", JNum (char_count m));
    ("word_count", JNum (word_count m));
    ("version", JNum (version m)) ].

(** [{...o, k: v}]: a later field of the same name replaces the earlier. *)
Definition spread (o : list (string * JsVal)) (k : string) (v : JsVal)
  : gmap string JsVal :=
  <[ k := v ]> (list_to_map o).

Record CreateArgs := mkCreateArgs {
  arg_text : string;
  arg_title : option string;
  arg_note_type : option NoteType
}.

Record CreateResponse := mkCreateResponse {
  resp_id : string;
  resp_metadata : NoteMetadata;
  storage_note : string;
  storage_sidecar : string
}.

(** The response of [delete_note], by the three payloads it can carry. *)
Inductive DeleteResponse :=
| NoteNotFound (note_id user_folder message : string)
| NoteDeleted (deleted_id : string) (deleted_title : JsVal) (deleted_user : string)
              (files_deleted : list string) (message : string)
| DeletionFailed (note_id error_details message : string).

(** The [success] and [error] fields of the payload. *)
Definition success (r : DeleteResponse) : bool :=
  match r with
  | NoteDeleted _ _ _ _ _ => true
  | _ => false
  end.

Definition error_field (r : DeleteResponse) : option string :=
  match r with
  | NoteNotFound _ _ _ => Some "Note not found"
  | DeletionFailed _ _ _ => Some "Deletion failed"
  | NoteDeleted _ _ _ _ _ => None
  end.

(* ===================================================================== *)
(** * tools/search-tools: responses *)
(* ===================================================================== *)

(** A response of the endpoint as [performAutoRAGSearch] and
    [performAutoRAGAISearch] return it. *)
Record SearchPage := mkPage {
  page_object : string;
  page_search_query : string;
  page_response : string;
  page_data : list AutoRAGSearchResult
}.

Record SearchArgs := mkSearchArgs {
  arg_query : string;
  arg_limit : option Z;
  arg_since_days : option Z;
  arg_until_days : option Z
}.

(** An entry of the advanced search response. *)
Record AdvancedResult := mkAdvanced {
  adv_filename : option string;
  adv_score : option JsVal;
  adv_metadata : option (gmap string string);
  adv_enriched_metadata : option JsVal;
  content_preview : string
}.

(** An entry of the fallback listing. *)
Record FallbackResult := mkFallback {
  fb_key : string;
  fb_metadata : gmap string string;
  fb_score : Z
}.

(** What a search tool answers: one of the three JSON payloads, or plain
    text (an error text, or the prose answer of the AI search). *)
Inductive SearchResponse :=
| SimpleResults (user_folder search_query : string)
                (total_results filtered_results : Z)
                (results : list AutoRAGSearchResult)
                (applied_filter : AutoRAGFilter)
| AdvancedResults (user_folder search_query : string)
                  (filters_applied_since filters_applied_until : JsVal)
                  (total_results : Z)
                  (results : list AdvancedResult)
| FallbackResults (results : list FallbackResult) (total : Z) (fallback : bool)
                  (filters_applied_since filters_applied_until : option Z)
                  (error : string)
| TextResponse (text : string).

(** [n || d] on an optional number. *)
Definition or_num (n : option Z) (d : Z) : Z :=
  match n with
  | Some v => if v =? 0 then d else v
  | None => d
  end.

(** [utils/autorag]: [filterNoteResults]. *)
Definition filterNoteResults (results : list AutoRAGSearchResult)
  : list AutoRAGSearchResult :=
  List.filter
    (fun result =>
       match filename result with
       | Some f => negb (String.eqb f "") && negb (Js.includes f "/.metadata/")
       | None => false
       end)
    results.

(** The text after the last [/] of a path, when it has one. *)
Fixpoint last_segment (s : string) : option string :=
  match s with
  | EmptyString => None
  | String c s' =>
      match last_segment s' with
      | Some r => Some r
      | None => if Ascii.eqb c "/" then Some s' else None
      end
  end.

(** Group 1 of [/\/([^/]+)\.md$/]: the last segment without its [.md],
    when the path has a [/] and that segment is longer than [.md]. *)
Definition match_note_id (filename : string) : option string :=
  match last_segment filename with
  | Some seg =>
      match String.rev seg with
      | String "d" (String "m" (String "." (String c stem))) =>
          Some (String.rev (String c stem))
      | _ => None
      end
  | None => None
  end.

(** [t.slice(0, 300) + (t.length > 300 ? "..." : "")] *)
Definition preview (t : string) : string :=
  Js.slice t 0 300 +:+ (if 300 <? Z.of_nat (String.length t) then "..." else "").

Definition contentPreview (result : AutoRAGSearchResult) : string :=
  let from_text :=
    match text result with
    | Some t => if String.eqb t "" then "No content available" else preview t
    | None => "No content available"
    end in
  match content result with
  | Some (ContentChunks (firstChunk :: _)) =>
      match chunk_text firstChunk with
      | Some t => if String.eqb t "" then "No content available" else preview t
      | None => "No content available"
      end
  | Some (ContentString s) => if String.eqb s "" then from_text else preview s
  | _ => from_text
  end.

Section Handlers.

(** Built-ins of the runtime that the handlers call. *)
Variable JSON_parse : string -> option JsVal.
Variable JSON_stringify : JsVal -> string.
Variable toISOString : Z -> string.

Variable env : Env.
Variable props : Props.

(** [create_note]: [id] is what [crypto.randomUUID()] returned and
    [timestamp] the time of [new Date()], in milliseconds. *)
Definition create_note (id : string) (timestamp : Z) (args : CreateArgs)
  : M CreateResponse :=
  let text := arg_text args in
  let user := email props in
  let metadata :=
    {| id := id;
       created_at := toISOString timestamp;
       created_timestamp := timestamp;
       title := match arg_title args with
                | Some t => if String.eqb t "" then generateTitle text (arg_note_type args) else t
                | None => generateTitle text (arg_note_type args)
                end;
       note_type := default other (arg_note_type args);
       author := user;
       char_count := Z.of_nat (String.length text);
       word_count :=
         Z.of_nat (List.length
           (List.filter (fun word => 0 <? Z.of_nat (String.length word))
                        (Js.split_ws text)));
       version := 1 |} in
  let context :=
    note_type_name (note_type metadata) +:+ " note by " +:+ author metadata
    +:+ ": " +:+ title metadata +:+ ". Created: " +:+ created_at metadata +:+ "." in
  let customMetadata :=
    createCustomMetadata (spread (metadata_fields metadata) "context" (JStr context)) in
  NOTES_put env (user +:+ "/" +:+ id +:+ ".md")
    (mkR2Object text "text/markdown" (Some customMetadata)) ;;;
  let sidecarData :=
    JObj (metadata_fields metadata ++
          [ ("content_preview", JStr (Js.slice text 0 200));
            ("tags", JArr (List.map JStr (extractTags text)));
            ("links", JArr (List.map JStr (extractLinks text))) ]) in
  NOTES_put env (user +:+ "/.metadata/" +:+ id +:+ ".json")
    (mkR2Object (JSON_stringify sidecarData) "application/json" None) ;;;
  ret {| resp_id := id;
         resp_metadata := metadata;
         storage_note := user +:+ "/" +:+ id +:+ ".md";
         storage_sidecar := user +:+ "/.metadata/" +:+ id +:+ ".json" |}.

(** The inner [try] of [delete_note]: the title of the sidecar, when it
    can be read. *)
Definition read_note_title (metadataPath : string) : M JsVal :=
  try_catch
    (let! metadata := NOTES_get env metadataPath in
     match metadata with
     | Some obj =>
         match JSON_parse (body obj) with
         | None => throw (ErrorObj "Unexpected token in JSON")
         | Some metadataJson =>
             match prop_get metadataJson "title" with
             | Rejected e => throw e
             | Resolved t => ret (if truthy t then t else JStr "Unknown")
             end
         end
     | None => ret (JStr "Unknown")
     end)
    (fun _ => ret (JStr "Unknown")).

Definition delete_note (note_id : string) : M DeleteResponse :=
  let user := email props in
  try_catch
    (let notePath := user +:+ "/" +:+ note_id +:+ ".md" in
     let metadataPath := user +:+ "/.metadata/" +:+ note_id +:+ ".json" in
     let! noteExists := NOTES_head env notePath in
     match noteExists with
     | None =>
         ret (NoteNotFound note_id (user +:+ "/")
                ("No note found with ID: " +:+ note_id))
     | Some _ =>
         let! noteTitle := read_note_title metadataPath in
         promise_all2 (NOTES_delete env notePath) (NOTES_delete env metadataPath) ;;;
         ret (NoteDeleted note_id noteTitle user [notePath; metadataPath]
                ("Successfully deleted note: " +:+ dq +:+ js_String noteTitle
                 +:+ dq +:+ " (" +:+ note_id +:+ ")"))
     end)
    (fun error =>
       let errorMessage := error_message error in
       ret (DeletionFailed note_id errorMessage
              ("Failed to delete note " +:+ note_id +:+ ": " +:+ errorMessage))).

(** ** utils/autorag: calls on the search endpoint *)

Definition performAutoRAGSearch (params : SearchParams) : M SearchPage :=
  let! response := AI_call (AISearch params) (AI_search env params) in
  match response with
  | RawNonObject => throw (ErrorObj "Invalid AutoRAG response format")
  | RawObject object search_query _ data =>
      ret {| page_object := or_else object "vector_store.search_results.page";
             page_search_query := or_else search_query (query params);
             page_response := "";
             page_data := default [] data |}
  end.

Definition performAutoRAGAISearch (params : SearchParams) : M SearchPage :=
  let! response := AI_call (AIAiSearch params) (AI_aiSearch env params) in
  match response with
  | RawNonObject => throw (ErrorObj "Invalid AutoRAG AI response format")
  | RawObject object search_query response data =>
      ret {| page_object := or_else object "vector_store.search_results.page";
             page_search_query := or_else search_query (query params);
             page_response := or_else response "No relevant information found.";
             page_data := default [] data |}
  end.

(** One result of [enrichResultsWithMetadata]: the sidecar is added
    when it can be fetched and parsed, the result is returned as it is
    otherwise. *)
Definition enrich_one (user : string) (result : AutoRAGSearchResult)
  : M AutoRAGSearchResult :=
  try_catch
    (match filename result ≫= match_note_id with
     | Some noteId =>
         let sidecarKey := user +:+ "/.metadata/" +:+ noteId +:+ ".json" in
         let! sidecar := NOTES_get env sidecarKey in
         match sidecar with
         | Some obj =>
             match JSON_parse (body obj) with
             | Some sidecarData =>
                 ret (mkResult (filename result) (content result) (text result)
                        (score result) (metadata result)
                        (enriched_metadata result) (Some sidecarData))
             | None => throw (ErrorObj "Unexpected token in JSON")
             end
         | None => ret result
         end
     | None => ret result
     end)
    (fun _ => ret result).

Definition enrichResultsWithMetadata (results : list AutoRAGSearchResult)
    (user : string) : M (list AutoRAGSearchResult) :=
  mapM (enrich_one user) results.

(** ** tools/search-tools *)

(** [error instanceof Error ? error.message : JSON.stringify(error)] *)
Definition error_text (e : Thrown) : string :=
  match e with
  | ErrorObj m => m
  | ThrownVal v => JSON_stringify v
  end.

Definition search_params (query : string) (limit : option Z) (d : Z)
    (filters : AutoRAGFilter) : SearchParams :=
  {| query := query;
     max_num_results := Z.min (or_num limit d) 50;
     rewrite_query := true;
     score_threshold := JReal "0.3";
     filters := filters |}.

Definition search_notes_simple (args : SearchArgs) : M SearchResponse :=
  let user := email props in
  try_catch
    (let! response :=
       performAutoRAGSearch
         (search_params (arg_query args) (arg_limit args) 10
            (createUserFolderFilter user)) in
     let noteResults := filterNoteResults (page_data response) in
     ret (SimpleResults (user +:+ "/") (page_search_query response)
            (Z.of_nat (List.length (page_data response)))
            (Z.of_nat (List.length noteResults))
            noteResults
            (createUserFolderFilter user)))
    (fun error => ret (TextResponse ("Search error: " +:+ error_text error))).

(** [days ? now - (days * 24 * 60 * 60 * 1000) : undefined] *)
Definition days_to_timestamp (now : Z) (days : option Z) : option Z :=
  match days with
  | Some d => if truthy_num days then Some (now - d * 24 * 60 * 60 * 1000) else None
  | None => None
  end.

(** [days || "all time"] *)
Definition days_or_all_time (days : option Z) : JsVal :=
  match days with
  | Some d => if truthy_num days then JNum d else JStr "all time"
  | None => JStr "all time"
  end.

(** The [catch] of [search_notes_advanced]: a scan of the listing. *)
Definition advanced_fallback (args : SearchArgs) (error : Thrown)
  : M SearchResponse :=
  let user := email props in
  let! listed := NOTES_list env (user +:+ "/") 1000 in
  let results :=
    omap (fun '(key, object) =>
            let metadata := default ∅ (customMetadata object) in
            let matchesQuery :=
              match metadata !! "title" with
              | Some t =>
                  Js.includes (Js.toLowerCase t) (Js.toLowerCase (arg_query args))
              | None => false
              end in
            if matchesQuery then Some (mkFallback key metadata 1) else None)
         listed in
  ret (FallbackResults
         (Js.slice_list results 0 (or_num (arg_limit args) 10))
         (Z.of_nat (List.length results))
         true
         (arg_since_days args) (arg_until_days args)
         (error_message error)).

(** [now] is what [Date.now()] returned. *)
Definition search_notes_advanced (now : Z) (args : SearchArgs) : M SearchResponse :=
  let user := email props in
  try_catch
    (let since_timestamp := days_to_timestamp now (arg_since_days args) in
     let until_timestamp := days_to_timestamp now (arg_until_days args) in
     let filters := createAdvancedFilter user since_timestamp until_timestamp in
     let! response :=
       performAutoRAGSearch
         (search_params (arg_query args) (arg_limit args) 10 filters) in
     let noteResults := filterNoteResults (page_data response) in
     let! enrichedResults := enrichResultsWithMetadata noteResults user in
     ret (AdvancedResults (user +:+ "/") (page_search_query response)
            (days_or_all_time (arg_since_days args))
            (days_or_all_time (arg_until_days args))
            (Z.of_nat (List.length enrichedResults))
            (List.map
               (fun result =>
                  {| adv_filename := filename result;
                     adv_score := score result;
                     adv_metadata := metadata result;
                     adv_enriched_metadata := enriched_metadata result;
                     content_preview := contentPreview result |})
               enrichedResults)))
    (advanced_fallback args).

(** The note that [ai_search_notes] appends about the time filters. *)
Definition filter_note (since_days until_days : option Z) : string :=
  if truthy_num since_days || truthy_num until_days then
    let filterInfo :=
      (if truthy_num since_days
       then ["from the last " +:+ Js.num_toString (default 0 since_days) +:+ " days"]
       else []) ++
      (if truthy_num until_days
       then ["older than " +:+ Js.num_toString (default 0 until_days) +:+ " days"]
       else []) in
    String (ascii_of_nat 10) (String (ascii_of_nat 10)
      ("*Note: This answer is based on notes filtered by "
       +:+ join ", " filterInfo +:+ ".*"))
  else "".

Definition ai_search_notes (now : Z) (args : SearchArgs) : M SearchResponse :=
  let user := email props in
  try_catch
    (let since_timestamp := days_to_timestamp now (arg_since_days args) in
     let until_timestamp := days_to_timestamp now (arg_until_days args) in
     let filters := createAdvancedFilter user since_timestamp until_timestamp in
     let! response :=
       performAutoRAGAISearch
         (search_params (arg_query args) (arg_limit args) 5 filters) in
     let responseText :=
       or_else (Some (page_response response))
               "No relevant information found in your notes." in
     ret (TextResponse
            (responseText +:+ filter_note (arg_since_days args) (arg_until_days args))))
    (fun error =>
       let errorMessage := error_text error in
       ret (TextResponse
              ("Search error: " +:+ errorMessage +:+
               String (ascii_of_nat 10) (String (ascii_of_nat 10)
                 "Note: AutoRAG may need time to index newly created documents. Try again in a few minutes.")))).

End Handlers.

(* ===================================================================== *)
(** * utils and google-handler: the OAuth callback *)
(* ===================================================================== *)

Module Google.

(** The configuration the handler reads from [c.env]. *)
Record Config := mkConfig {
  GOOGLE_CLIENT_ID : string;
  GOOGLE_CLIENT_SECRET : string;
  GOOGLE_HOSTED_DOMAIN : option string
}.

(** The decoded [state]: the pending authorization request. *)
Record AuthRequest := mkAuthRequest {
  clientId : option string;
  scope : JsVal
}.

(** The profile the identity provider returns. *)
Record UserInfo := mkUserInfo {
  user_id : string;
  user_email : string;
  user_name : string;
  hd : option string
}.

(** A request made with [fetch]: the form fields or the bearer token
    are kept as given, not serialised. *)
Record FetchRequest := mkFetch {
  fetch_url : string;
  fetch_method : string;
  fetch_form : list (string * string);
  fetch_bearer : option string
}.

(** The answer to a [fetch]: [ok], and what [json()] gives. *)
Record FetchResponse (A : Type) := mkFetchResponse {
  ok : bool;
  json : Outcome A
}.
Arguments ok {A} _.
Arguments json {A} _.

(** What [completeAuthorization] is called with. *)
Record Grant := mkGrant {
  grant_label : string;
  grant_props : Props;
  grant_request : AuthRequest;
  grant_scope : JsVal;
  grant_userId : string
}.

(** Everything outside the handler: the built-ins that decode the
    state, the two upstream endpoints, the OAuth provider, and the URL
    parser, which gives the serialised form of an absolute URL and
    throws on any other string. *)
Record Upstream := mkUpstream {
  decodeURIComponent : string -> Outcome string;
  atob : string -> Outcome string;
  parseAuthRequest : string -> Outcome AuthRequest;
  fetch_token : FetchRequest -> Outcome (FetchResponse string);
  fetch_userinfo : FetchRequest -> Outcome (FetchResponse UserInfo);
  completeAuthorization : Grant -> Outcome string;
  URL_href : string -> Outcome string
}.

(** The inbound callback: its query parameters, and the absolute URL
    of [/callback] on the host the request came to. *)
Record Request := mkRequest {
  query_state : option string;
  query_code : option string;
  callback_href : string
}.

Record Response := mkResponse {
  status : Z;
  content_type : option string;
  location : option string;
  response_body : string
}.

(** [c.text(body, status)] *)
Definition text_response (body : string) (status : Z) : Response :=
  mkResponse status (Some "text/plain; charset=UTF-8") None body.

(** [new Response(body, {status})] for a string body: the content type
    is the one the body brings. *)
Definition string_response (body : string) (status : Z) : Response :=
  mkResponse status (Some "text/plain;charset=UTF-8") None body.

Definition andThen {A B} (o : Outcome A) (k : A -> Outcome B) : Outcome B :=
  match o with
  | Resolved a => k a
  | Rejected e => Rejected e
  end.

(** [Response.redirect(url)]: the URL is parsed, which throws when it is
    not an absolute URL, and its serialised form is the [Location]. *)
Definition redirect (up : Upstream) (url : string) : Outcome Response :=
  andThen (URL_href up url)
    (fun href => Resolved (mkResponse 302 None (Some href) "")).

(** [fetchUpstreamAuthToken]: the token, or the response to give up
    with. *)
Definition fetchUpstreamAuthToken (up : Upstream)
    (clientId clientSecret : string) (code : option string)
    (redirectUri upstreamUrl grantType : string)
  : Outcome (string + Response) :=
  match code with
  | Some code' =>
      if String.eqb code' "" then
        Resolved (inr (string_response "Missing code" 400))
      else
        andThen
          (fetch_token up
             (mkFetch upstreamUrl "POST"
                [ ("clientId", clientId); ("clientSecret", clientSecret);
                  ("code", code'); ("grantType", grantType);
                  ("redirectUri", redirectUri) ]
                None))
          (fun resp =>
             if negb (ok resp) then
               Resolved (inr (string_response "Failed to fetch access token" 500))
             else andThen (json resp) (fun access_token => Resolved (inl access_token)))
  | None => Resolved (inr (string_response "Missing code" 400))
  end.

Definition nl : string := String (ascii_of_nat 10) EmptyString.

Fixpoint tabs (n : nat) : string :=
  match n with
  | O => EmptyString
  | S n' => String (ascii_of_nat 9) (tabs n')
  end.

Definition html_line (indent : nat) (s : string) : string :=
  tabs indent +:+ s +:+ nl.

(** The page of the denial. *)
Definition access_denied_page (domain email : string) : string :=
  nl +:+
  html_line 3 "<!DOCTYPE html>" +:+
  html_line 3 "<html>" +:+
  html_line 3 "<head>" +:+
  html_line 4 "<title>Access Denied</title>" +:+
  html_line 4 "<style>" +:+
  html_line 5 "body { font-family: Arial, sans-serif; text-align: center; padding: 50px; }" +:+
  html_line 5 ".error { color: #d32f2f; }" +:+
  html_line 5 ".user-info { color: #666; margin-top: 20px; }" +:+
  html_line 4 "</style>" +:+
  html_line 3 "</head>" +:+
  html_line 3 "<body>" +:+
  html_line 4 ("<h1 class=" +:+ dq +:+ "error" +:+ dq +:+ ">Access Denied</h1>") +:+
  html_line 4 ("<p>Sorry, you must use an account from the " +:+ domain +:+ " domain.</p>") +:+
  html_line 4 ("<p class=" +:+ dq +:+ "user-info" +:+ dq
               +:+ ">You authenticated as: <strong>" +:+ email +:+ "</strong></p>") +:+
  html_line 4 "<p>Please sign in with the correct domain account.</p>" +:+
  html_line 3 "</body>" +:+
  html_line 3 "</html>" +:+
  tabs 2.

(** [JSON.parse(atob(s)) as AuthRequest] *)
Definition decode_state (up : Upstream) (s : string) : Outcome AuthRequest :=
  andThen (atob up s) (parseAuthRequest up).

(** What the first part of the callback ends with: a response, or the
    request, the access token and the fetched profile. *)
Inductive Fetched :=
| GiveUp (r : Response)
| Profile (oauthReqInfo : AuthRequest) (accessToken : string) (userInfo : UserInfo).

(** [/callback] up to the fetch of the profile. *)
Definition callback_fetch (cfg : Config) (up : Upstream) (req : Request)
  : Outcome Fetched :=
  match query_state req with
  | None => Resolved (GiveUp (text_response "Missing state parameter" 400))
  | Some rawState =>
      if String.eqb rawState "" then
        Resolved (GiveUp (text_response "Missing state parameter" 400))
      else
        let decoded :=
          match andThen (decodeURIComponent up rawState) (decode_state up) with
          | Resolved info => inl info
          | Rejected error =>
              let errorMessage := error_message error in
              match decode_state up rawState with
              | Resolved info => inl info
              | Rejected _ =>
                  inr (text_response ("Invalid state parameter: " +:+ errorMessage) 400)
              end
          end in
        match decoded with
        | inr r => Resolved (GiveUp r)
        | inl oauthReqInfo =>
            if negb (truthy_str (clientId oauthReqInfo)) then
              Resolved (GiveUp (text_response "Invalid state" 400))
            else if negb (truthy_str (query_code req)) then
              Resolved (GiveUp (text_response "Missing authorization code" 400))
            else
              andThen
                (fetchUpstreamAuthToken up (GOOGLE_CLIENT_ID cfg)
                   (GOOGLE_CLIENT_SECRET cfg) (query_code req) (callback_href req)
                   "https://oauth2.googleapis.com/token" "authorization_code")
                (fun r =>
                   match r with
                   | inr errResponse => Resolved (GiveUp errResponse)
                   | inl accessToken =>
                       andThen
                         (fetch_userinfo up
                            (mkFetch "https://www.googleapis.com/oauth2/v2/userinfo"
                               "GET" [] (Some accessToken)))
                         (fun userInfoResponse =>
                            if negb (ok userInfoResponse) then
                              Resolved (GiveUp
                                (text_response "Failed to fetch user information" 500))
                            else
                              andThen (json userInfoResponse)
                                (fun userInfo =>
                                   Resolved (Profile oauthReqInfo accessToken userInfo)))
                   end)
        end
  end.

(** The hosted-domain check: [GOOGLE_HOSTED_DOMAIN && (!hd || hd !==
    GOOGLE_HOSTED_DOMAIN)]. *)
Definition domain_rejected (cfg : Config) (hd : option string) : bool :=
  truthy_str (GOOGLE_HOSTED_DOMAIN cfg) &&
  (negb (truthy_str hd) ||
   negb (bool_decide (hd = GOOGLE_HOSTED_DOMAIN cfg))).

(** [/callback] from the fetched profile on: the response, and the
    grants asked of the OAuth provider. *)
Definition callback_finish (cfg : Config) (up : Upstream)
    (oauthReqInfo : AuthRequest) (accessToken : string) (userInfo : UserInfo)
  : Outcome Response * list Grant :=
  let email := user_email userInfo in
  if domain_rejected cfg (hd userInfo) then
    (Resolved
       (mkResponse 403 (Some "text/html") None
          (access_denied_page (default "" (GOOGLE_HOSTED_DOMAIN cfg)) email)),
     [])
  else
    let grant :=
      {| grant_label := user_name userInfo;
         grant_props := mkProps email (user_name userInfo) email accessToken;
         grant_request := oauthReqInfo;
         grant_scope := scope oauthReqInfo;
         grant_userId := user_id userInfo |} in
    (andThen (completeAuthorization up grant)
       (fun redirectTo => redirect up redirectTo),
     [grant]).

(** [app.get("/callback", ...)] *)
Definition callback (cfg : Config) (up : Upstream) (req : Request)
  : Outcome Response * list Grant :=
  match callback_fetch cfg up req with
  | Rejected e => (Rejected e, [])
  | Resolved (GiveUp r) => (Resolved r, [])
  | Resolved (Profile oauthReqInfo accessToken userInfo) =>
      callback_finish cfg up oauthReqInfo accessToken userInfo
  end.

End Google.

(* ===================================================================== *)
(** * utils: the authorization URL *)
(* ===================================================================== *)

(** The upper-case hexadecimal digit of a value below 16. *)
Definition hex_digit (n : N) : ascii :=
  if (n <? 10)%N then ascii_of_N (48 + n) else ascii_of_N (55 + n).

(** [%XX] for a byte. *)
Definition percent (b : N) : string :=
  String "%" (String (hex_digit (b / 16)) (String (hex_digit (b mod 16)) EmptyString)).

(** The bytes the form serialiser leaves as they are: the ASCII letters
    and digits, and [*], [-], [.] and [_]. *)
Definition is_unreserved (n : N) : bool :=
  ((48 <=? n) && (n <=? 57) || (65 <=? n) && (n <=? 90)
   || (97 <=? n) && (n <=? 122)
   || (n =? 42) || (n =? 45) || (n =? 46) || (n =? 95))%N.

(** One code unit in [application/x-www-form-urlencoded]: a space is a
    [+], an unreserved character is itself, any other byte of the UTF-8
    encoding is percent-encoded; a code unit from 128 on has the two
    UTF-8 bytes [110xxxxx 10xxxxxx]. *)
Definition encode_unit (c : ascii) : string :=
  let n := Js.code c in
  if (n =? 32)%N then "+"
  else if is_unreserved n then String c EmptyString
  else if (n <? 128)%N then percent n
  else percent (192 + n / 64) +:+ percent (128 + n mod 64).

Fixpoint form_encode (s : string) : string :=
  match s with
  | EmptyString => EmptyString
  | String c s' => encode_unit c +:+ form_encode s'
  end.

(** [new URLSearchParams(pairs).toString()] *)
Definition URLSearchParams_toString (params : list (string * string)) : string :=
  join "&" (List.map (fun kv => form_encode kv.1 +:+ "=" +:+ form_encode kv.2) params).

(** The parameters [getUpstreamAuthorizeUrl] puts in the URL: the four
    fixed ones, then [state] and [hd] when they are given and not
    empty. *)
Definition authorize_params (clientId scope redirectUri : string)
    (state hostedDomain : option string) : list (string * string) :=
  [ ("client_id", clientId); ("response_type", "code");
    ("redirect_uri", redirectUri); ("scope", scope) ]
  ++ (if truthy_str state then [("state", default "" state)] else [])
  ++ (if truthy_str hostedDomain then [("hd", default "" hostedDomain)] else []).

Definition getUpstreamAuthorizeUrl (upstreamUrl clientId scope redirectUri : string)
    (state hostedDomain : option string) : string :=
  upstreamUrl +:+ "?" +:+
  URLSearchParams_toString
    (authorize_params clientId scope redirectUri state hostedDomain).

(** ** Reading a query string back

    The inverse the receiving server applies: split at [&], split each
    piece at its first [=], and decode both halves. *)

Definition hex_value (c : ascii) : option N :=
  let n := Js.code c in
  if ((48 <=? n) && (n <=? 57))%N then Some (n - 48)%N
  else if ((65 <=? n) && (n <=? 70))%N then Some (n - 55)%N
  else if ((97 <=? n) && (n <=? 102))%N then Some (n - 87)%N
  else None.

(** The byte of [%XX] at the start of a string, and what follows it. *)
Definition percent_byte (s : string) : option (N * string) :=
  match s with
  | String p (String h1 (String h2 rest)) =>
      if Ascii.eqb p "%" then
        match hex_value h1, hex_value h2 with
        | Some a, Some b => Some (16 * a + b, rest)%N
        | _, _ => None
        end
      else None
  | _ => None
  end.

(** Decoding, with fuel for the length of the input. *)
Fixpoint form_decode_fuel (fuel : nat) (s : string) : option string :=
  match fuel with
  | O => None
  | S fuel' =>
      match s with
      | EmptyString => Some EmptyString
      | String c rest =>
          if Ascii.eqb c "+" then String " " <$> form_decode_fuel fuel' rest
          else if Ascii.eqb c "%" then
            match percent_byte s with
            | Some (b1, rest1) =>
                if (b1 <? 128)%N then
                  String (ascii_of_N b1) <$> form_decode_fuel fuel' rest1
                else
                  match percent_byte rest1 with
                  | Some (b2, rest2) =>
                      if ((194 <=? b1) && (b1 <=? 195)
                          && (128 <=? b2) && (b2 <=? 191))%N
                      then String (ascii_of_N ((b1 - 192) * 64 + (b2 - 128)))
                             <$> form_decode_fuel fuel' rest2
                      else None
                  | None => None
                  end
            | None => None
            end
          else String c <$> form_decode_fuel fuel' rest
      end
  end.

Definition form_decode (s : string) : option string :=
  form_decode_fuel (S (String.length s)) s.

(** The pieces of a string between the occurrences of a character. *)
Fixpoint split_on (sep : ascii) (s : string) : list string :=
  match s with
  | EmptyString => [EmptyString]
  | String c s' =>
      if Ascii.eqb c sep then EmptyString :: split_on sep s'
      else
        match split_on sep s' with
        | p :: ps => String c p :: ps
        | [] => [String c EmptyString]
        end
  end.

(** A piece [name=value], split at its first [=] and decoded. *)
Definition parse_pair (piece : string) : option (string * string) :=
  match split_on "=" piece with
  | name :: value :: more =>
      n ← form_decode name;
      v ← form_decode (join "=" (value :: more));
      Some (n, v)
  | [name] => n ← form_decode name; Some (n, EmptyString)
  | [] => None
  end.

Fixpoint parse_pairs (pieces : list string) : option (list (string * string)) :=
  match pieces with
  | [] => Some []
  | piece :: rest =>
      kv ← parse_pair piece;
      kvs ← parse_pairs rest;
      Some (kv :: kvs)
  end.

(** The parameters of a query string; empty pieces are skipped. *)
Definition parse_query (q : string) : option (list (string * string)) :=
  parse_pairs
    (List.filter (fun piece => negb (String.eqb piece "")) (split_on "&" q)).

(* ===================================================================== *)
(** * Users, identifiers and the shape of the stored paths *)
(* ===================================================================== *)

(** A user name without a [/]: what an e-mail address of the identity
    provider is. *)
Fixpoint no_slash (s : string) : bool :=
  match s with
  | EmptyString => true
  | String c s' => negb (Ascii.eqb c "/") && no_slash s'
  end.

(** The identifier is empty or starts with a character before [z]. *)
Definition sorts_below_z (id : string) : bool :=
  match id with
  | EmptyString => true
  | String c _ => (Js.code c <? 122)%N
  end.

Definition is_hex (c : ascii) : bool :=
  let n := Js.code c in
  ((48 <=? n) && (n <=? 57) || (65 <=? n) && (n <=? 70)
   || (97 <=? n) && (n <=? 102))%N.

(** Reads [n] hexadecimal digits and gives what follows them. *)
Fixpoint hex_run (n : nat) (s : string) : option string :=
  match n, s with
  | O, _ => Some s
  | S n', String c s' => if is_hex c then hex_run n' s' else None
  | S _, EmptyString => None
  end.

Definition dash_then (k : string -> bool) (s : option string) : bool :=
  match s with
  | Some (String c rest) => Ascii.eqb c "-" && k rest
  | _ => false
  end.

(** The shape of a UUID, as [crypto.randomUUID()] gives and the schema of
    [delete_note] asks: groups of 8, 4, 4, 4 and 12 hexadecimal digits. *)
Definition is_uuid (s : string) : bool :=
  dash_then (fun s1 =>
    dash_then (fun s2 =>
      dash_then (fun s3 =>
        dash_then (fun s4 =>
          match hex_run 12 s4 with
          | Some EmptyString => true
          | _ => false
          end) (hex_run 4 s3)) (hex_run 4 s2)) (hex_run 4 s1)) (hex_run 8 s).

(** The lower-case hexadecimal digit of the low four bits of a number. *)
Definition hex_lower (n : Z) : ascii :=
  let d := Z.land n 15 in
  if d <? 10 then ascii_of_N (48 + Z.to_N d) else ascii_of_N (87 + Z.to_N d).

(** The two hexadecimal digits of the low byte of a number. *)
Definition hex_byte (b : Z) : string :=
  String (hex_lower (Z.shiftr b 4)) (String (hex_lower b) EmptyString).

Definition hex_bytes (bytes : list Z) : string :=
  List.fold_right (fun b rest => hex_byte b +:+ rest) EmptyString bytes.

(** [crypto.randomUUID()] on the sixteen random bytes it draws,
    [random 0] to [random 15]: byte 6 gets the version 4 in its high
    four bits and byte 8 the variant [10] in its high two bits, and the
    bytes are printed in lower-case hexadecimal in groups of 4, 2, 2, 2
    and 6. *)
Definition randomUUID (random : nat -> Z) : string :=
  let version := Z.lor (Z.land (random 6%nat) 15) 64 in
  let variant := Z.lor (Z.land (random 8%nat) 63) 128 in
  hex_bytes (List.map random [0; 1; 2; 3]%nat) +:+ "-" +:+
  hex_bytes (List.map random [4; 5]%nat) +:+ "-" +:+
  hex_bytes [version; random 7%nat] +:+ "-" +:+
  hex_bytes [variant; random 9%nat] +:+ "-" +:+
  hex_bytes (List.map random [10; 11; 12; 13; 14; 15]%nat).

(** [s.endsWith(t)]: some suffix of [s] is [t]. *)
Fixpoint endsWith (s t : string) : bool :=
  String.eqb s t ||
  match s with
  | EmptyString => false
  | String _ s' => endsWith s' t
  end.

(** The result names an object of the sidecar namespace. *)
Definition names_sidecar (r : AutoRAGSearchResult) : bool :=
  match filename r with
  | Some f => Js.includes f "/.metadata/"
  | None => false
  end.

(** The [results] field of a response, when it has one of search
    results. *)
Definition response_results (r : SearchResponse) : list AutoRAGSearchResult :=
  match r with
  | SimpleResults _ _ _ _ results _ => results
  | _ => []
  end.

(** What [createCustomMetadata] stores for a value that is neither null
    nor undefined. *)
Definition stored_string (value : JsVal) : string :=
  match value with
  | JStr s => s
  | _ => js_String value
  end.

(** The fields [create_note] hands to [createCustomMetadata]. *)
Definition note_custom_fields (m : NoteMetadata) : gmap string JsVal :=
  spread (metadata_fields m) "context"
    (JStr (note_type_name (note_type m) +:+ " note by " +:+ author m
           +:+ ": " +:+ title m +:+ ". Created: " +:+ created_at m +:+ ".")).

(** A bucket binding that serves every call, and a search endpoint that
    is down. *)
Definition serving_env : Env :=
  mkEnv (fun _ => None)
        (fun _ => Rejected (ErrorObj "unavailable"))
        (fun _ => Rejected (ErrorObj "unavailable")).

(** A bucket binding that rejects every call, with a search endpoint
    that is down. *)
Definition failing_env : Env :=
  mkEnv (fun _ => Some (ErrorObj "bucket unavailable"))
        (fun _ => Rejected (ErrorObj "unavailable"))
        (fun _ => Rejected (ErrorObj "unavailable")).

Definition ann : Props :=
  mkProps "ann@example.com" "Ann" "ann@example.com" "token".

Definition sample_id : string := "123e4567-e89b-42d3-a456-426614174000".

(** Sixteen random bytes for which [crypto.randomUUID()] gives
    [sample_id]. *)
Definition sample_random (i : nat) : Z :=
  nth i [18; 62; 69; 103; 232; 155; 66; 211; 164; 86; 66; 102; 20; 23; 64; 0] 0.

(** A bucket holding only a sidecar whose note is missing. *)
Definition orphan_world : World :=
  mkWorld
    {[ getMetadataPath "ann@example.com" sample_id :=
         mkR2Object "{}" "application/json" None ]}
    [].

(** The failure of the external search call, when it fails: the call
    rejects, or its answer is not an object. *)
Definition search_failure (env : Env) (params : SearchParams) : option Thrown :=
  match AI_search env params with
  | Rejected e => Some e
  | Resolved RawNonObject => Some (ErrorObj "Invalid AutoRAG response format")
  | Resolved (RawObject _ _ _ _) => None
  end.

(** [r] is what [a || b] gives: [a] when it is given and not empty,
    [b] otherwise. *)
Definition given_or (a : option string) (b r : string) : Prop :=
  (exists s, a = Some s /\ s <> "" /\ r = s)
  \/ ((a = None \/ a = Some "") /\ r = b).

(** [t] contains [q] as a substring, letter case aside. *)
Definition contains_ci (t q : string) : Prop :=
  exists pre post, Js.toLowerCase t = pre +:+ Js.toLowerCase q +:+ post.

(** The object has a title in its custom metadata, and the title
    contains the query, letter case aside. *)
Definition title_contains (q : string) (object : R2Object) : Prop :=
  exists md t,
    customMetadata object = Some md /\ md !! "title" = Some t /\ contains_ci t q.

(** The test the fallback applies to a listed object. *)
Definition title_matches (q : string) (object : R2Object) : bool :=
  match default ∅ (customMetadata object) !! "title" with
  | Some t => Js.includes (Js.toLowerCase t) (Js.toLowerCase q)
  | None => false
  end.

(** The entry of the fallback response for a listed object. *)
Definition fallback_entry (kv : string * R2Object) : FallbackResult :=
  mkFallback kv.1 (default ∅ (customMetadata kv.2)) 1.

(** The clause a day offset stands for in the filter sent to the
    endpoint. *)
Definition day_clause (t : CmpType) (now : Z) (days : option Z) : list AutoRAGFilter :=
  match days with
  | Some d => [Cmp t "timestamp" (Js.num_toString (now - d * 86400000))]
  | None => []
  end.

(** The filter the advanced searches are to send for the given day
    offsets. *)
Definition expected_filter (user : string) (now : Z)
    (since_days until_days : option Z) : AutoRAGFilter :=
  And ([ Cmp T_gte "folder" (user +:+ "/"); Cmp T_lt "folder" (user +:+ "/z") ]
       ++ day_clause T_gte now since_days ++ day_clause T_lte now until_days).

(** The filter of the first search call in a list of calls. *)
Fixpoint filter_sent (cs : list Call) : option AutoRAGFilter :=
  match cs with
  | [] => None
  | AISearch params :: _ | AIAiSearch params :: _ => Some (filters params)
  | _ :: rest => filter_sent rest
  end.

(** A world with an empty bucket and no call made. *)
Definition empty_world : World := mkWorld ∅ [].

(** A login at a deployment restricted to [example.com], by a user of
    another domain. *)
Definition restricted_config : Google.Config :=
  Google.mkConfig "client-id" "client-secret" (Some "example.com").

Definition eve : Google.UserInfo :=
  Google.mkUserInfo "1093" "eve@other.example" "Eve" (Some "other.example").

Definition eve_upstream : Google.Upstream :=
  Google.mkUpstream
    (fun s => Resolved s)
    (fun s => Resolved s)
    (fun _ => Resolved (Google.mkAuthRequest (Some "mcp-client") JNull))
    (fun _ => Resolved (Google.mkFetchResponse string true (Resolved "ya29.token")))
    (fun _ => Resolved (Google.mkFetchResponse Google.UserInfo true (Resolved eve)))
    (fun _ => Resolved "https://client.example/callback")
    (fun url => Resolved url).

Definition eve_request : Google.Request :=
  Google.mkRequest (Some "eyJjbGllbnRJZCI6Im1jcC1jbGllbnQifQ==") (Some "4/0AfJohX")
    "https://notes.example/callback".

(** A bucket with two notes of Ann and one of Bob, and a search for
    [milk] with the limit 1. *)
Definition titled (t : string) : R2Object :=
  mkR2Object "text" "text/markdown" (Some {[ "title" := t ]}).

Definition pantry_world : World :=
  mkWorld
    (<[ "ann@example.com/a.md" := titled "Task: Buy MILK" ]>
       (<[ "ann@example.com/b.md" := titled "Idea: oat milk" ]>
          {[ "bob@example.com/c.md" := titled "Note: milk run" ]}))
    [].

Definition milk_args : SearchArgs := mkSearchArgs "Milk" (Some 1) None None.

(** The calls of the second world continue those of the first. *)
Definition extends (w w' : World) : Prop :=
  exists rest, calls w' = calls w ++ rest.

Definition is_delete (c : Call) : bool :=
  match c with
  | R2Delete _ => true
  | _ => false
  end.

(** The world after [n] successive calls of [delete_note] for one
    identifier. *)
Fixpoint delete_repeatedly (JSON_parse : string -> option JsVal) (env : Env)
    (props : Props) (note_id : string) (n : nat) (w : World) : World :=
  match n with
  | O => w
  | S n' =>
      delete_repeatedly JSON_parse env props note_id n'
        (snd (delete_note JSON_parse env props note_id w))
  end.

(** The number of [/] in a string. *)
Fixpoint count_slash (s : string) : nat :=
  match s with
  | EmptyString => O
  | String c s' => (if Ascii.eqb c "/" then 1 else 0)%nat + count_slash s'
  end.

(** Two results that differ at most in the sidecar attached by
    [enrichResultsWithMetadata]. *)
Definition same_but_sidecar (r r' : AutoRAGSearchResult) : Prop :=
  filename r' = filename r /\ content r' = content r /\ text r' = text r
  /\ score r' = score r /\ metadata r' = metadata r
  /\ enriched_metadata r' = enriched_metadata r.

Definition is_get (c : Call) : bool :=
  match c with
  | R2Get _ => true
  | _ => false
  end.

(** A call that leaves the bucket as it is. *)
Definition is_read (c : Call) : bool :=
  match c with
  | R2Put _ _ | R2Delete _ => false
  | _ => true
  end.

(** The second world comes from the first by calls that only read. *)
Definition reads_only (w w' : World) : Prop :=
  objects w' = objects w
  /\ exists rest, calls w' = calls w ++ rest /\ forallb is_read rest = true.

(** A result with the sidecar [v] attached. *)
Definition with_sidecar (r : AutoRAGSearchResult) (v : JsVal) : AutoRAGSearchResult :=
  mkResult (filename r) (content r) (text r) (score r) (metadata r)
    (enriched_metadata r) (Some v).

(** The entry [search_notes_advanced] answers with for a result. *)
Definition shape_result (result : AutoRAGSearchResult) : AdvancedResult :=
  {| adv_filename := filename result;
     adv_score := score result;
     adv_metadata := metadata result;
     adv_enriched_metadata := enriched_metadata result;
     content_preview := contentPreview result |}.

(** The counts of a simple search response agree with its results. *)
Definition counts_consistent (r : SearchResponse) : Prop :=
  match r with
  | SimpleResults _ _ total_results filtered_results results _ =>
      filtered_results = Z.of_nat (length results)
      /\ 0 <= filtered_results <= total_results
  | TextResponse _ => True
  | _ => False
  end.

(** Every character of the string satisfies [p]. *)
Fixpoint all_chars (p : ascii -> bool) (s : string) : bool :=
  match s with
  | EmptyString => true
  | String c s' => p c && all_chars p s'
  end.

(** A well-formed tag: not empty, made of word characters, in lower
    case. *)
Definition is_tag (s : string) : bool :=
  negb (String.eqb s "")
  && all_chars (fun c => Js.is_word c && Ascii.eqb (Js.lower_char c) c) s.

(** The characters of a string up to its first white space. *)
Fixpoint nonspace_prefix (s : string) : string :=
  match s with
  | EmptyString => EmptyString
  | String c s' => if Js.is_space c then EmptyString else String c (nonspace_prefix s')
  end.

(** A well-formed link: it starts with one of the two schemes and has no
    white space in it. *)
Definition is_link (s : string) : bool :=
  (Js.startsWith "http://" s || Js.startsWith "https://" s)
  && all_chars (fun c => negb (Js.is_space c)) s.

(** The number of words of a text: the places where a character that is
    not white space starts the text or follows white space. *)
Fixpoint count_words (after_space : bool) (s : string) : nat :=
  match s with
  | EmptyString => O
  | String c s' =>
      if Js.is_space c then count_words true s'
      else ((if after_space then 1 else 0) + count_words false s')%nat
  end.

(** The [word_count] that [create_note] computes for a text. *)
Definition word_count_of (text : string) : Z :=
  Z.of_nat (List.length
    (List.filter (fun word => 0 <? Z.of_nat (String.length word))
       (Js.split_ws text))).

(** The sentence or line [generateTitle] makes the title from. *)
Definition title_source (text : string) : string :=
  match match_first_sentence text with
  | Some m => m
  | None => Js.trim (Js.first_line text)
  end.

(** A search endpoint that answers with a note and its sidecar. *)
Definition answering_env : Env :=
  mkEnv (fun _ => None)
        (fun _ => Resolved
           (RawObject None (Some "milk") None
              (Some [ mkResult (Some (getNotePath "ann@example.com" sample_id))
                        None (Some "Buy milk") None None None None;
                      mkResult (Some (getMetadataPath "ann@example.com" sample_id))
                        None None None None None None ])))
        (fun _ => Resolved (RawObject None None (Some "You need milk.") None)).

(** The title [delete_note] reports for a sidecar: the [title] field of
    what it parses to, when that is a truthy value, and [Unknown]
    otherwise. *)
Definition sidecar_title (JSON_parse : string -> option JsVal)
    (sidecar : option R2Object) : JsVal :=
  match sidecar ≫= (fun obj => JSON_parse (body obj)) with
  | Some (JObj fields) =>
      match assoc_get "title" fields with
      | Some t => if truthy t then t else JStr "Unknown"
      | None => JStr "Unknown"
      end
  | _ => JStr "Unknown"
  end.

(** A bucket binding that rejects the writes of sidecars. *)
Definition sidecar_failing_env : Env :=
  mkEnv (fun c => match c with
                  | R2Put key _ =>
                      if Js.includes key "/.metadata/"
                      then Some (ErrorObj "write failed") else None
                  | _ => None
                  end)
        (fun _ => Rejected (ErrorObj "unavailable"))
        (fun _ => Rejected (ErrorObj "unavailable")).

(** A bucket binding that rejects the deletion of notes, not of
    sidecars. *)
Definition note_delete_failing_env : Env :=
  mkEnv (fun c => match c with
                  | R2Delete key =>
                      if Js.includes key "/.metadata/"
                      then None else Some (ErrorObj "delete failed")
                  | _ => None
                  end)
        (fun _ => Rejected (ErrorObj "unavailable"))
        (fun _ => Rejected (ErrorObj "unavailable")).

(** A bucket holding a note of Ann and its sidecar. *)
Definition stocked_world : World :=
  mkWorld
    (<[ getNotePath "ann@example.com" sample_id := titled "Task: Buy milk" ]>
       {[ getMetadataPath "ann@example.com" sample_id :=
            mkR2Object "sidecar" "application/json" None ]})
    [].

(** A login by a user of the configured domain. *)
Definition ann_profile : Google.UserInfo :=
  Google.mkUserInfo "1001" "ann@example.com" "Ann" (Some "example.com").

Definition ann_upstream : Google.Upstream :=
  Google.mkUpstream
    (fun s => Resolved s)
    (fun s => Resolved s)
    (fun _ => Resolved (Google.mkAuthRequest (Some "mcp-client") JNull))
    (fun _ => Resolved (Google.mkFetchResponse string true (Resolved "ya29.token")))
    (fun _ => Resolved (Google.mkFetchResponse Google.UserInfo true (Resolved ann_profile)))
    (fun _ => Resolved "https://client.example/callback")
    (fun url => Resolved url).

(** The redirection that ends the login of Ann. *)
Definition ann_redirect : Google.Response :=
  Google.mkResponse 302 None (Some "https://client.example/callback") "".

(** The grant the callback asks for from a fetched profile. *)
Definition grant_for (oauthReqInfo : Google.AuthRequest) (accessToken : string)
    (userInfo : Google.UserInfo) : Google.Grant :=
  Google.mkGrant (Google.user_name userInfo)
    (mkProps (Google.user_email userInfo) (Google.user_name userInfo)
       (Google.user_email userInfo) accessToken)
    oauthReqInfo (Google.scope oauthReqInfo) (Google.user_id userInfo).

(** A word being read by the scan: not empty, of word characters. *)
Definition word_state (st : TagScan) : Prop :=
  match st with
  | TagWord w => w <> "" /\ all_chars Js.is_word w = true
  | _ => True
  end.

(** The characters an encoded string is made of. *)
Definition is_query_safe (c : ascii) : bool :=
  is_unreserved (Js.code c) || Ascii.eqb c "%" || Ascii.eqb c "+".

(* ===================================================================== *)
(** * Facts about strings *)
(* ===================================================================== *)

Lemma append_cons (c : ascii) (a b : string) :
  String c a +:+ b = String c (a +:+ b).
Proof. reflexivity. Qed.

Lemma append_nil (b : string) : "" +:+ b = b.
Proof. reflexivity. Qed.

Ltac push_append := rewrite ?append_cons, ?append_nil in *.

Lemma append_assoc (a b c : string) : (a +:+ b) +:+ c = a +:+ (b +:+ c).
Proof.
  induction a as [|x a IH]; push_append; [reflexivity | now rewrite IH].
Qed.

Lemma append_empty_r (a : string) : a +:+ "" = a.
Proof.
  induction a as [|x a IH]; push_append; [reflexivity | now rewrite IH].
Qed.

Lemma ascii_compare_refl (c : ascii) : Ascii.compare c c = Eq.
Proof. unfold Ascii.compare. apply N.compare_refl. Qed.

Lemma startsWith_append (s r : string) : Js.startsWith s (s +:+ r) = true.
Proof.
  induction s as [|c s IH]; push_append; simpl; [reflexivity|].
  now rewrite Ascii.eqb_refl.
Qed.

Lemma startsWith_split (s t : string) :
  Js.startsWith s t = true -> exists r, t = s +:+ r.
Proof.
  revert t. induction s as [|c s IH]; intros t H.
  - exists t. reflexivity.
  - destruct t as [|d t]; simpl in H; [discriminate|].
    destruct (Ascii.eqb c d) eqn:E; [|discriminate].
    apply Ascii.eqb_eq in E. subst d.
    destruct (IH _ H) as [r ->]. exists r. reflexivity.
Qed.

Lemma includes_here (t s : string) :
  Js.startsWith s t = true -> Js.includes t s = true.
Proof.
  destruct t as [|c t]; simpl; intros H; [exact H|].
  destruct s as [|d s]; [reflexivity|]. simpl in *. now rewrite H.
Qed.

Lemma includes_append (a s b : string) : Js.includes (a +:+ s +:+ b) s = true.
Proof.
  induction a as [|c a IH]; push_append.
  - apply includes_here. apply startsWith_append.
  - cbn [Js.includes]. rewrite IH. apply orb_true_r.
Qed.

Lemma includes_split (t s : string) :
  Js.includes t s = true -> exists a b, t = a +:+ s +:+ b.
Proof.
  induction t as [|c t IH]; cbn [Js.includes]; intros H.
  - destruct s; [|discriminate]. exists "", "". reflexivity.
  - apply orb_true_iff in H as [H|H].
    + apply startsWith_split in H as [r Hr]. exists "", r. exact Hr.
    + destruct (IH H) as (a & b & ->). exists (String c a), b. reflexivity.
Qed.

(** A string lies in the range from [s] to [s] followed by [z] only if it
    starts with [s]. *)
Lemma range_startsWith (s p : string) :
  Js.str_le s p = true -> Js.str_lt p (s +:+ "z") = true ->
  Js.startsWith s p = true.
Proof.
  unfold Js.str_le, Js.str_lt, String.leb, String.ltb.
  revert p. induction s as [|c s IH]; intros p Hle Hlt; [reflexivity|].
  push_append. destruct p as [|d p]; simpl in *; [discriminate|].
  rewrite (Ascii.compare_antisym d c) in Hlt.
  destruct (Ascii.compare c d) eqn:E; simpl in *; try discriminate.
  apply Ascii.compare_eq_iff in E. subst d. rewrite Ascii.eqb_refl.
  apply IH; assumption.
Qed.

Lemma str_le_append (s r : string) : Js.str_le s (s +:+ r) = true.
Proof.
  unfold Js.str_le, String.leb.
  induction s as [|c s IH]; push_append; simpl.
  - destruct r; reflexivity.
  - rewrite ascii_compare_refl. exact IH.
Qed.

Lemma str_lt_append_z (s r : string) :
  sorts_below_z r = true -> Js.str_lt (s +:+ r) (s +:+ "z") = true.
Proof.
  unfold Js.str_lt, String.ltb. intros Hr.
  induction s as [|c s IH]; push_append; simpl.
  - destruct r as [|d r]; [reflexivity|]. simpl in *.
    unfold Ascii.compare, Js.code in *.
    apply N.ltb_lt in Hr.
    change (N_of_ascii "z") with 122%N.
    apply N.compare_lt_iff in Hr. now rewrite Hr.
  - rewrite ascii_compare_refl. exact IH.
Qed.

(** Two slash-free names that are both followed by a [/] at the start of
    one path are the same name. *)
Lemma same_folder_same_user (u1 u2 p : string) :
  no_slash u1 = true -> no_slash u2 = true ->
  Js.startsWith (u1 +:+ "/") p = true -> Js.startsWith (u2 +:+ "/") p = true ->
  u1 = u2.
Proof.
  revert u2 p. induction u1 as [|c u1 IH]; intros u2 p N1 N2 H1 H2; push_append.
  - destruct u2 as [|d u2]; [reflexivity|]. push_append.
    destruct p as [|e p]; cbn [Js.startsWith no_slash] in *; [discriminate|].
    destruct (Ascii.eqb "/" e) eqn:E1; [|discriminate].
    apply Ascii.eqb_eq in E1. subst e.
    destruct (Ascii.eqb d "/") eqn:E2; cbn in N2; discriminate.
  - destruct p as [|e p]; cbn [Js.startsWith no_slash] in *; [discriminate|].
    destruct (Ascii.eqb c e) eqn:E1; [|discriminate].
    apply Ascii.eqb_eq in E1. subst e.
    destruct (Ascii.eqb c "/") eqn:Ec; cbn [negb andb] in N1; [discriminate|].
    destruct u2 as [|d u2]; push_append; cbn [Js.startsWith no_slash] in *.
    + rewrite Ascii.eqb_sym in Ec. rewrite Ec in H2. discriminate.
    + destruct (Ascii.eqb d c) eqn:E2; [|discriminate].
      apply Ascii.eqb_eq in E2. subst d.
      rewrite Ec in N2. cbn [negb andb] in N2.
      f_equal. eapply IH; eassumption.
Qed.

Lemma hex_below_z (c : ascii) : is_hex c = true -> (Js.code c <? 122)%N = true.
Proof.
  unfold is_hex. intros H. apply N.ltb_lt.
  repeat (apply orb_true_iff in H as [H|H]);
    apply andb_true_iff in H as [_ H]; apply N.leb_le in H; lia.
Qed.

Lemma uuid_sorts_below_z (id : string) :
  is_uuid id = true -> sorts_below_z id = true.
Proof.
  destruct id as [|c id]; [reflexivity|].
  unfold is_uuid. cbn [hex_run sorts_below_z].
  destruct (is_hex c) eqn:E; [|discriminate].
  intros _. now apply hex_below_z.
Qed.

Lemma folder_match_unfold (user folder : string) :
  folder_match user folder =
  Js.str_le (user +:+ "/") folder && Js.str_lt folder (user +:+ "/z").
Proof.
  unfold folder_match, createUserFolderFilter. cbn [matches forallb].
  rewrite lookup_singleton_eq. cbn [cmp_holds]. now rewrite andb_true_r.
Qed.

Lemma folder_match_inside (user rest : string) :
  sorts_below_z rest = true ->
  folder_match user (user +:+ "/" +:+ rest) = true.
Proof.
  intros H. rewrite folder_match_unfold.
  rewrite <- !append_assoc.
  rewrite str_le_append.
  change "/z" with ("/" +:+ "z"). rewrite <- !append_assoc.
  now rewrite str_lt_append_z.
Qed.

(* ===================================================================== *)
(** * The tenant filter *)
(* ===================================================================== *)

(** C1.  For two distinct users, whose names are the e-mail addresses of
    their profiles and so contain no [/], the filter built for [u1]
    matches no folder key under [u2/]; it matches the note path
    [u1/<id>.md] of every note identifier, which is a UUID, and the
    sidecar path [u1/.metadata/<id>.json] of any identifier at all; and
    it matches the two folders [u1/] and [u1/.metadata/] themselves. *)
Theorem tenant_filter_isolation (u1 u2 id sidecar_id p : string) :
  u1 <> u2 ->
  no_slash u1 = true -> no_slash u2 = true ->
  Js.startsWith (getUserFolder u2) p = true ->
  is_uuid id = true ->
  folder_match u1 p = false
  /\ folder_match u1 (getNotePath u1 id) = true
  /\ folder_match u1 (getMetadataPath u1 sidecar_id) = true
  /\ folder_match u1 (getUserFolder u1) = true
  /\ folder_match u1 (getMetadataFolder u1) = true.
Proof.
  intros Hne N1 N2 Hp Hid. repeat split.
  - destruct (folder_match u1 p) eqn:E; [|reflexivity].
    rewrite folder_match_unfold in E. apply andb_true_iff in E as [Hle Hlt].
    change (u1 +:+ "/z") with (u1 +:+ "/" +:+ "z") in Hlt.
    rewrite <- append_assoc in Hlt.
    pose proof (range_startsWith _ _ Hle Hlt) as H1.
    exfalso. apply Hne. eapply same_folder_same_user; eassumption.
  - unfold getNotePath. apply folder_match_inside.
    apply uuid_sorts_below_z in Hid.
    destruct id; [reflexivity | exact Hid].
  - unfold getMetadataPath.
    change (u1 +:+ "/.metadata/" +:+ sidecar_id +:+ ".json")
      with (u1 +:+ "/" +:+ (".metadata/" +:+ sidecar_id +:+ ".json")).
    apply folder_match_inside. reflexivity.
  - unfold getUserFolder. rewrite <- (append_empty_r (u1 +:+ "/")).
    rewrite append_assoc. apply folder_match_inside. reflexivity.
  - unfold getMetadataFolder.
    change (u1 +:+ "/.metadata/") with (u1 +:+ "/" +:+ ".metadata/").
    apply folder_match_inside. reflexivity.
Qed.

Lemma tenant_filter_isolation_witness :
  folder_match "ann@example.com"
    (getNotePath "bob@example.com" "123e4567-e89b-42d3-a456-426614174000") = false
  /\ folder_match "ann@example.com"
       (getNotePath "ann@example.com" "123e4567-e89b-42d3-a456-426614174000") = true
  /\ folder_match "ann@example.com" (getMetadataPath "ann@example.com" "zed") = true
  /\ folder_match "ann@example.com" (getUserFolder "ann@example.com") = true
  /\ folder_match "ann@example.com" (getMetadataFolder "ann@example.com") = true.
Proof.
  apply (tenant_filter_isolation "ann@example.com" "bob@example.com"
           "123e4567-e89b-42d3-a456-426614174000" "zed"
           (getNotePath "bob@example.com" "123e4567-e89b-42d3-a456-426614174000")).
  - discriminate.
  - reflexivity.
  - reflexivity.
  - reflexivity.
  - reflexivity.
Defined.

(** The filter is a range on strings.  On strings that are no e-mail
    address or no UUID it takes in the folder of a user whose name
    continues the name of the first with a [/], and it leaves out a note
    path whose identifier starts with [z]. *)
Lemma folder_range_on_other_names :
  folder_match "team@example.com"
    (getNotePath "team@example.com/bob" "123e4567-e89b-42d3-a456-426614174000") = true
  /\ folder_match "team@example.com" (getUserFolder "team@example.com/bob") = true
  /\ folder_match "team@example.com" (getNotePath "team@example.com" "zed") = false.
Proof. repeat split. Qed.

(** C2.  [createUserFolderFilter(u)] is the AND of exactly two clauses,
    [folder >= u/] and [folder < u/z]: as a value, and in what it
    accepts. *)
Theorem createUserFolderFilter_two_clauses (u : string) :
  createUserFolderFilter u =
    And [ Cmp T_gte "folder" (u +:+ "/"); Cmp T_lt "folder" (u +:+ "/z") ]
  /\ (forall attrs : gmap string string,
        matches attrs (createUserFolderFilter u) =
        match attrs !! "folder" with
        | Some folder =>
            Js.str_le (u +:+ "/") folder && Js.str_lt folder (u +:+ "/z")
        | None => false
        end).
Proof.
  split; [reflexivity|].
  intros attrs. unfold createUserFolderFilter. cbn [matches forallb].
  destruct (attrs !! "folder") as [folder|]; cbn [cmp_holds].
  - now rewrite andb_true_r.
  - reflexivity.
Qed.

(* ===================================================================== *)
(** * Simple search *)
(* ===================================================================== *)

Lemma filterNoteResults_no_sidecar (results : list AutoRAGSearchResult) :
  Forall (fun r => names_sidecar r = false) (filterNoteResults results).
Proof.
  apply Forall_forall. intros r Hin.
  unfold filterNoteResults in Hin.
  apply list_elem_of_In, filter_In in Hin as [_ Hkeep].
  unfold names_sidecar. destruct (filename r) as [f|]; [|reflexivity].
  apply andb_true_iff in Hkeep as [_ Hkeep].
  now apply negb_true_iff in Hkeep.
Qed.

(** C3.  [search_notes_simple] always answers, and no entry of the
    [results] it answers with has a file name containing the segment
    [/.metadata/], whatever the search endpoint returned. *)
Theorem search_notes_simple_no_sidecar
    (JSON_stringify : JsVal -> string) (env : Env) (props : Props)
    (args : SearchArgs) (w : World) :
  exists resp w',
    search_notes_simple JSON_stringify env props args w = (Resolved resp, w')
    /\ Forall (fun r => names_sidecar r = false) (response_results resp).
Proof.
  unfold search_notes_simple, try_catch, bind, performAutoRAGSearch, AI_call, ret, throw.
  destruct (AI_search env _) as [[|object search_query response data]|e].
  - eexists _, _. split; [reflexivity|]. constructor.
  - eexists _, _. split; [reflexivity|].
    cbn [response_results]. apply filterNoteResults_no_sidecar.
  - eexists _, _. split; [reflexivity|]. constructor.
Qed.

(* ===================================================================== *)
(** * Deleting a note *)
(* ===================================================================== *)

(** When the primary object is absent, [delete_note] issues the [head]
    on it and nothing else, and answers with the not-found payload or,
    when the [head] itself rejects, with the failure payload. *)
Lemma delete_note_absent
    (JSON_parse : string -> option JsVal) (env : Env) (props : Props)
    (note_id : string) (w : World) :
  objects w !! getNotePath (email props) note_id = None ->
  delete_note JSON_parse env props note_id w =
    (Resolved
       match NOTES_rejects env (R2Head (getNotePath (email props) note_id)) with
       | None =>
           NoteNotFound note_id (getUserFolder (email props))
             ("No note found with ID: " +:+ note_id)
       | Some e =>
           DeletionFailed note_id (error_message e)
             ("Failed to delete note " +:+ note_id +:+ ": " +:+ error_message e)
       end,
     record_call (R2Head (getNotePath (email props) note_id)) w).
Proof.
  intros Habsent.
  unfold delete_note, try_catch, bind, NOTES_head, r2_call, getNotePath in *.
  destruct (NOTES_rejects env _) as [e|]; [reflexivity|].
  cbn [objects record_call]. rewrite Habsent. reflexivity.
Qed.

(** C4 (as amended).  When no primary object exists at [user/<id>.md],
    [delete_note] returns normally and performs no delete: the only call
    it issues is the [head] on that key, and the bucket is unchanged.
    When the [head] is served it returns the not-found payload; when the
    [head] itself rejects it returns the failure payload, with the error
    of the [head]. *)
Theorem delete_note_not_found
    (JSON_parse : string -> option JsVal) (env : Env) (props : Props)
    (note_id : string) (w : World) :
  objects w !! getNotePath (email props) note_id = None ->
  exists resp w',
    delete_note JSON_parse env props note_id w = (Resolved resp, w')
    /\ match NOTES_rejects env (R2Head (getNotePath (email props) note_id)) with
       | None =>
           resp = NoteNotFound note_id (getUserFolder (email props))
                    ("No note found with ID: " +:+ note_id)
           /\ error_field resp = Some "Note not found"
       | Some e =>
           resp = DeletionFailed note_id (error_message e)
                    ("Failed to delete note " +:+ note_id +:+ ": " +:+ error_message e)
           /\ error_field resp = Some "Deletion failed"
       end
    /\ success resp = false
    /\ calls w' = calls w ++ [R2Head (getNotePath (email props) note_id)]
    /\ existsb is_delete (calls w') = existsb is_delete (calls w)
    /\ objects w' = objects w.
Proof.
  intros Habsent.
  rewrite (delete_note_absent _ _ _ _ _ Habsent).
  eexists _, _. split; [reflexivity|].
  split; [destruct (NOTES_rejects env _); split; reflexivity|].
  split; [destruct (NOTES_rejects env _); reflexivity|].
  repeat split.
  cbn [calls record_call]. rewrite existsb_app. cbn. now rewrite orb_false_r.
Qed.

Lemma delete_repeatedly_absent
    (JSON_parse : string -> option JsVal) (env : Env) (props : Props)
    (note_id : string) (n : nat) (w : World) :
  objects w !! getNotePath (email props) note_id = None ->
  objects (delete_repeatedly JSON_parse env props note_id n w) = objects w.
Proof.
  revert w. induction n as [|n IH]; intros w Habsent; [reflexivity|].
  cbn [delete_repeatedly].
  rewrite (delete_note_absent _ _ _ _ _ Habsent). cbn [snd].
  rewrite IH; [reflexivity | exact Habsent].
Qed.

(** C10.  With the primary object absent, a call of [delete_note] issues
    exactly one call on the bucket, the [head] on [user/<id>.md], and no
    delete, whether or not that [head] is served; the objects of the
    bucket are the same afterwards, so a sidecar at
    [user/.metadata/<id>.json] is as it was, after one call and after any
    number of calls for that identifier. *)
Theorem delete_note_leaves_orphan_sidecar
    (JSON_parse : string -> option JsVal) (env : Env) (props : Props)
    (note_id : string) (w : World) (n : nat) :
  objects w !! getNotePath (email props) note_id = None ->
  let w' := snd (delete_note JSON_parse env props note_id w) in
  calls w' = calls w ++ [R2Head (getNotePath (email props) note_id)]
  /\ objects w' = objects w
  /\ objects w' !! getMetadataPath (email props) note_id
     = objects w !! getMetadataPath (email props) note_id
  /\ objects (delete_repeatedly JSON_parse env props note_id n w)
       !! getMetadataPath (email props) note_id
     = objects w !! getMetadataPath (email props) note_id.
Proof.
  intros Habsent w'. subst w'.
  rewrite (delete_note_absent _ _ _ _ _ Habsent). cbn [snd].
  repeat split.
  now rewrite delete_repeatedly_absent.
Qed.

Lemma delete_note_not_found_witness :
  exists resp w',
    delete_note (fun _ => None) serving_env ann sample_id orphan_world
      = (Resolved resp, w')
    /\ (resp = NoteNotFound sample_id (getUserFolder (email ann))
                 ("No note found with ID: " +:+ sample_id)
        /\ error_field resp = Some "Note not found")
    /\ success resp = false
    /\ calls w' = calls orphan_world ++ [R2Head (getNotePath (email ann) sample_id)]
    /\ existsb is_delete (calls w') = existsb is_delete (calls orphan_world)
    /\ objects w' = objects orphan_world.
Proof.
  apply (delete_note_not_found (fun _ => None) serving_env ann sample_id orphan_world).
  reflexivity.
Defined.

(** C4 as stated fails.  The note is absent and the [head] on it
    rejects: [delete_note] answers with the failure payload, not with
    the not-found payload. *)
Lemma delete_note_head_fails_counterexample :
  objects orphan_world !! getNotePath (email ann) sample_id = None
  /\ fst (delete_note (fun _ => None) failing_env ann sample_id orphan_world)
     = Resolved
         (DeletionFailed sample_id "bucket unavailable"
            ("Failed to delete note " +:+ sample_id +:+ ": bucket unavailable"))
  /\ error_field
       (DeletionFailed sample_id "bucket unavailable"
          ("Failed to delete note " +:+ sample_id +:+ ": bucket unavailable"))
     = Some "Deletion failed".
Proof. repeat split. Qed.

Lemma delete_note_leaves_orphan_sidecar_witness :
  let w' := snd (delete_note (fun _ => None) serving_env ann sample_id orphan_world) in
  calls w' = calls orphan_world ++ [R2Head (getNotePath (email ann) sample_id)]
  /\ objects w' = objects orphan_world
  /\ objects w' !! getMetadataPath (email ann) sample_id
     = objects orphan_world !! getMetadataPath (email ann) sample_id
  /\ objects (delete_repeatedly (fun _ => None) serving_env ann sample_id 3 orphan_world)
       !! getMetadataPath (email ann) sample_id
     = objects orphan_world !! getMetadataPath (email ann) sample_id.
Proof.
  apply (delete_note_leaves_orphan_sidecar (fun _ => None) serving_env ann
           sample_id orphan_world 3).
  reflexivity.
Defined.

(* ===================================================================== *)
(** * Creating a note *)
(* ===================================================================== *)

Lemma createCustomMetadata_loop (entries : list (string * JsVal))
    (acc : gmap string string) (k : string) :
  NoDup (entries.*1) ->
  foldl (fun customMetadata '(key, value) =>
           if negb (nullish value) then
             <[ key := match value with JStr s => s | _ => js_String value end ]>
               customMetadata
           else customMetadata)
        acc entries !! k
  = match (list_to_map entries : gmap string JsVal) !! k with
    | Some v => if nullish v then acc !! k else Some (stored_string v)
    | None => acc !! k
    end.
Proof.
  revert acc. induction entries as [|[k0 v0] entries IH]; intros acc Hnd.
  - cbn. now rewrite lookup_empty.
  - cbn [fmap list_fmap fst] in Hnd. apply NoDup_cons in Hnd as [Hfresh Hnd].
    cbn [foldl]. rewrite (IH _ Hnd). rewrite list_to_map_cons.
    destruct (decide (k = k0)) as [->|Hne].
    + rewrite lookup_insert_eq.
      apply not_elem_of_list_to_map_1 in Hfresh as ->.
      destruct (nullish v0); cbn [negb]; [reflexivity|].
      now rewrite lookup_insert_eq.
    + rewrite (lookup_insert_ne _ k0 k) by congruence.
      assert ((if negb (nullish v0)
               then <[k0:=match v0 with JStr s => s | _ => js_String v0 end]> acc
               else acc) !! k = acc !! k) as ->.
      { destruct (nullish v0); cbn [negb]; [reflexivity|].
        now rewrite lookup_insert_ne by congruence. }
      reflexivity.
Qed.

(** Each entry of the result comes from an entry of the argument that is
    neither null nor undefined, as the string it is or as [String] of
    it. *)
Lemma createCustomMetadata_lookup (metadata : gmap string JsVal) (k : string) :
  createCustomMetadata metadata !! k =
  match metadata !! k with
  | Some v => if nullish v then None else Some (stored_string v)
  | None => None
  end.
Proof.
  unfold createCustomMetadata, Object_entries.
  rewrite createCustomMetadata_loop by apply NoDup_fst_map_to_list.
  rewrite list_to_map_to_list, lookup_empty. reflexivity.
Qed.

Lemma endsWith_append (a t : string) : endsWith (a +:+ t) t = true.
Proof.
  induction a as [|c a IH]; push_append.
  - destruct t; cbn [endsWith]; now rewrite String.eqb_refl.
  - cbn [endsWith]. rewrite IH. apply orb_true_r.
Qed.

Lemma note_path_shape (user id : string) :
  Js.startsWith (getUserFolder user) (getNotePath user id) = true
  /\ endsWith (getNotePath user id) ".md" = true.
Proof.
  unfold getUserFolder, getNotePath. split.
  - rewrite <- append_assoc. apply startsWith_append.
  - rewrite <- !append_assoc. apply endsWith_append.
Qed.

Lemma metadata_path_shape (user id : string) :
  Js.startsWith (getUserFolder user) (getMetadataPath user id) = true
  /\ endsWith (getMetadataPath user id) ".json" = true.
Proof.
  unfold getUserFolder, getMetadataPath. split.
  - change "/.metadata/" with ("/" +:+ ".metadata/").
    rewrite <- !append_assoc. rewrite !append_assoc. rewrite <- append_assoc.
    apply startsWith_append.
  - rewrite <- !append_assoc. apply endsWith_append.
Qed.

Lemma hex_lower_is_hex (n : Z) : is_hex (hex_lower n) = true.
Proof.
  unfold hex_lower. cbv zeta.
  assert (Hd : 0 <= Z.land n 15 < 16).
  { change 15 with (Z.ones 4). rewrite Z.land_ones by lia.
    apply Z.mod_pos_bound. lia. }
  revert Hd. generalize (Z.land n 15). intros d Hd.
  assert (Hk : d = Z.of_nat (Z.to_nat d)) by lia.
  assert (Hlt : (Z.to_nat d < 16)%nat) by lia.
  rewrite Hk. clear Hk Hd. revert Hlt. generalize (Z.to_nat d). intros k Hlt.
  do 16 (destruct k as [|k]; [reflexivity|]). lia.
Qed.

(** What [crypto.randomUUID()] gives has the shape of a UUID, whatever
    the random bytes. *)
Lemma randomUUID_is_uuid (random : nat -> Z) : is_uuid (randomUUID random) = true.
Proof.
  unfold randomUUID, hex_bytes, hex_byte. cbv zeta.
  cbn [List.map List.fold_right].
  repeat (rewrite ?append_cons, ?append_nil).
  unfold is_uuid, dash_then.
  cbn [hex_run]. rewrite !hex_lower_is_hex. reflexivity.
Qed.

(** C5 (as amended).  [create_note] with the text [Buy milk] and the
    type [task], for any caller and any random bytes.  The identifier
    drawn is a UUID.  When both writes are served, the response carries
    that UUID, a title made from the text ([Task: Buy milk]), a word
    count of 2, and the two storage paths [user/<id>.md] and
    [user/.metadata/<id>.json], which lie under the folder of the caller
    and end in [.md] and [.json].  When the write of the note or the
    write of the sidecar rejects, the call rejects with that error and
    there is no response; a rejected write of the note is the only call
    made and leaves the bucket as it was. *)
Theorem create_note_buy_milk
    (JSON_stringify : JsVal -> string) (toISOString : Z -> string)
    (env : Env) (props : Props) (random : nat -> Z) (timestamp : Z) (w : World) :
  let id := randomUUID random in
  let run :=
    create_note JSON_stringify toISOString env props id timestamp
      (mkCreateArgs "Buy milk" None (Some task)) w in
  is_uuid id = true
  /\ exists primary sidecar,
       body primary = "Buy milk"
       /\ match NOTES_rejects env (R2Put (getNotePath (email props) id) primary),
                NOTES_rejects env (R2Put (getMetadataPath (email props) id) sidecar) with
          | Some e, _ =>
              run = (Rejected e,
                     record_call (R2Put (getNotePath (email props) id) primary) w)
          | None, Some e => fst run = Rejected e
          | None, None =>
              exists resp,
                fst run = Resolved resp
                /\ resp_id resp = id
                /\ is_uuid (resp_id resp) = true
                /\ title (resp_metadata resp) = generateTitle "Buy milk" (Some task)
                /\ title (resp_metadata resp) = "Task: Buy milk"
                /\ word_count (resp_metadata resp) = 2
                /\ storage_note resp = getNotePath (email props) id
                /\ storage_sidecar resp = getMetadataPath (email props) id
                /\ Js.startsWith (getUserFolder (email props)) (storage_note resp) = true
                /\ endsWith (storage_note resp) ".md" = true
                /\ Js.startsWith (getUserFolder (email props)) (storage_sidecar resp) = true
                /\ endsWith (storage_sidecar resp) ".json" = true
          end.
Proof.
  intros id run. split; [apply randomUUID_is_uuid|].
  subst run. unfold create_note, bind, NOTES_put, r2_call, ret. cbv zeta.
  fold (getNotePath (email props) id). fold (getMetadataPath (email props) id).
  match goal with
  | |- context [NOTES_rejects env (R2Put (getNotePath (email props) id) ?v1)] =>
      match goal with
      | |- context [NOTES_rejects env (R2Put (getMetadataPath (email props) id) ?v2)] =>
          exists v1, v2
      end
  end.
  split; [reflexivity|].
  destruct (NOTES_rejects env (R2Put (getNotePath (email props) id) _)) as [e|];
    [reflexivity|].
  cbn [objects calls record_call].
  destruct (NOTES_rejects env (R2Put (getMetadataPath (email props) id) _)) as [e|];
    [reflexivity|].
  eexists. split; [reflexivity|].
  cbn [resp_id resp_metadata storage_note storage_sidecar title word_count arg_text
       arg_title arg_note_type].
  repeat split; try reflexivity; try apply randomUUID_is_uuid;
    try apply note_path_shape; apply metadata_path_shape.
Qed.

Lemma create_note_buy_milk_witness :
  is_uuid (randomUUID sample_random) = true
  /\ exists primary sidecar : R2Object,
       body primary = "Buy milk"
       /\ exists resp,
            fst (create_note (fun _ => "{}") (fun _ => "2024-10-04T00:00:00.000Z")
                   serving_env ann (randomUUID sample_random) 1728000000000
                   (mkCreateArgs "Buy milk" None (Some task)) orphan_world)
              = Resolved resp
            /\ resp_id resp = randomUUID sample_random
            /\ is_uuid (resp_id resp) = true
            /\ title (resp_metadata resp) = generateTitle "Buy milk" (Some task)
            /\ title (resp_metadata resp) = "Task: Buy milk"
            /\ word_count (resp_metadata resp) = 2
            /\ storage_note resp = getNotePath (email ann) (randomUUID sample_random)
            /\ storage_sidecar resp = getMetadataPath (email ann) (randomUUID sample_random)
            /\ Js.startsWith (getUserFolder (email ann)) (storage_note resp) = true
            /\ endsWith (storage_note resp) ".md" = true
            /\ Js.startsWith (getUserFolder (email ann)) (storage_sidecar resp) = true
            /\ endsWith (storage_sidecar resp) ".json" = true.
Proof.
  exact (create_note_buy_milk (fun _ => "{}") (fun _ => "2024-10-04T00:00:00.000Z")
           serving_env ann sample_random 1728000000000 orphan_world).
Defined.

(** C5 as stated fails.  The bucket refuses the write of the note: the
    call rejects, there is no response, and nothing is stored. *)
Lemma create_note_write_fails_counterexample :
  randomUUID sample_random = sample_id
  /\ fst (create_note (fun _ => "{}") (fun _ => "2024-10-04T00:00:00.000Z")
            failing_env ann (randomUUID sample_random) 1728000000000
            (mkCreateArgs "Buy milk" None (Some task)) empty_world)
     = Rejected (ErrorObj "bucket unavailable")
  /\ objects
       (snd (create_note (fun _ => "{}") (fun _ => "2024-10-04T00:00:00.000Z")
               failing_env ann (randomUUID sample_random) 1728000000000
               (mkCreateArgs "Buy milk" None (Some task)) empty_world))
     = objects empty_world.
Proof. repeat split. Qed.

Lemma note_custom_fields_stored (m : NoteMetadata) :
  createCustomMetadata (note_custom_fields m) =
  list_to_map
    [ ("id", id m);
      ("created_at", created_at m);
      ("created_timestamp", Js.num_toString (created_timestamp m));
      ("title", title m);
      ("note_type", note_type_name (note_type m));
      ("author", author m);
      ("char_count", Js.num_toString (char_count m));
      ("word_count", Js.num_toString (word_count m));
      ("version", Js.num_toString (version m));
      ("context", note_type_name (note_type m) +:+ " note by " +:+ author m
           +:+ ": " +:+ title m +:+ ". Created: " +:+ created_at m +:+ ".") ].
Proof. vm_compute. reflexivity. Qed.

(** C9.  The first call of [create_note] is the write of the primary
    object, and the custom metadata attached to it is
    [createCustomMetadata] of the note fields: a map of strings, each
    field being the string it was or the decimal rendering of its number.
    In general an entry of what [createCustomMetadata] returns is the
    string made from an entry of its argument that is neither null nor
    undefined, and an entry that is null or undefined has no counterpart
    in the result. *)
Theorem create_note_custom_metadata
    (JSON_stringify : JsVal -> string) (toISOString : Z -> string)
    (env : Env) (props : Props) (uuid : string) (timestamp : Z)
    (args : CreateArgs) (w : World)
    (fields : gmap string JsVal) (k : string) :
  (exists m value rest,
     calls (snd (create_note JSON_stringify toISOString env props uuid timestamp args w))
       = calls w ++ R2Put (getNotePath (email props) uuid) value :: rest
     /\ body value = arg_text args
     /\ customMetadata value = Some (createCustomMetadata (note_custom_fields m))
     /\ id m = uuid /\ created_timestamp m = timestamp /\ author m = email props
     /\ created_at m = toISOString timestamp /\ version m = 1
     /\ char_count m = Z.of_nat (String.length (arg_text args))
     /\ createCustomMetadata (note_custom_fields m) =
        list_to_map
          [ ("id", uuid);
            ("created_at", toISOString timestamp);
            ("created_timestamp", Js.num_toString timestamp);
            ("title", title m);
            ("note_type", note_type_name (note_type m));
            ("author", email props);
            ("char_count", Js.num_toString (Z.of_nat (String.length (arg_text args))));
            ("word_count", Js.num_toString (word_count m));
            ("version", "1");
            ("context", note_type_name (note_type m) +:+ " note by " +:+ email props
               +:+ ": " +:+ title m +:+ ". Created: " +:+ toISOString timestamp +:+ ".") ])
  /\ createCustomMetadata fields !! k =
     match fields !! k with
     | Some v => if nullish v then None else Some (stored_string v)
     | None => None
     end.
Proof.
  split; [|apply createCustomMetadata_lookup].
  unfold create_note, bind, NOTES_put, r2_call, ret.
  match goal with
  | |- context [createCustomMetadata (spread (metadata_fields ?m) _ _)] =>
      exists m
  end.
  match goal with
  | |- context [NOTES_rejects env (R2Put (email props +:+ "/" +:+ uuid +:+ ".md") ?v)] =>
      exists v
  end.
  match goal with
  | |- context [createCustomMetadata (note_custom_fields ?m)] => set (md := m)
  end.
  assert (Hstored : createCustomMetadata (note_custom_fields md) =
        list_to_map
          [ ("id", uuid);
            ("created_at", toISOString timestamp);
            ("created_timestamp", Js.num_toString timestamp);
            ("title", title md);
            ("note_type", note_type_name (note_type md));
            ("author", email props);
            ("char_count", Js.num_toString (Z.of_nat (String.length (arg_text args))));
            ("word_count", Js.num_toString (word_count md));
            ("version", "1");
            ("context", note_type_name (note_type md) +:+ " note by " +:+ email props
               +:+ ": " +:+ title md +:+ ". Created: " +:+ toISOString timestamp +:+ ".") ]).
  { rewrite (note_custom_fields_stored md). reflexivity. }
  destruct (NOTES_rejects env (R2Put (email props +:+ "/" +:+ uuid +:+ ".md") _)) as [e|].
  - exists []. cbn [snd calls record_call].
    repeat (split; [reflexivity|]). exact Hstored.
  - destruct (NOTES_rejects env (R2Put (email props +:+ "/.metadata/" +:+ uuid +:+ ".json") _))
      as [e|]; eexists; cbn [snd calls record_call]; rewrite <- app_assoc;
      (split; [reflexivity|]); repeat (split; [reflexivity|]);
      exact Hstored.
Qed.

(* ===================================================================== *)
(** * Advanced search: the filter sent *)
(* ===================================================================== *)

Lemma extends_refl (w : World) : extends w w.
Proof. exists []. now rewrite app_nil_r. Qed.

Lemma extends_trans (w1 w2 w3 : World) :
  extends w1 w2 -> extends w2 w3 -> extends w1 w3.
Proof.
  intros [r1 H1] [r2 H2]. exists (r1 ++ r2). now rewrite H2, H1, app_assoc.
Qed.

Lemma extends_record (c : Call) (w : World) : extends w (record_call c w).
Proof. now exists [c]. Qed.

Lemma NOTES_get_extends (env : Env) (key : string) (w : World) :
  extends w (snd (NOTES_get env key w)).
Proof.
  unfold NOTES_get, r2_call. destruct (NOTES_rejects env _); apply extends_record.
Qed.

Lemma NOTES_list_extends (env : Env) (prefix : string) (limit : Z) (w : World) :
  extends w (snd (NOTES_list env prefix limit w)).
Proof.
  unfold NOTES_list, r2_call. destruct (NOTES_rejects env _); apply extends_record.
Qed.

Lemma enrich_one_resolves (JSON_parse : string -> option JsVal) (env : Env)
    (user : string) (result : AutoRAGSearchResult) (w : World) :
  exists r w',
    enrich_one JSON_parse env user result w = (Resolved r, w') /\ extends w w'.
Proof.
  unfold enrich_one, try_catch, bind, ret, throw.
  destruct (filename result ≫= match_note_id) as [noteId|].
  - pose proof (NOTES_get_extends env (user +:+ "/.metadata/" +:+ noteId +:+ ".json") w)
      as Hext.
    destruct (NOTES_get env _ w) as [[[obj|]|e] w1]; cbn [snd] in Hext.
    + destruct (JSON_parse (body obj)); eauto.
    + eauto.
    + eauto.
  - eexists _, _. split; [reflexivity | apply extends_refl].
Qed.

Lemma enrichResultsWithMetadata_resolves (JSON_parse : string -> option JsVal)
    (env : Env) (user : string) (results : list AutoRAGSearchResult) (w : World) :
  exists rs w',
    enrichResultsWithMetadata JSON_parse env results user w = (Resolved rs, w')
    /\ extends w w'.
Proof.
  unfold enrichResultsWithMetadata. revert w.
  induction results as [|r results IH]; intros w.
  - eexists _, _. split; [reflexivity | apply extends_refl].
  - cbn [mapM]. unfold bind at 1.
    destruct (enrich_one_resolves JSON_parse env user r w) as (r' & w1 & -> & H1).
    unfold bind at 1.
    destruct (IH w1) as (rs & w2 & -> & H2).
    eexists _, _. split; [reflexivity | eapply extends_trans; eassumption].
Qed.

Lemma advanced_fallback_extends (env : Env) (props : Props) (args : SearchArgs)
    (e : Thrown) (w : World) :
  extends w (snd (advanced_fallback env props args e w)).
Proof.
  unfold advanced_fallback, bind.
  pose proof (NOTES_list_extends env (email props +:+ "/") 1000 w) as Hext.
  destruct (NOTES_list env _ _ w) as [[listed|e'] w1]; exact Hext.
Qed.

(** The first call of [search_notes_advanced] is the search, with the
    filter built from the day offsets. *)
Lemma search_notes_advanced_first_call
    (JSON_parse : string -> option JsVal) (env : Env) (props : Props)
    (now : Z) (args : SearchArgs) (w : World) :
  exists rest,
    calls (snd (search_notes_advanced JSON_parse env props now args w)) =
    calls w ++
    AISearch (search_params (arg_query args) (arg_limit args) 10
                (createAdvancedFilter (email props)
                   (days_to_timestamp now (arg_since_days args))
                   (days_to_timestamp now (arg_until_days args)))) :: rest.
Proof.
  unfold search_notes_advanced, try_catch.
  unfold bind at 1. unfold performAutoRAGSearch. unfold bind at 1.
  unfold AI_call, throw, ret.
  set (params := search_params _ _ _ _).
  set (w1 := record_call (AISearch params) w).
  assert (Hgoal : forall w', extends w1 w' ->
            exists rest, calls w' = calls w ++ AISearch params :: rest).
  { intros w' [rest Hrest]. exists rest. rewrite Hrest. unfold w1. cbn [calls record_call].
    now rewrite <- app_assoc. }
  destruct (AI_search env params) as [[|object search_query response data]|e].
  - apply Hgoal, advanced_fallback_extends.
  - destruct (enrichResultsWithMetadata_resolves JSON_parse env (email props)
                (filterNoteResults (default [] data)) w1) as (rs & w2 & Hrun & Hext).
    cbn [page_data]. unfold bind. rewrite Hrun. cbn [snd]. apply Hgoal, Hext.
  - apply Hgoal, advanced_fallback_extends.
Qed.

(** [ai_search_notes] issues one call, the search, with the filter built
    from the day offsets. *)
Lemma ai_search_notes_call
    (JSON_stringify : JsVal -> string) (env : Env) (props : Props)
    (now : Z) (args : SearchArgs) (w : World) :
  calls (snd (ai_search_notes JSON_stringify env props now args w)) =
  calls w ++
  [ AIAiSearch (search_params (arg_query args) (arg_limit args) 5
                  (createAdvancedFilter (email props)
                     (days_to_timestamp now (arg_since_days args))
                     (days_to_timestamp now (arg_until_days args)))) ].
Proof.
  unfold ai_search_notes, try_catch, bind, performAutoRAGAISearch, AI_call, throw, ret.
  destruct (AI_aiSearch env _) as [[|object search_query response data]|e]; reflexivity.
Qed.

(** Away from the zero timestamp the filter built from the day offsets
    is the expected one: the two folder clauses, then a clause for each
    day offset given. *)
Lemma advanced_filter_expected (user : string) (now : Z)
    (since_days until_days : option Z) :
  (forall d, since_days = Some d -> d <> 0 /\ now - d * 86400000 <> 0) ->
  (forall d, until_days = Some d -> d <> 0 /\ now - d * 86400000 <> 0) ->
  createAdvancedFilter user (days_to_timestamp now since_days)
    (days_to_timestamp now until_days)
  = expected_filter user now since_days until_days.
Proof.
  assert (Hclause : forall t days,
            (forall d, days = Some d -> d <> 0 /\ now - d * 86400000 <> 0) ->
            timestamp_clause t (days_to_timestamp now days) = day_clause t now days).
  { intros t [d|] H; [|reflexivity].
    destruct (H d eq_refl) as [Hd Hts].
    unfold days_to_timestamp, timestamp_clause, day_clause, truthy_num.
    apply Z.eqb_neq in Hd. rewrite Hd. cbn [negb].
    replace (now - d * 24 * 60 * 60 * 1000) with (now - d * 86400000) by lia.
    apply Z.eqb_neq in Hts. now rewrite Hts. }
  intros Hs Hu. unfold createAdvancedFilter, expected_filter.
  rewrite (Hclause _ _ Hs), (Hclause _ _ Hu). now rewrite <- app_assoc.
Qed.

(** C6, at the input where it fails.  A search for the last 20000 days
    made at 2024-10-04T00:00:00.000Z, which is 20000 days after the
    epoch: the since timestamp is 0, the truthiness test of
    [createAdvancedFilter] takes it for an absent one, and the filter
    sent by [search_notes_advanced] and by [ai_search_notes] is the
    folder filter alone, without the clause [timestamp >= 0] that the
    day offset stands for. *)
Lemma advanced_filter_drops_zero_timestamp :
  let args := mkSearchArgs "milk" (Some 10) (Some 20000) None in
  filter_sent
    (calls (snd (search_notes_advanced (fun _ => None) serving_env ann
                   1728000000000 args empty_world)))
    = Some (createUserFolderFilter "ann@example.com")
  /\ filter_sent
       (calls (snd (ai_search_notes (fun _ => "") serving_env ann
                      1728000000000 args empty_world)))
     = Some (createUserFolderFilter "ann@example.com")
  /\ expected_filter "ann@example.com" 1728000000000 (Some 20000) None
     = And [ Cmp T_gte "folder" "ann@example.com/";
             Cmp T_lt "folder" "ann@example.com/z";
             Cmp T_gte "timestamp" "0" ].
Proof. repeat split. Qed.

(* ===================================================================== *)
(** * The OAuth callback *)
(* ===================================================================== *)

Lemma includes_append_l (a t s : string) :
  Js.includes t s = true -> Js.includes (a +:+ t) s = true.
Proof.
  intros H. induction a as [|c a IH]; push_append; [exact H|].
  cbn [Js.includes]. rewrite IH. apply orb_true_r.
Qed.

Lemma includes_append_r (t b s : string) :
  Js.includes t s = true -> Js.includes (t +:+ b) s = true.
Proof.
  intros H. apply includes_split in H as (x & y & ->).
  rewrite !append_assoc. apply includes_append.
Qed.

(** The page of the denial shows the address it is given. *)
Lemma access_denied_page_shows_email (domain email : string) :
  Js.includes (Google.access_denied_page domain email) email = true.
Proof.
  unfold Google.access_denied_page.
  do 14 apply includes_append_l. apply includes_append_r.
  unfold Google.html_line.
  apply includes_append_l, includes_append_r.
  do 5 apply includes_append_l.
  apply includes_here, startsWith_append.
Qed.

Lemma domain_rejected_mismatch (cfg : Google.Config) (d : string) (hd : option string) :
  Google.GOOGLE_HOSTED_DOMAIN cfg = Some d -> d <> "" -> hd <> Some d ->
  Google.domain_rejected cfg hd = true.
Proof.
  intros Hcfg Hd Hne. unfold Google.domain_rejected. rewrite Hcfg.
  cbn [truthy_str]. apply String.eqb_neq in Hd. rewrite Hd. cbn [negb andb].
  rewrite (bool_decide_eq_false_2 _ Hne). apply orb_true_r.
Qed.

(** C7.  With a hosted domain configured, a login whose fetched profile
    has no hosted-domain claim, or one that differs from the configured
    domain, is answered with status 403 and a page containing the e-mail
    address of the profile, and [completeAuthorization] is not called: no
    grant is issued. *)
Theorem callback_domain_denied
    (cfg : Google.Config) (up : Google.Upstream) (req : Google.Request)
    (oauthReqInfo : Google.AuthRequest) (accessToken : string)
    (userInfo : Google.UserInfo) (d : string) :
  Google.callback_fetch cfg up req
    = Resolved (Google.Profile oauthReqInfo accessToken userInfo) ->
  Google.GOOGLE_HOSTED_DOMAIN cfg = Some d ->
  d <> "" ->
  Google.hd userInfo <> Some d ->
  exists page,
    Google.callback cfg up req
      = (Resolved (Google.mkResponse 403 (Some "text/html") None page), [])
    /\ Js.includes page (Google.user_email userInfo) = true.
Proof.
  intros Hfetch Hcfg Hd Hne.
  unfold Google.callback. rewrite Hfetch. unfold Google.callback_finish.
  rewrite (domain_rejected_mismatch cfg d _ Hcfg Hd Hne).
  eexists. split; [reflexivity|]. apply access_denied_page_shows_email.
Qed.

Lemma callback_domain_denied_witness :
  exists page,
    Google.callback restricted_config eve_upstream eve_request
      = (Resolved (Google.mkResponse 403 (Some "text/html") None page), [])
    /\ Js.includes page (Google.user_email eve) = true.
Proof.
  apply (callback_domain_denied restricted_config eve_upstream eve_request
           (Google.mkAuthRequest (Some "mcp-client") JNull) "ya29.token" eve
           "example.com").
  - reflexivity.
  - reflexivity.
  - discriminate.
  - discriminate.
Defined.

(* ===================================================================== *)
(** * Advanced search: the fallback *)
(* ===================================================================== *)

Lemma slice_list_take {A} (l : list A) (limit : Z) :
  1 <= limit -> Js.slice_list l 0 limit = firstn (Z.to_nat limit) l.
Proof.
  intros Hlimit. unfold Js.slice_list, Js.rel_index.
  destruct (0 <? 0) eqn:E0; [apply Z.ltb_lt in E0; lia|].
  destruct (limit <? 0) eqn:E1; [apply Z.ltb_lt in E1; lia|].
  rewrite (Z.min_l 0) by lia. change (Z.to_nat 0) with 0%nat.
  rewrite drop_0, Z.sub_0_r.
  destruct (Z.le_ge_cases limit (Z.of_nat (length l))) as [Hle|Hge].
  - now rewrite Z.min_l by lia.
  - rewrite Z.min_r by lia. rewrite Nat2Z.id.
    rewrite (take_ge l (length l)) by reflexivity.
    rewrite (take_ge l (Z.to_nat limit)) by lia. reflexivity.
Qed.

Lemma title_matches_spec (q : string) (object : R2Object) :
  title_matches q object = true <-> title_contains q object.
Proof.
  unfold title_matches, title_contains, contains_ci. split.
  - destruct (customMetadata object) as [md|]; cbn [from_option Datatypes.id].
    + destruct (md !! "title") as [t|] eqn:Et; [|intros H; discriminate H].
      intros H. apply includes_split in H as (pre & post & H).
      exists md, t. split; [reflexivity|]. split; [exact Et|].
      exists pre, post. exact H.
    + rewrite lookup_empty. intros H; discriminate H.
  - intros (md & t & -> & Et & pre & post & H). cbn [from_option Datatypes.id].
    rewrite Et, H. apply includes_append.
Qed.

Lemma fallback_scan (q : string) (listed : list (string * R2Object)) :
  omap (fun '(key, object) =>
          let metadata := default ∅ (customMetadata object) in
          let matchesQuery :=
            match metadata !! "title" with
            | Some t => Js.includes (Js.toLowerCase t) (Js.toLowerCase q)
            | None => false
            end in
          if matchesQuery then Some (mkFallback key metadata 1) else None)
       listed
  = List.map fallback_entry
      (List.filter (fun kv => title_matches q kv.2) listed).
Proof.
  match goal with |- omap ?f _ = _ => set (scan := f) end.
  induction listed as [|[key object] listed IH]; [reflexivity|].
  change (omap scan ((key, object) :: listed))
    with (match scan (key, object) with
          | Some y => y :: omap scan listed
          | None => omap scan listed
          end).
  rewrite IH. cbn [List.filter snd]. unfold scan, title_matches, fallback_entry.
  destruct (default ∅ (customMetadata object) !! "title") as [t|]; [|reflexivity].
  destruct (Js.includes _ _); reflexivity.
Qed.

(** Every listed object is an object of the bucket under the prefix. *)
Lemma list_objects_sound (prefix : string) (limit : Z)
    (objs : gmap string R2Object) (key : string) (object : R2Object) :
  (key, object) ∈ list_objects prefix limit objs ->
  objs !! key = Some object /\ Js.startsWith prefix key = true.
Proof.
  unfold list_objects. intros Hin.
  apply subseteq_take in Hin. rewrite merge_sort_Permutation in Hin.
  apply list_elem_of_In, filter_In in Hin as [Hin Hpre].
  apply list_elem_of_In, elem_of_map_to_list in Hin. now split.
Qed.

(** C8 (as amended).  When the external search call of
    [search_notes_advanced] fails, the handler lists the objects under
    the folder of the caller.  When the listing is served it answers
    with the fallback payload, marked [fallback: true]: of the objects
    listed it keeps, in order, exactly those whose title metadata
    contains the query letter case aside, reports how many they are, and
    returns the first [limit] of them.  When the listing rejects as
    well, the handler rejects with the error of the listing and there is
    no fallback result. *)
Theorem search_notes_advanced_fallback
    (JSON_parse : string -> option JsVal) (env : Env) (props : Props)
    (now : Z) (args : SearchArgs) (w : World) (e : Thrown) (limit : Z) :
  search_failure env
    (search_params (arg_query args) (arg_limit args) 10
       (createAdvancedFilter (email props)
          (days_to_timestamp now (arg_since_days args))
          (days_to_timestamp now (arg_until_days args)))) = Some e ->
  arg_limit args = Some limit ->
  1 <= limit ->
  let listed := list_objects (getUserFolder (email props)) 1000 (objects w) in
  let kept := List.filter (fun kv => title_matches (arg_query args) kv.2) listed in
  let results := firstn (Z.to_nat limit) (List.map fallback_entry kept) in
  exists w',
    search_notes_advanced JSON_parse env props now args w =
      (match NOTES_rejects env (R2List (getUserFolder (email props)) 1000) with
       | None =>
           Resolved (FallbackResults results (Z.of_nat (length kept)) true
                       (arg_since_days args) (arg_until_days args) (error_message e))
       | Some listing_error => Rejected listing_error
       end,
       w')
    /\ objects w' = objects w
    /\ (length results <= Z.to_nat limit)%nat
    /\ (forall kv, kv ∈ kept <-> kv ∈ listed /\ title_contains (arg_query args) kv.2)
    /\ (forall key object, (key, object) ∈ listed ->
          objects w !! key = Some object
          /\ Js.startsWith (getUserFolder (email props)) key = true).
Proof.
  intros Hfail Hlimit Hmin listed kept results.
  assert (Hrun : forall w1, objects w1 = objects w ->
            advanced_fallback env props args e w1 =
            (match NOTES_rejects env (R2List (getUserFolder (email props)) 1000) with
             | None =>
                 Resolved (FallbackResults results (Z.of_nat (length kept)) true
                             (arg_since_days args) (arg_until_days args)
                             (error_message e))
             | Some listing_error => Rejected listing_error
             end,
             record_call (R2List (getUserFolder (email props)) 1000) w1)).
  { intros w1 Hobjs.
    unfold advanced_fallback, bind, NOTES_list, r2_call, ret.
    fold (getUserFolder (email props)).
    destruct (NOTES_rejects env _) as [listing_error|]; [reflexivity|].
    cbn [objects record_call]. rewrite Hobjs. fold listed.
    rewrite fallback_scan. fold kept.
    rewrite Hlimit. cbn [or_num].
    destruct (limit =? 0) eqn:E0; [apply Z.eqb_eq in E0; lia|].
    rewrite slice_list_take by exact Hmin. fold results.
    now rewrite length_map. }
  eexists. split; [|split; [|split; [|split]]].
  - unfold search_notes_advanced, try_catch.
    unfold bind at 1. unfold performAutoRAGSearch. unfold bind at 1.
    unfold AI_call, throw, ret.
    unfold search_failure in Hfail.
    destruct (AI_search env _) as [[|object search_query response data]|e'];
      inversion Hfail; subst; apply Hrun; reflexivity.
  - reflexivity.
  - unfold results. rewrite length_take. lia.
  - intros kv. unfold kept. rewrite list_elem_of_In, filter_In.
    rewrite <- list_elem_of_In, title_matches_spec. reflexivity.
  - intros key object Hin. eapply list_objects_sound. exact Hin.
Qed.

Lemma search_notes_advanced_fallback_witness :
  let listed := list_objects (getUserFolder (email ann)) 1000 (objects pantry_world) in
  let kept := List.filter (fun kv => title_matches (arg_query milk_args) kv.2) listed in
  let results := firstn (Z.to_nat 1) (List.map fallback_entry kept) in
  exists w',
    search_notes_advanced (fun _ => None) serving_env ann 1728000000000 milk_args
      pantry_world =
      (Resolved (FallbackResults results (Z.of_nat (length kept)) true
                   (arg_since_days milk_args) (arg_until_days milk_args)
                   (error_message (ErrorObj "unavailable"))),
       w')
    /\ objects w' = objects pantry_world
    /\ (length results <= Z.to_nat 1)%nat
    /\ (forall kv, kv ∈ kept <-> kv ∈ listed /\ title_contains (arg_query milk_args) kv.2)
    /\ (forall key object, (key, object) ∈ listed ->
          objects pantry_world !! key = Some object
          /\ Js.startsWith (getUserFolder (email ann)) key = true).
Proof.
  apply (search_notes_advanced_fallback (fun _ => None) serving_env ann
           1728000000000 milk_args pantry_world (ErrorObj "unavailable") 1).
  - reflexivity.
  - reflexivity.
  - lia.
Defined.

(** C8 as stated fails.  The search call fails and the listing of the
    fallback rejects: the handler rejects, and returns no fallback
    result. *)
Lemma search_notes_advanced_listing_fails_counterexample :
  search_failure failing_env
    (search_params (arg_query milk_args) (arg_limit milk_args) 10
       (createAdvancedFilter (email ann)
          (days_to_timestamp 1728000000000 (arg_since_days milk_args))
          (days_to_timestamp 1728000000000 (arg_until_days milk_args))))
  = Some (ErrorObj "unavailable")
  /\ fst (search_notes_advanced (fun _ => None) failing_env ann 1728000000000 milk_args
            pantry_world)
     = Rejected (ErrorObj "bucket unavailable").
Proof. repeat split. Qed.

(* ===================================================================== *)
(** * Further properties: filters and paths *)
(* ===================================================================== *)

Lemma str_lt_append_z_inv (s r : string) :
  Js.str_lt (s +:+ r) (s +:+ "z") = true -> sorts_below_z r = true.
Proof.
  unfold Js.str_lt, String.ltb.
  induction s as [|c s IH]; push_append; cbn [String.compare].
  - destruct r as [|d r]; [reflexivity|]. cbn [String.compare sorts_below_z].
    unfold Ascii.compare, Js.code. change (N_of_ascii "z") with 122%N.
    destruct (N.compare (N_of_ascii d) 122) eqn:E; intros H.
    + destruct r; discriminate H.
    + apply N.ltb_lt. now apply N.compare_lt_iff.
    + discriminate H.
  - rewrite ascii_compare_refl. exact IH.
Qed.

(** X1.  The folder filter of a user accepts exactly the folder keys that
    consist of the user name, a [/], and a rest that is empty or starts
    with a character before [z]. *)
Theorem folder_match_characterised (user folder : string) :
  folder_match user folder = true
  <-> exists rest, folder = user +:+ "/" +:+ rest /\ sorts_below_z rest = true.
Proof.
  split.
  - intros H. rewrite folder_match_unfold in H. apply andb_true_iff in H as [Hle Hlt].
    change (user +:+ "/z") with (user +:+ "/" +:+ "z") in Hlt.
    rewrite <- append_assoc in Hlt.
    destruct (startsWith_split _ _ (range_startsWith _ _ Hle Hlt)) as [rest ->].
    exists rest. split; [apply append_assoc|].
    eapply str_lt_append_z_inv. exact Hlt.
  - intros (rest & -> & Hrest). now apply folder_match_inside.
Qed.

Lemma advanced_filter_split
    (user : string) (since_timestamp until_timestamp : option Z)
    (attrs : gmap string string) :
  matches attrs (createAdvancedFilter user since_timestamp until_timestamp)
  = matches attrs (createUserFolderFilter user)
    && forallb (matches attrs)
         (timestamp_clause T_gte since_timestamp
          ++ timestamp_clause T_lte until_timestamp).
Proof.
  unfold createAdvancedFilter, createUserFolderFilter.
  cbn [matches]. rewrite <- app_assoc. rewrite forallb_app. reflexivity.
Qed.

(** X2.  A time range only narrows the tenant filter: whatever the
    timestamps, an item accepted by the filter of the advanced searches
    is accepted by the folder filter of the user, so it has a folder key
    and that key starts with the user name and a [/]. *)
Theorem advanced_filter_stays_in_folder
    (user : string) (since_timestamp until_timestamp : option Z)
    (attrs : gmap string string) :
  matches attrs (createAdvancedFilter user since_timestamp until_timestamp) = true ->
  matches attrs (createUserFolderFilter user) = true
  /\ exists rest, attrs !! "folder" = Some (user +:+ "/" +:+ rest)
                  /\ sorts_below_z rest = true.
Proof.
  rewrite advanced_filter_split. intros H. apply andb_true_iff in H as [H _].
  split; [exact H|].
  unfold createUserFolderFilter in H. cbn [matches forallb] in H.
  destruct (attrs !! "folder") as [folder|]; [|discriminate H].
  cbn [cmp_holds] in H. rewrite andb_true_r in H.
  rewrite <- folder_match_unfold in H.
  assert (Hchar : exists rest, folder = user +:+ "/" +:+ rest /\ sorts_below_z rest = true).
  { rewrite folder_match_unfold in H. apply andb_true_iff in H as [Hle Hlt].
    change (user +:+ "/z") with (user +:+ "/" +:+ "z") in Hlt.
    rewrite <- append_assoc in Hlt.
    destruct (startsWith_split _ _ (range_startsWith _ _ Hle Hlt)) as [rest ->].
    exists rest. split; [apply append_assoc|].
    eapply str_lt_append_z_inv. exact Hlt. }
  destruct Hchar as (rest & -> & Hrest). exists rest. now split.
Qed.

Lemma advanced_filter_stays_in_folder_witness :
  matches {[ "folder" := "ann@example.com/"; "timestamp" := "5" ]}
    (createUserFolderFilter "ann@example.com") = true
  /\ exists rest,
       ({[ "folder" := "ann@example.com/"; "timestamp" := "5" ]} : gmap string string)
         !! "folder" = Some ("ann@example.com" +:+ "/" +:+ rest)
       /\ sorts_below_z rest = true.
Proof.
  apply (advanced_filter_stays_in_folder "ann@example.com" (Some 1) None
           {[ "folder" := "ann@example.com/"; "timestamp" := "5" ]}).
  reflexivity.
Defined.

Lemma filter_sublist {A} (f : A -> bool) (l : list A) :
  sublist (List.filter f l) l.
Proof.
  induction l as [|x l IH]; cbn [List.filter]; [constructor|].
  destruct (f x); now constructor.
Qed.

Lemma filter_filter_same {A} (f : A -> bool) (l : list A) :
  List.filter f (List.filter f l) = List.filter f l.
Proof.
  induction l as [|x l IH]; [reflexivity|]. cbn [List.filter].
  destruct (f x) eqn:E; [|exact IH]. cbn [List.filter]. now rewrite E, IH.
Qed.

(** X3.  [filterNoteResults] keeps, in their order, exactly the results
    that have a non-empty file name without the segment [/.metadata/]; a
    result without a file name is dropped; filtering twice is filtering
    once. *)
Theorem filterNoteResults_keeps (results : list AutoRAGSearchResult) :
  sublist (filterNoteResults results) results
  /\ (forall r, r ∈ filterNoteResults results
        <-> r ∈ results
            /\ exists f, filename r = Some f /\ f <> ""
                         /\ Js.includes f "/.metadata/" = false)
  /\ filterNoteResults (filterNoteResults results) = filterNoteResults results.
Proof.
  split; [apply filter_sublist|]. split; [|apply filter_filter_same].
  intros r. unfold filterNoteResults. rewrite list_elem_of_In, filter_In.
  rewrite <- list_elem_of_In. split; intros [Hin H]; (split; [exact Hin|]).
  - destruct (filename r) as [f|]; [|discriminate].
    apply andb_true_iff in H as [H1 H2].
    exists f. split; [reflexivity|]. split.
    + apply negb_true_iff, String.eqb_neq in H1. exact H1.
    + now apply negb_true_iff.
  - destruct H as (f & -> & Hne & Hinc).
    apply String.eqb_neq in Hne. now rewrite Hne, Hinc.
Qed.

Lemma count_slash_append (a b : string) :
  count_slash (a +:+ b) = (count_slash a + count_slash b)%nat.
Proof.
  induction a as [|c a IH]; push_append; [reflexivity|].
  cbn [count_slash]. rewrite IH. lia.
Qed.

Lemma no_slash_count (s : string) : no_slash s = true -> count_slash s = O.
Proof.
  induction s as [|c s IH]; [reflexivity|]. cbn [no_slash count_slash].
  intros H. apply andb_true_iff in H as [Hc Hs].
  apply negb_true_iff in Hc. rewrite Hc. now rewrite IH.
Qed.

Lemma includes_count_slash (t s : string) :
  Js.includes t s = true -> (count_slash s <= count_slash t)%nat.
Proof.
  intros H. apply includes_split in H as (a & b & ->).
  rewrite !count_slash_append. lia.
Qed.

(** X4.  Of the two objects of a note, [filterNoteResults] keeps a result
    named by the note path and drops a result named by the sidecar path,
    for a user name and an identifier without [/]. *)
Theorem filterNoteResults_on_note_paths
    (user id : string) (note sidecar : AutoRAGSearchResult) :
  no_slash user = true -> no_slash id = true ->
  filename note = Some (getNotePath user id) ->
  filename sidecar = Some (getMetadataPath user id) ->
  filterNoteResults [note; sidecar] = [note]
  /\ filterNoteResults [sidecar; note] = [note].
Proof.
  intros Hu Hid Hnote Hside.
  assert (Hkeep : negb (String.eqb (getNotePath user id) "")
                  && negb (Js.includes (getNotePath user id) "/.metadata/") = true).
  { apply andb_true_iff. split.
    - apply negb_true_iff, String.eqb_neq. unfold getNotePath.
      destruct user; discriminate.
    - apply negb_true_iff. destruct (Js.includes _ _) eqn:E; [|reflexivity].
      apply includes_count_slash in E. unfold getNotePath in E.
      rewrite !count_slash_append, (no_slash_count _ Hu), (no_slash_count _ Hid) in E.
      cbn in E. lia. }
  assert (Hdrop : negb (String.eqb (getMetadataPath user id) "")
                  && negb (Js.includes (getMetadataPath user id) "/.metadata/") = false).
  { apply andb_false_iff. right. apply negb_false_iff.
    unfold getMetadataPath. apply includes_append. }
  unfold filterNoteResults. cbn [List.filter].
  rewrite Hnote, Hside, Hkeep, Hdrop. split; reflexivity.
Qed.

Lemma filterNoteResults_on_note_paths_witness :
  let note := mkResult (Some (getNotePath "ann@example.com" sample_id))
                None None None None None None in
  let sidecar := mkResult (Some (getMetadataPath "ann@example.com" sample_id))
                   None None None None None None in
  filterNoteResults [note; sidecar] = [note]
  /\ filterNoteResults [sidecar; note] = [note].
Proof.
  apply (filterNoteResults_on_note_paths "ann@example.com" sample_id); reflexivity.
Defined.

Lemma rev_app_acc (s acc : string) :
  String.rev_app s acc = String.rev_app s "" +:+ acc.
Proof.
  revert acc. induction s as [|c s IH]; intros acc; [reflexivity|].
  cbn [String.rev_app]. rewrite (IH (String c acc)), (IH (String c "")).
  now rewrite append_assoc.
Qed.

Lemma rev_append (a b : string) :
  String.rev (a +:+ b) = String.rev b +:+ String.rev a.
Proof.
  unfold String.rev. induction a as [|c a IH]; push_append.
  - now rewrite append_empty_r.
  - cbn [String.rev_app]. rewrite (rev_app_acc (a +:+ b)), (rev_app_acc a), IH.
    now rewrite append_assoc.
Qed.

Lemma rev_involutive (s : string) : String.rev (String.rev s) = s.
Proof.
  induction s as [|c s IH]; [reflexivity|].
  change (String c s) with (String c "" +:+ s) at 1.
  now rewrite rev_append, rev_append, IH.
Qed.

Lemma no_slash_last_segment (s : string) :
  no_slash s = true -> last_segment s = None.
Proof.
  induction s as [|c s IH]; [reflexivity|]. cbn [no_slash last_segment].
  intros H. apply andb_true_iff in H as [Hc Hs]. apply negb_true_iff in Hc.
  now rewrite (IH Hs), Hc.
Qed.

Lemma last_segment_after_slash (a t : string) :
  no_slash t = true -> last_segment (a +:+ "/" +:+ t) = Some t.
Proof.
  intros Ht. induction a as [|c a IH]; push_append; cbn [last_segment].
  - now rewrite (no_slash_last_segment _ Ht).
  - now rewrite IH.
Qed.

Lemma no_slash_append (a b : string) :
  no_slash a = true -> no_slash b = true -> no_slash (a +:+ b) = true.
Proof.
  intros Ha Hb. induction a as [|c a IH]; push_append; [exact Hb|].
  cbn [no_slash] in *. apply andb_true_iff in Ha as [Hc Ha].
  now rewrite Hc, IH.
Qed.

Lemma match_note_id_inverts (user id : string) :
  id <> "" -> no_slash id = true ->
  match_note_id (getNotePath user id) = Some id.
Proof.
  intros Hne Hid. unfold match_note_id, getNotePath.
  rewrite last_segment_after_slash by (apply no_slash_append; [exact Hid | reflexivity]).
  rewrite rev_append.
  destruct (String.rev id) as [|c stem] eqn:E.
  - exfalso. apply Hne. rewrite <- (rev_involutive id), E. reflexivity.
  - change (String.rev ".md") with "dm.". push_append.
    now rewrite <- E, rev_involutive.
Qed.

(** X5.  The identifier that [enrichResultsWithMetadata] reads back from
    a file name is the one the note path was built from: for a non-empty
    identifier without [/], [match_note_id] inverts [getNotePath], and
    the sidecar key built from it is the sidecar path of the note. *)
Theorem match_note_id_of_note_path (user id : string) :
  id <> "" -> no_slash id = true ->
  match_note_id (getNotePath user id) = Some id
  /\ (fun noteId => user +:+ "/.metadata/" +:+ noteId +:+ ".json")
       <$> match_note_id (getNotePath user id)
     = Some (getMetadataPath user id).
Proof.
  intros Hne Hid. rewrite (match_note_id_inverts user id Hne Hid).
  split; reflexivity.
Qed.

Lemma match_note_id_of_note_path_witness :
  match_note_id (getNotePath "ann@example.com" sample_id) = Some sample_id
  /\ (fun noteId => "ann@example.com" +:+ "/.metadata/" +:+ noteId +:+ ".json")
       <$> match_note_id (getNotePath "ann@example.com" sample_id)
     = Some (getMetadataPath "ann@example.com" sample_id).
Proof.
  apply (match_note_id_of_note_path "ann@example.com" sample_id).
  - discriminate.
  - reflexivity.
Defined.

(* ===================================================================== *)
(** * Further properties: the search tools *)
(* ===================================================================== *)

Lemma reads_only_refl (w : World) : reads_only w w.
Proof. split; [reflexivity|]. exists []. now rewrite app_nil_r. Qed.

Lemma reads_only_trans (w1 w2 w3 : World) :
  reads_only w1 w2 -> reads_only w2 w3 -> reads_only w1 w3.
Proof.
  intros [O1 (r1 & C1 & F1)] [O2 (r2 & C2 & F2)]. split; [congruence|].
  exists (r1 ++ r2). split.
  - now rewrite C2, C1, app_assoc.
  - now rewrite forallb_app, F1, F2.
Qed.

Lemma reads_only_record (c : Call) (w : World) :
  is_read c = true -> reads_only w (record_call c w).
Proof.
  intros Hc. split; [reflexivity|]. exists [c]. split; [reflexivity|].
  cbn. now rewrite Hc.
Qed.

(** What [enrich_one] does for a result: at most one [get], no write,
    and a result that differs at most in the sidecar. *)
Lemma enrich_one_run (JSON_parse : string -> option JsVal) (env : Env)
    (user : string) (result : AutoRAGSearchResult) (w : World) :
  exists r w',
    enrich_one JSON_parse env user result w = (Resolved r, w')
    /\ same_but_sidecar result r
    /\ objects w' = objects w
    /\ exists gets, calls w' = calls w ++ gets
                    /\ forallb is_get gets = true /\ (length gets <= 1)%nat.
Proof.
  assert (Hsame : same_but_sidecar result result) by (repeat split).
  assert (Hnone : exists gets, calls w = calls w ++ gets
                    /\ forallb is_get gets = true /\ (length gets <= 1)%nat).
  { exists []. rewrite app_nil_r. repeat split. cbn. lia. }
  unfold enrich_one, try_catch, bind, ret, throw, NOTES_get, r2_call.
  destruct (filename result ≫= match_note_id) as [noteId|].
  - set (key := user +:+ "/.metadata/" +:+ noteId +:+ ".json").
    assert (Hone : exists gets,
               calls (record_call (R2Get key) w) = calls w ++ gets
               /\ forallb is_get gets = true /\ (length gets <= 1)%nat).
    { exists [R2Get key]. repeat split. cbn. lia. }
    destruct (NOTES_rejects env (R2Get key)) as [e|].
    + eexists _, _. split; [reflexivity|]. repeat split; assumption.
    + cbn [objects record_call]. destruct (objects w !! key) as [obj|].
      * destruct (JSON_parse (body obj)) as [v|];
          eexists _, _; (split; [reflexivity|]); repeat split; assumption.
      * eexists _, _. split; [reflexivity|]. repeat split; assumption.
  - eexists _, _. split; [reflexivity|]. repeat split; assumption.
Qed.

Lemma enrichResults_run
    (JSON_parse : string -> option JsVal) (env : Env) (user : string)
    (results : list AutoRAGSearchResult) (w : World) :
  exists rs w',
    enrichResultsWithMetadata JSON_parse env results user w = (Resolved rs, w')
    /\ Forall2 same_but_sidecar results rs
    /\ objects w' = objects w
    /\ exists gets, calls w' = calls w ++ gets
                    /\ forallb is_get gets = true
                    /\ (length gets <= length results)%nat.
Proof.
  unfold enrichResultsWithMetadata. revert w.
  induction results as [|r results IH]; intros w.
  - eexists _, _. split; [reflexivity|]. split; [constructor|].
    split; [reflexivity|]. exists []. rewrite app_nil_r. repeat split. cbn. lia.
  - cbn [mapM]. unfold bind at 1.
    destruct (enrich_one_run JSON_parse env user r w)
      as (r' & w1 & -> & Hsame & Hobj1 & g1 & Hc1 & Hg1 & Hl1).
    unfold bind at 1.
    destruct (IH w1) as (rs & w2 & -> & Hall & Hobj2 & g2 & Hc2 & Hg2 & Hl2).
    eexists _, _. split; [reflexivity|]. split; [now constructor|].
    split; [congruence|]. exists (g1 ++ g2). split; [|split].
    + now rewrite Hc2, Hc1, app_assoc.
    + now rewrite forallb_app, Hg1, Hg2.
    + rewrite length_app. cbn [length]. lia.
Qed.

(** X6.  [enrichResultsWithMetadata] is best effort: it never rejects,
    whatever the bucket does; it returns as many results as it was
    given, in order, each differing from its original at most in the
    attached sidecar; it writes nothing; and the calls it issues are
    [get]s, at most one for each result. *)
Theorem enrichResultsWithMetadata_best_effort
    (JSON_parse : string -> option JsVal) (env : Env) (user : string)
    (results : list AutoRAGSearchResult) (w : World) :
  exists rs w',
    enrichResultsWithMetadata JSON_parse env results user w = (Resolved rs, w')
    /\ Forall2 same_but_sidecar results rs
    /\ objects w' = objects w
    /\ exists gets, calls w' = calls w ++ gets
                    /\ forallb is_get gets = true
                    /\ (length gets <= length results)%nat.
Proof. apply enrichResults_run. Qed.

(** X7.  For a result named by a note path of the user, [enrich_one]
    reads the sidecar of that note: it attaches what the sidecar parses
    to, and returns the result unchanged when the sidecar is missing or
    does not parse. *)
Theorem enrich_one_reads_the_sidecar
    (JSON_parse : string -> option JsVal) (env : Env) (user id : string)
    (result : AutoRAGSearchResult) (w : World) :
  id <> "" -> no_slash id = true ->
  filename result = Some (getNotePath user id) ->
  NOTES_rejects env (R2Get (getMetadataPath user id)) = None ->
  enrich_one JSON_parse env user result w =
    (Resolved
       match objects w !! getMetadataPath user id ≫= (fun obj => JSON_parse (body obj)) with
       | Some v => with_sidecar result v
       | None => result
       end,
     record_call (R2Get (getMetadataPath user id)) w).
Proof.
  intros Hne Hid Hname Hserved.
  unfold enrich_one, try_catch, bind, ret, throw, NOTES_get, r2_call.
  rewrite Hname. cbn [mbind option_bind].
  rewrite (match_note_id_inverts user id Hne Hid).
  fold (getMetadataPath user id). rewrite Hserved.
  cbn [objects record_call].
  destruct (objects w !! getMetadataPath user id) as [obj|]; cbn [mbind option_bind].
  - destruct (JSON_parse (body obj)); [|reflexivity].
    unfold with_sidecar. now rewrite Hname.
  - reflexivity.
Qed.

Lemma enrich_one_reads_the_sidecar_witness :
  enrich_one (fun _ => Some (JObj [])) serving_env "ann@example.com"
    (mkResult (Some (getNotePath "ann@example.com" sample_id))
       None None None None None None)
    orphan_world =
    (Resolved
       match objects orphan_world !! getMetadataPath "ann@example.com" sample_id
             ≫= (fun obj => (fun _ => Some (JObj [])) (body obj)) with
       | Some v =>
           with_sidecar
             (mkResult (Some (getNotePath "ann@example.com" sample_id))
                None None None None None None) v
       | None =>
           mkResult (Some (getNotePath "ann@example.com" sample_id))
             None None None None None None
       end,
     record_call (R2Get (getMetadataPath "ann@example.com" sample_id)) orphan_world).
Proof.
  apply (enrich_one_reads_the_sidecar (fun _ => Some (JObj [])) serving_env
           "ann@example.com" sample_id).
  - discriminate.
  - reflexivity.
  - reflexivity.
  - reflexivity.
Defined.

Lemma search_params_capped (query : string) (limit : option Z) (d : Z)
    (filters : AutoRAGFilter) :
  max_num_results (search_params query limit d filters) <= 50.
Proof. cbn [search_params max_num_results]. lia. Qed.

(** X8.  [search_notes_simple] always answers and never touches the
    bucket: it issues one call, the search with the folder filter of the
    caller and a result cap of at most 50; and in the response the count
    of filtered results is the number of results returned, at most the
    total the endpoint gave. *)
Theorem search_notes_simple_one_query
    (JSON_stringify : JsVal -> string) (env : Env) (props : Props)
    (args : SearchArgs) (w : World) :
  let params :=
    search_params (arg_query args) (arg_limit args) 10
      (createUserFolderFilter (email props)) in
  exists resp w',
    search_notes_simple JSON_stringify env props args w = (Resolved resp, w')
    /\ calls w' = calls w ++ [AISearch params]
    /\ objects w' = objects w
    /\ max_num_results params <= 50
    /\ counts_consistent resp.
Proof.
  intros params.
  unfold search_notes_simple, try_catch, bind, performAutoRAGSearch, AI_call, ret, throw.
  fold params.
  destruct (AI_search env params) as [[|object search_query response data]|e];
    eexists _, _; (split; [reflexivity|]);
    (split; [reflexivity|]); (split; [reflexivity|]);
    (split; [apply search_params_capped|]); cbn [counts_consistent]; try exact I.
  cbn [page_data]. split; [reflexivity|]. split; [lia|].
  apply Nat2Z.inj_le. unfold filterNoteResults.
  apply (sublist_length _ _ (filter_sublist _ _)).
Qed.

Lemma is_get_is_read (cs : list Call) :
  forallb is_get cs = true -> forallb is_read cs = true.
Proof.
  induction cs as [|c cs IH]; [reflexivity|]. cbn [forallb].
  intros H. apply andb_true_iff in H as [Hc Hcs].
  rewrite (IH Hcs). destruct c; try discriminate Hc; reflexivity.
Qed.

Lemma advanced_fallback_reads_only (env : Env) (props : Props) (args : SearchArgs)
    (e : Thrown) (w : World) :
  reads_only w (snd (advanced_fallback env props args e w)).
Proof.
  unfold advanced_fallback, bind, NOTES_list, r2_call.
  destruct (NOTES_rejects env _); now apply reads_only_record.
Qed.

Lemma shape_result_same (r r' : AutoRAGSearchResult) :
  same_but_sidecar r r' -> shape_result r' = shape_result r.
Proof.
  intros (Hf & Hc & Ht & Hs & Hm & He).
  unfold shape_result, contentPreview. now rewrite Hf, Hc, Ht, Hs, Hm, He.
Qed.

Lemma shape_results_same (rs rs' : list AutoRAGSearchResult) :
  Forall2 same_but_sidecar rs rs' ->
  List.map shape_result rs' = List.map shape_result rs /\ length rs' = length rs.
Proof.
  induction 1 as [|r r' rs rs' Hsame _ [IHm IHl]]; [split; reflexivity|].
  cbn [List.map length]. now rewrite (shape_result_same _ _ Hsame), IHm, IHl.
Qed.

(** What a run of [search_notes_advanced] is, by the outcome of the
    search call. *)
Lemma search_notes_advanced_run
    (JSON_parse : string -> option JsVal) (env : Env) (props : Props)
    (now : Z) (args : SearchArgs) (w : World) :
  let params :=
    search_params (arg_query args) (arg_limit args) 10
      (createAdvancedFilter (email props)
         (days_to_timestamp now (arg_since_days args))
         (days_to_timestamp now (arg_until_days args))) in
  let w1 := record_call (AISearch params) w in
  match AI_search env params with
  | Resolved (RawObject object search_query response data) =>
      let kept := filterNoteResults (default [] data) in
      exists w2,
        search_notes_advanced JSON_parse env props now args w =
          (Resolved
             (AdvancedResults (getUserFolder (email props))
                (or_else search_query (arg_query args))
                (days_or_all_time (arg_since_days args))
                (days_or_all_time (arg_until_days args))
                (Z.of_nat (length kept))
                (List.map shape_result kept)),
           w2)
        /\ reads_only w1 w2
  | _ =>
      exists e,
        search_failure env params = Some e
        /\ search_notes_advanced JSON_parse env props now args w =
           advanced_fallback env props args e w1
  end.
Proof.
  intros params w1.
  unfold search_notes_advanced, try_catch.
  unfold bind at 1. unfold performAutoRAGSearch. unfold bind at 1.
  unfold AI_call, throw, ret, search_failure. fold params. fold w1.
  destruct (AI_search env params) as [[|object search_query response data]|e].
  - eexists. split; reflexivity.
  - unfold bind. cbn [page_data page_search_query query search_params]. fold w1.
    destruct (enrichResults_run JSON_parse env (email props)
                (filterNoteResults (default [] data)) w1)
      as (rs & w2 & -> & Hall & Hobj & gets & Hcalls & Hgets & _).
    destruct (shape_results_same _ _ Hall) as [Hmap Hlen].
    exists w2. split.
    + unfold shape_result in Hmap. rewrite Hmap, Hlen. reflexivity.
    + split; [exact Hobj|]. exists gets. split; [exact Hcalls|].
      now apply is_get_is_read.
  - eexists. split; reflexivity.
Qed.

(** X9.  [search_notes_advanced] only reads: whatever the endpoint and
    the bucket do, the objects of the bucket are the same afterwards and
    no call it issues is a [put] or a [delete]. *)
Theorem search_notes_advanced_reads_only
    (JSON_parse : string -> option JsVal) (env : Env) (props : Props)
    (now : Z) (args : SearchArgs) (w : World) :
  reads_only w (snd (search_notes_advanced JSON_parse env props now args w)).
Proof.
  pose proof (search_notes_advanced_run JSON_parse env props now args w) as Hrun.
  cbv zeta in Hrun.
  set (params := search_params _ _ _ _) in *.
  assert (H1 : reads_only w (record_call (AISearch params) w))
    by now apply reads_only_record.
  destruct (AI_search env params) as [[|object search_query response data]|e].
  - destruct Hrun as (e & _ & ->).
    eapply reads_only_trans; [exact H1 | apply advanced_fallback_reads_only].
  - destruct Hrun as (w2 & -> & H2). cbn [snd].
    eapply reads_only_trans; eassumption.
  - destruct Hrun as (e' & _ & ->).
    eapply reads_only_trans; [exact H1 | apply advanced_fallback_reads_only].
Qed.

(** X10.  When the search call answers, the response of
    [search_notes_advanced] is made from the results of the endpoint
    alone: one entry for each result that [filterNoteResults] keeps, in
    order, with [total_results] their number.  The sidecars fetched by
    the enrichment do not reach it: [enriched_metadata] is the field of
    that name of the endpoint's result, whatever the bucket holds. *)
Theorem search_notes_advanced_answer
    (JSON_parse : string -> option JsVal) (env : Env) (props : Props)
    (now : Z) (args : SearchArgs) (w : World)
    (object search_query response : option string)
    (data : option (list AutoRAGSearchResult)) :
  AI_search env
    (search_params (arg_query args) (arg_limit args) 10
       (createAdvancedFilter (email props)
          (days_to_timestamp now (arg_since_days args))
          (days_to_timestamp now (arg_until_days args))))
    = Resolved (RawObject object search_query response data) ->
  let kept := filterNoteResults (default [] data) in
  fst (search_notes_advanced JSON_parse env props now args w) =
    Resolved
      (AdvancedResults (getUserFolder (email props))
         (or_else search_query (arg_query args))
         (days_or_all_time (arg_since_days args))
         (days_or_all_time (arg_until_days args))
         (Z.of_nat (length kept))
         (List.map shape_result kept)).
Proof.
  intros Hanswer kept.
  pose proof (search_notes_advanced_run JSON_parse env props now args w) as Hrun.
  cbv zeta in Hrun. rewrite Hanswer in Hrun.
  destruct Hrun as (w2 & -> & _). reflexivity.
Qed.

(** X11.  [search_notes_advanced] rejects in one case only: the search
    call failed and the listing of the fallback rejected; the rejection
    is then that of the listing. *)
Theorem search_notes_advanced_rejects_iff
    (JSON_parse : string -> option JsVal) (env : Env) (props : Props)
    (now : Z) (args : SearchArgs) (w : World) (e : Thrown) :
  fst (search_notes_advanced JSON_parse env props now args w) = Rejected e
  <-> search_failure env
        (search_params (arg_query args) (arg_limit args) 10
           (createAdvancedFilter (email props)
              (days_to_timestamp now (arg_since_days args))
              (days_to_timestamp now (arg_until_days args)))) <> None
      /\ NOTES_rejects env (R2List (getUserFolder (email props)) 1000) = Some e.
Proof.
  pose proof (search_notes_advanced_run JSON_parse env props now args w) as Hrun.
  cbv zeta in Hrun.
  set (params := search_params _ _ _ _) in *.
  assert (Hfb : forall e0 w1,
            fst (advanced_fallback env props args e0 w1) = Rejected e
            <-> NOTES_rejects env (R2List (getUserFolder (email props)) 1000) = Some e).
  { intros e0 w1. unfold advanced_fallback, bind, NOTES_list, r2_call, ret.
    fold (getUserFolder (email props)).
    destruct (NOTES_rejects env _) as [e'|]; cbn [fst]; split; intros H;
      try discriminate H; congruence. }
  unfold search_failure in *.
  destruct (AI_search env params) as [[|object search_query response data]|e'].
  - destruct Hrun as (e0 & _ & ->). rewrite Hfb. split.
    + intros H. split; [discriminate | exact H].
    + intros [_ H]. exact H.
  - destruct Hrun as (w2 & -> & _). cbn [fst]. split; [discriminate|].
    intros [H _]. now contradiction H.
  - destruct Hrun as (e0 & _ & ->). rewrite Hfb. split.
    + intros H. split; [discriminate | exact H].
    + intros [_ H]. exact H.
Qed.

Lemma search_notes_advanced_answer_witness :
  let data :=
    Some [ mkResult (Some (getNotePath "ann@example.com" sample_id))
             None (Some "Buy milk") None None None None;
           mkResult (Some (getMetadataPath "ann@example.com" sample_id))
             None None None None None None ] in
  let kept := filterNoteResults (default [] data) in
  fst (search_notes_advanced (fun _ => None) answering_env ann 1728000000000
         milk_args orphan_world) =
    Resolved
      (AdvancedResults (getUserFolder (email ann))
         (or_else (Some "milk") (arg_query milk_args))
         (days_or_all_time (arg_since_days milk_args))
         (days_or_all_time (arg_until_days milk_args))
         (Z.of_nat (length kept))
         (List.map shape_result kept)).
Proof.
  apply (search_notes_advanced_answer (fun _ => None) answering_env ann
           1728000000000 milk_args orphan_world None (Some "milk") None).
  reflexivity.
Defined.

Lemma take_length (n : nat) (s : string) :
  String.length (Js.take n s) = Nat.min n (String.length s).
Proof.
  revert s. induction n as [|n IH]; intros [|c s]; cbn [Js.take String.length];
    try reflexivity. now rewrite IH.
Qed.

Lemma append_length (a b : string) :
  String.length (a +:+ b) = (String.length a + String.length b)%nat.
Proof.
  induction a as [|c a IH]; push_append; cbn [String.length]; [reflexivity|].
  now rewrite IH.
Qed.

(** [s.slice(0, n)] is the first [n] characters of [s]. *)
Lemma slice_from_start (s : string) (n : Z) :
  0 <= n -> Js.slice s 0 n = Js.take (Z.to_nat n) s.
Proof.
  intros Hn. unfold Js.slice, Js.rel_index.
  destruct (0 <? 0) eqn:E0; [apply Z.ltb_lt in E0; lia|].
  destruct (n <? 0) eqn:E1; [apply Z.ltb_lt in E1; lia|].
  rewrite (Z.min_l 0) by lia. change (Z.to_nat 0) with 0%nat.
  cbn [Js.drop]. rewrite Z.sub_0_r.
  assert (Htake : forall k t, (String.length t <= k)%nat -> Js.take k t = t).
  { induction k as [|k IH]; intros [|c t] Hk; cbn [Js.take String.length] in *;
      try reflexivity; [lia|]. rewrite IH by lia. reflexivity. }
  destruct (Z.le_ge_cases n (Z.of_nat (String.length s))) as [Hle|Hge].
  - now rewrite Z.min_l by lia.
  - rewrite Z.min_r by lia. rewrite Nat2Z.id.
    rewrite (Htake (String.length s)) by lia.
    rewrite (Htake (Z.to_nat n)) by lia. reflexivity.
Qed.

Lemma preview_length (t : string) : (String.length (preview t) <= 303)%nat.
Proof.
  unfold preview. rewrite append_length, slice_from_start by lia.
  rewrite take_length. destruct (300 <? _); cbn [String.length]; lia.
Qed.

(** X12.  The content preview of an advanced search entry is never
    longer than 303 characters: 300 of the content and the ellipsis. *)
Theorem contentPreview_bounded (result : AutoRAGSearchResult) :
  (String.length (contentPreview result) <= 303)%nat.
Proof.
  assert (Hdefault : (String.length "No content available" <= 303)%nat)
    by (cbn; lia).
  assert (Htext : forall o : option string,
            (String.length
               match o with
               | Some t => if String.eqb t "" then "No content available" else preview t
               | None => "No content available"
               end <= 303)%nat).
  { intros [t|]; [|exact Hdefault].
    destruct (String.eqb t ""); [exact Hdefault | apply preview_length]. }
  unfold contentPreview.
  destruct (content result) as [[[|firstChunk chunks]|s]|]; try apply Htext.
  destruct (String.eqb s ""); [apply Htext | apply preview_length].
Qed.

(** X13.  [ai_search_notes] always answers with a text and never touches
    the bucket: it issues the one search call, and the text is the answer
    of the endpoint followed by the note on the time filters, or, when
    the call fails, an error text starting with [Search error: ]. *)
Theorem ai_search_notes_always_answers
    (JSON_stringify : JsVal -> string) (env : Env) (props : Props)
    (now : Z) (args : SearchArgs) (w : World) :
  let params :=
    search_params (arg_query args) (arg_limit args) 5
      (createAdvancedFilter (email props)
         (days_to_timestamp now (arg_since_days args))
         (days_to_timestamp now (arg_until_days args))) in
  exists t,
    ai_search_notes JSON_stringify env props now args w
      = (Resolved (TextResponse t), record_call (AIAiSearch params) w)
    /\ match AI_aiSearch env params with
       | Resolved (RawObject _ _ response _) =>
           t = or_else response "No relevant information found."
               +:+ filter_note (arg_since_days args) (arg_until_days args)
       | _ => Js.startsWith "Search error: " t = true
       end.
Proof.
  intros params.
  unfold ai_search_notes, try_catch, bind, performAutoRAGAISearch, AI_call, throw, ret.
  fold params.
  destruct (AI_aiSearch env params) as [[|object search_query response data]|e];
    eexists; (split; [reflexivity|]); try apply startsWith_append.
  cbn [page_response]. f_equal.
  unfold or_else. destruct response as [r|]; [|reflexivity].
  destruct (String.eqb r "") eqn:E; [reflexivity|]. now rewrite E.
Qed.

(* ===================================================================== *)
(** * Further properties: utils/metadata *)
(* ===================================================================== *)

Lemma existsb_eqb_elem (x : string) (l : list string) :
  existsb (String.eqb x) l = true <-> x ∈ l.
Proof.
  rewrite existsb_exists. split.
  - intros (y & Hin & Heq). apply String.eqb_eq in Heq. subst y.
    now apply list_elem_of_In.
  - intros Hin. exists x. split; [now apply list_elem_of_In | apply String.eqb_refl].
Qed.

(** [dedupe] keeps the first occurrence of every element that was not
    seen before. *)
Lemma dedupe_spec (seen l : list string) :
  NoDup (dedupe seen l)
  /\ forall x, x ∈ dedupe seen l <-> x ∈ l /\ x ∉ seen.
Proof.
  revert seen. induction l as [|y l IH]; intros seen.
  - split; [constructor|]. intros x. cbn [dedupe]. split.
    + intros H. inversion H.
    + intros [H _]. inversion H.
  - cbn [dedupe]. destruct (existsb (String.eqb y) seen) eqn:E.
    + destruct (IH seen) as [Hnd Hin]. split; [exact Hnd|].
      intros x. rewrite Hin. apply existsb_eqb_elem in E.
      rewrite elem_of_cons. split.
      * intros [H1 H2]. auto.
      * intros [[->|H1] H2]; [contradiction | auto].
    + destruct (IH (y :: seen)) as [Hnd Hin].
      assert (Hy : y ∉ seen).
      { intros H. apply existsb_eqb_elem in H. congruence. }
      split.
      * constructor; [|exact Hnd]. rewrite Hin. intros [_ H]. apply H. left.
      * intros x. rewrite !elem_of_cons, Hin, elem_of_cons. split.
        -- intros [->|[H1 H2]]; [auto|]. split; [auto|]. intros H. apply H2. now right.
        -- intros [[->|H1] H2]; [auto|].
           destruct (decide (x = y)) as [->|Hne]; [auto|].
           right. split; [exact H1|]. intros [?|?]; contradiction.
Qed.

Lemma all_chars_rev_app (p : ascii -> bool) (s acc : string) :
  all_chars p (String.rev_app s acc) = all_chars p s && all_chars p acc.
Proof.
  revert acc. induction s as [|c s IH]; intros acc; [reflexivity|].
  cbn [String.rev_app all_chars]. rewrite IH. cbn [all_chars].
  destruct (p c), (all_chars p s), (all_chars p acc); reflexivity.
Qed.

Lemma all_chars_rev (p : ascii -> bool) (s : string) :
  all_chars p (String.rev s) = all_chars p s.
Proof. unfold String.rev. rewrite all_chars_rev_app. cbn. apply andb_true_r. Qed.

Lemma rev_nonempty (c : ascii) (w : string) : String.rev (String c w) <> "".
Proof.
  intros H. apply (f_equal String.rev) in H. rewrite rev_involutive in H.
  discriminate H.
Qed.

Lemma scan_tags_words (st : TagScan) (s : string) :
  word_state st ->
  Forall (fun t => t <> "" /\ all_chars Js.is_word t = true) (scan_tags st s).
Proof.
  assert (Hflush : forall st0, word_state st0 ->
            Forall (fun t => t <> "" /\ all_chars Js.is_word t = true)
                   match st0 with TagWord w => [String.rev w] | _ => [] end).
  { intros [| |w] H; try constructor; [|constructor].
    destruct H as [Hne Hall]. split.
    - destruct w; [contradiction | apply rev_nonempty].
    - now rewrite all_chars_rev. }
  revert st. induction s as [|c s IH]; intros st Hst; cbn [scan_tags].
  - now apply Hflush.
  - destruct (Ascii.eqb c "#").
    + apply Forall_app. split; [now apply Hflush | now apply IH].
    + destruct (Js.is_word c) eqn:Ew.
      * destruct st as [| |w]; apply IH; cbn [word_state all_chars]; try exact I.
        -- split; [discriminate | now rewrite Ew].
        -- destruct Hst as [_ Hall]. split; [discriminate | now rewrite Ew, Hall].
      * apply Forall_app. split; [now apply Hflush | now apply IH].
Qed.

Lemma lower_char_word (c : ascii) :
  Js.is_word c = true ->
  Js.is_word (Js.lower_char c) = true
  /\ Ascii.eqb (Js.lower_char (Js.lower_char c)) (Js.lower_char c) = true.
Proof.
  destruct c as [[] [] [] [] [] [] [] []]; intros H;
    try discriminate H; split; reflexivity.
Qed.

Lemma toLowerCase_tag (t : string) :
  t <> "" -> all_chars Js.is_word t = true -> is_tag (Js.toLowerCase t) = true.
Proof.
  intros Hne Hall. unfold is_tag. apply andb_true_iff. split.
  - destruct t; [contradiction | reflexivity].
  - clear Hne. induction t as [|c t IH]; [reflexivity|].
    cbn [all_chars Js.toLowerCase] in *. apply andb_true_iff in Hall as [Hc Ht].
    destruct (lower_char_word c Hc) as [-> ->]. now rewrite IH.
Qed.

(** X14.  The tags [extractTags] returns are pairwise distinct, and each
    is a non-empty run of word characters in lower case. *)
Theorem extractTags_wellformed (text : string) :
  NoDup (extractTags text)
  /\ Forall (fun tag => is_tag tag = true) (extractTags text).
Proof.
  unfold extractTags.
  destruct (dedupe_spec [] (List.map Js.toLowerCase (scan_tags TagIdle text)))
    as [Hnd Hin].
  split; [exact Hnd|]. apply Forall_forall. intros tag Htag.
  apply Hin in Htag as [Htag _].
  apply list_elem_of_In, in_map_iff in Htag as (t & <- & Ht).
  pose proof (scan_tags_words TagIdle text I) as Hwords.
  rewrite Forall_forall in Hwords.
  destruct (Hwords t) as [Hne Hall]; [now apply list_elem_of_In|].
  now apply toLowerCase_tag.
Qed.

Lemma nonspace_prefix_no_space (s : string) :
  all_chars (fun c => negb (Js.is_space c)) (nonspace_prefix s) = true.
Proof.
  induction s as [|c s IH]; [reflexivity|]. cbn [nonspace_prefix].
  destruct (Js.is_space c) eqn:E; [reflexivity|].
  cbn [all_chars]. now rewrite E, IH.
Qed.

Lemma startsWith_nonspace_prefix (p s : string) :
  all_chars (fun c => negb (Js.is_space c)) p = true ->
  Js.startsWith p s = true -> Js.startsWith p (nonspace_prefix s) = true.
Proof.
  revert s. induction p as [|a p IH]; intros s Hp Hs; [reflexivity|].
  destruct s as [|c s]; cbn [Js.startsWith] in Hs; [discriminate|].
  destruct (Ascii.eqb a c) eqn:E; [|discriminate].
  apply Ascii.eqb_eq in E. subst c.
  cbn [all_chars] in Hp. apply andb_true_iff in Hp as [Ha Hp].
  apply negb_true_iff in Ha. cbn [nonspace_prefix]. rewrite Ha.
  cbn [Js.startsWith]. rewrite Ascii.eqb_refl. now apply IH.
Qed.

Lemma link_starts_prefix (s : string) :
  link_starts s = true -> is_link (nonspace_prefix s) = true.
Proof.
  unfold link_starts, is_link. intros H.
  rewrite nonspace_prefix_no_space, andb_true_r.
  apply orb_true_iff in H as [H|H]; apply andb_true_iff in H as [H _];
    apply orb_true_iff; [left|right];
    (apply startsWith_nonspace_prefix; [reflexivity | exact H]).
Qed.

Lemma link_starts_nonspace (c : ascii) (s : string) :
  link_starts (String c s) = true -> Js.is_space c = false.
Proof.
  unfold link_starts. intros H.
  apply orb_true_iff in H as [H|H]; apply andb_true_iff in H as [H _];
    cbn [Js.startsWith] in H;
    (destruct (Ascii.eqb "h" c) eqn:E; [|discriminate]);
    apply Ascii.eqb_eq in E; subst c; reflexivity.
Qed.

Lemma scan_links_links (s : string) :
  Forall (fun l => is_link l = true) (scan_links None s)
  /\ forall w, exists rest,
       scan_links (Some w) s = (String.rev w +:+ nonspace_prefix s) :: rest
       /\ Forall (fun l => is_link l = true) rest.
Proof.
  induction s as [|c s [IHnone IHsome]].
  - split; [constructor|]. intros w. exists []. cbn [scan_links nonspace_prefix].
    rewrite append_empty_r. split; [reflexivity | constructor].
  - split.
    + cbn [scan_links]. destruct (link_starts (String c s)) eqn:E; [|exact IHnone].
      destruct (IHsome (String c "")) as (rest & -> & Hrest).
      constructor; [|exact Hrest].
      pose proof (link_starts_prefix _ E) as Hlink.
      cbn [nonspace_prefix] in Hlink. now rewrite (link_starts_nonspace _ _ E) in Hlink.
    + intros w. cbn [scan_links nonspace_prefix].
      destruct (Js.is_space c).
      * exists (scan_links None s). rewrite append_empty_r. split; [reflexivity | exact IHnone].
      * destruct (IHsome (String c w)) as (rest & -> & Hrest).
        exists rest. split; [|exact Hrest]. f_equal.
        change (String c w) with (String c "" +:+ w).
        rewrite rev_append, append_assoc. reflexivity.
Qed.

(** X15.  The links [extractLinks] returns are pairwise distinct, and
    each starts with [http://] or [https://] and contains no white
    space. *)
Theorem extractLinks_wellformed (text : string) :
  NoDup (extractLinks text)
  /\ Forall (fun link => is_link link = true) (extractLinks text).
Proof.
  unfold extractLinks.
  destruct (dedupe_spec [] (scan_links None text)) as [Hnd Hin].
  split; [exact Hnd|]. apply Forall_forall. intros link Hlink.
  apply Hin in Hlink as [Hlink _].
  destruct (scan_links_links text) as [Hall _].
  rewrite Forall_forall in Hall. now apply Hall.
Qed.

Lemma typePrefix_length (t : NoteType) : (String.length (typePrefix t) <= 13)%nat.
Proof. destruct t; cbn; lia. Qed.

(** X16.  A generated title is the label of the note type, a colon, and
    the first 50 characters of the first sentence (or of the first line
    when the text starts with a sentence mark), with an ellipsis exactly
    when that sentence has 50 characters or more; it is never longer
    than 68 characters. *)
Theorem generateTitle_shape (text : string) (noteType : option NoteType) :
  generateTitle text noteType =
    typePrefix (default other noteType) +:+ ": "
    +:+ Js.take 50 (title_source text)
    +:+ (if (50 <=? String.length (title_source text))%nat then "..." else "")
  /\ (String.length (generateTitle text noteType) <= 68)%nat.
Proof.
  assert (Heq : generateTitle text noteType =
    typePrefix (default other noteType) +:+ ": "
    +:+ Js.take 50 (title_source text)
    +:+ (if (50 <=? String.length (title_source text))%nat then "..." else "")).
  { unfold generateTitle. fold (title_source text).
    rewrite slice_from_start by lia. change (Z.to_nat 50) with 50%nat.
    rewrite take_length. do 3 f_equal.
    destruct (50 <=? String.length (title_source text))%nat eqn:E.
    - apply Nat.leb_le in E. rewrite Nat.min_l by exact E. reflexivity.
    - apply Nat.leb_gt in E. rewrite Nat.min_r by lia.
      destruct (50 <=? Z.of_nat (String.length (title_source text))) eqn:E'; [|reflexivity].
      apply Z.leb_le in E'. lia. }
  split; [exact Heq|]. rewrite Heq, !append_length, take_length.
  pose proof (typePrefix_length (default other noteType)).
  destruct (50 <=? String.length (title_source text))%nat; cbn [String.length]; lia.
Qed.

(** [split(/\s+/)] and the count of the non-empty pieces, against the
    count of the word starts. *)
Lemma split_ws_words (s : string) :
  exists p ps,
    Js.split_ws s = p :: ps
    /\ (match s with
        | EmptyString => True
        | String c _ => Js.is_space c = true
        end -> p = "")
    /\ length (List.filter (fun word => 0 <? Z.of_nat (String.length word)) ps)
       = count_words false s
    /\ length (List.filter (fun word => 0 <? Z.of_nat (String.length word)) (p :: ps))
       = count_words true s.
Proof.
  induction s as [|c s (p & ps & Hsplit & Hhead & Hrest & Hall)].
  - exists "", []. repeat split.
  - cbn [Js.split_ws count_words]. rewrite Hsplit.
    destruct (Js.is_space c) eqn:Ec.
    + destruct s as [|d s].
      * inversion Hsplit. subst p ps. exists "", [""]. repeat split.
      * destruct (Js.is_space d) eqn:Ed.
        -- exists p, ps. split; [reflexivity|]. split; [intros _; exact (Hhead eq_refl)|].
           split; [|exact Hall].
           rewrite <- Hall, (Hhead eq_refl). reflexivity.
        -- exists "", (p :: ps). split; [reflexivity|]. split; [reflexivity|].
           split; exact Hall.
    + exists (String c p), ps. split; [reflexivity|].
      split; [intros H; discriminate H|]. split; [exact Hrest|].
      cbn [List.filter String.length].
      destruct (0 <? Z.of_nat (S (String.length p))) eqn:E.
      * cbn [length]. now rewrite Hrest.
      * apply Z.ltb_ge in E. lia.
Qed.

Lemma count_words_none (s : string) :
  count_words true s = O <-> all_chars Js.is_space s = true.
Proof.
  induction s as [|c s IH]; [split; reflexivity|].
  cbn [count_words all_chars]. destruct (Js.is_space c); cbn [andb].
  - exact IH.
  - split; intros H; discriminate H.
Qed.

Lemma word_count_counts_words_aux (text : string) :
  word_count_of text = Z.of_nat (count_words true text)
  /\ (word_count_of text = 0 <-> all_chars Js.is_space text = true).
Proof.
  assert (Hcount : word_count_of text = Z.of_nat (count_words true text)).
  { unfold word_count_of.
    destruct (split_ws_words text) as (p & ps & -> & _ & _ & ->). reflexivity. }
  split; [exact Hcount|]. rewrite Hcount, <- count_words_none. lia.
Qed.

(** X17.  The word count of a note is the number of its words: the
    places where a character that is not white space starts the text or
    follows white space.  It is 0 exactly for the empty text and the
    texts of white space only. *)
Theorem word_count_counts_words (text : string) :
  word_count_of text = Z.of_nat (count_words true text)
  /\ (word_count_of text = 0 <-> all_chars Js.is_space text = true).
Proof. apply word_count_counts_words_aux. Qed.

(** X18.  [createCustomMetadata] leaves its own results alone: applied
    to a record of the strings it returned, it returns the same
    strings. *)
Theorem createCustomMetadata_idempotent (metadata : gmap string JsVal) :
  createCustomMetadata (JStr <$> createCustomMetadata metadata)
  = createCustomMetadata metadata.
Proof.
  apply map_eq. intros k.
  rewrite (createCustomMetadata_lookup (JStr <$> _)), lookup_fmap.
  destruct (createCustomMetadata metadata !! k); reflexivity.
Qed.

(* ===================================================================== *)
(** * Further properties: the note tools *)
(* ===================================================================== *)

Lemma note_path_not_sidecar_path (user id : string) :
  getNotePath user id <> getMetadataPath user id.
Proof.
  unfold getNotePath, getMetadataPath. intros H.
  apply (f_equal String.length) in H. rewrite !append_length in H.
  cbn [String.length] in H. lia.
Qed.

(** X19.  When both writes are served, [create_note] stores the text as
    a markdown object at [user/<id>.md] and a JSON object without custom
    metadata at [user/.metadata/<id>.json], by these two calls and no
    other, and changes nothing else in the bucket; the counts it reports
    are the length of the text and the number of its words. *)
Theorem create_note_stores_both
    (JSON_stringify : JsVal -> string) (toISOString : Z -> string)
    (env : Env) (props : Props) (uuid : string) (timestamp : Z)
    (args : CreateArgs) (w : World) :
  (forall key value, NOTES_rejects env (R2Put key value) = None) ->
  exists resp w' primary sidecar,
    create_note JSON_stringify toISOString env props uuid timestamp args w
      = (Resolved resp, w')
    /\ objects w' =
       <[ getMetadataPath (email props) uuid := sidecar ]>
         (<[ getNotePath (email props) uuid := primary ]> (objects w))
    /\ calls w' = calls w ++ [ R2Put (getNotePath (email props) uuid) primary;
                               R2Put (getMetadataPath (email props) uuid) sidecar ]
    /\ objects w' !! getNotePath (email props) uuid = Some primary
    /\ objects w' !! getMetadataPath (email props) uuid = Some sidecar
    /\ body primary = arg_text args /\ contentType primary = "text/markdown"
    /\ contentType sidecar = "application/json" /\ customMetadata sidecar = None
    /\ char_count (resp_metadata resp) = Z.of_nat (String.length (arg_text args))
    /\ word_count (resp_metadata resp) = Z.of_nat (count_words true (arg_text args)).
Proof.
  intros Hserved.
  unfold create_note, bind, NOTES_put, r2_call, ret.
  rewrite !Hserved. cbn [objects calls record_call].
  eexists _, _, _, _. split; [reflexivity|].
  cbn [objects calls]. fold (getNotePath (email props) uuid).
  fold (getMetadataPath (email props) uuid).
  split; [reflexivity|]. split; [now rewrite <- app_assoc|].
  split.
  { rewrite lookup_insert_ne by (apply not_eq_sym, note_path_not_sidecar_path).
    apply lookup_insert_eq. }
  split; [apply lookup_insert_eq|].
  repeat (split; [reflexivity|]).
  cbn [resp_metadata word_count].
  destruct (word_count_counts_words_aux (arg_text args)) as [H _]. exact H.
Qed.

Lemma create_note_stores_both_witness :
  exists resp w' primary sidecar,
    create_note (fun _ => "{}") (fun _ => "2024-10-04T00:00:00.000Z") serving_env ann
      sample_id 1728000000000 (mkCreateArgs "Buy milk" None (Some task)) empty_world
      = (Resolved resp, w')
    /\ objects w' =
       <[ getMetadataPath (email ann) sample_id := sidecar ]>
         (<[ getNotePath (email ann) sample_id := primary ]> (objects empty_world))
    /\ calls w' = calls empty_world
                  ++ [ R2Put (getNotePath (email ann) sample_id) primary;
                       R2Put (getMetadataPath (email ann) sample_id) sidecar ]
    /\ objects w' !! getNotePath (email ann) sample_id = Some primary
    /\ objects w' !! getMetadataPath (email ann) sample_id = Some sidecar
    /\ body primary = arg_text (mkCreateArgs "Buy milk" None (Some task))
    /\ contentType primary = "text/markdown"
    /\ contentType sidecar = "application/json" /\ customMetadata sidecar = None
    /\ char_count (resp_metadata resp)
       = Z.of_nat (String.length (arg_text (mkCreateArgs "Buy milk" None (Some task))))
    /\ word_count (resp_metadata resp)
       = Z.of_nat (count_words true (arg_text (mkCreateArgs "Buy milk" None (Some task)))).
Proof.
  apply (create_note_stores_both (fun _ => "{}") (fun _ => "2024-10-04T00:00:00.000Z")
           serving_env ann sample_id 1728000000000
           (mkCreateArgs "Buy milk" None (Some task)) empty_world).
  intros key value. reflexivity.
Defined.

(** X20.  The two writes of [create_note] are not atomic.  When the
    write of the note is served and the write of the sidecar rejects,
    the handler rejects with that error, and the note stays stored
    without a sidecar: the sidecar key holds what it held before. *)
Theorem create_note_sidecar_write_fails
    (JSON_stringify : JsVal -> string) (toISOString : Z -> string)
    (env : Env) (props : Props) (uuid : string) (timestamp : Z)
    (args : CreateArgs) (w : World) (e : Thrown) :
  (forall value, NOTES_rejects env (R2Put (getNotePath (email props) uuid) value) = None) ->
  (forall value,
     NOTES_rejects env (R2Put (getMetadataPath (email props) uuid) value) = Some e) ->
  exists w' primary,
    create_note JSON_stringify toISOString env props uuid timestamp args w
      = (Rejected e, w')
    /\ objects w' = <[ getNotePath (email props) uuid := primary ]> (objects w)
    /\ body primary = arg_text args
    /\ objects w' !! getNotePath (email props) uuid = Some primary
    /\ objects w' !! getMetadataPath (email props) uuid
       = objects w !! getMetadataPath (email props) uuid.
Proof.
  intros Hnote Hside.
  unfold create_note, bind, NOTES_put, r2_call, ret.
  fold (getNotePath (email props) uuid). fold (getMetadataPath (email props) uuid).
  rewrite Hnote, Hside. cbn [objects calls record_call].
  eexists _, _. split; [reflexivity|]. cbn [objects].
  split; [reflexivity|]. split; [reflexivity|].
  split; [apply lookup_insert_eq|].
  apply lookup_insert_ne, note_path_not_sidecar_path.
Qed.

Lemma create_note_sidecar_write_fails_witness :
  exists w' primary,
    create_note (fun _ => "{}") (fun _ => "2024-10-04T00:00:00.000Z")
      sidecar_failing_env ann sample_id 1728000000000
      (mkCreateArgs "Buy milk" None (Some task)) empty_world
      = (Rejected (ErrorObj "write failed"), w')
    /\ objects w' = <[ getNotePath (email ann) sample_id := primary ]> (objects empty_world)
    /\ body primary = arg_text (mkCreateArgs "Buy milk" None (Some task))
    /\ objects w' !! getNotePath (email ann) sample_id = Some primary
    /\ objects w' !! getMetadataPath (email ann) sample_id
       = objects empty_world !! getMetadataPath (email ann) sample_id.
Proof.
  apply (create_note_sidecar_write_fails (fun _ => "{}")
           (fun _ => "2024-10-04T00:00:00.000Z") sidecar_failing_env ann sample_id
           1728000000000 (mkCreateArgs "Buy milk" None (Some task)) empty_world
           (ErrorObj "write failed")).
  - intros value. reflexivity.
  - intros value. reflexivity.
Defined.

(** The inner [try] of [delete_note] always gives a title, by one [get]
    on the sidecar: the title of the sidecar, or [Unknown] when the
    [get] rejects, the sidecar is missing or it does not parse. *)
Lemma read_note_title_run (JSON_parse : string -> option JsVal) (env : Env)
    (metadataPath : string) (w : World) :
  read_note_title JSON_parse env metadataPath w =
    (Resolved
       match NOTES_rejects env (R2Get metadataPath) with
       | Some _ => JStr "Unknown"
       | None => sidecar_title JSON_parse (objects w !! metadataPath)
       end,
     record_call (R2Get metadataPath) w).
Proof.
  unfold read_note_title, try_catch, bind, NOTES_get, r2_call, ret, throw, sidecar_title.
  destruct (NOTES_rejects env (R2Get metadataPath)); [reflexivity|].
  cbn [objects record_call].
  destruct (objects w !! metadataPath) as [obj|]; cbn [mbind option_bind]; [|reflexivity].
  destruct (JSON_parse (body obj)) as [[| | | | | | |fields]|]; try reflexivity.
  cbn [prop_get]. destruct (assoc_get "title" fields) as [t|]; reflexivity.
Qed.

(** What [delete_note] does when the note exists: one [get] for the
    title, then both deletes. *)
Lemma delete_note_present
    (JSON_parse : string -> option JsVal) (env : Env) (props : Props)
    (note_id : string) (w : World) (obj : R2Object) :
  objects w !! getNotePath (email props) note_id = Some obj ->
  NOTES_rejects env (R2Head (getNotePath (email props) note_id)) = None ->
  let notePath := getNotePath (email props) note_id in
  let metadataPath := getMetadataPath (email props) note_id in
  let noteTitle :=
    match NOTES_rejects env (R2Get metadataPath) with
    | Some _ => JStr "Unknown"
    | None => sidecar_title JSON_parse (objects w !! metadataPath)
    end in
  let after_note :=
    match NOTES_rejects env (R2Delete notePath) with
    | Some _ => objects w
    | None => delete notePath (objects w)
    end in
  let after_both :=
    match NOTES_rejects env (R2Delete metadataPath) with
    | Some _ => after_note
    | None => delete metadataPath after_note
    end in
  delete_note JSON_parse env props note_id w =
    (Resolved
       match NOTES_rejects env (R2Delete notePath),
             NOTES_rejects env (R2Delete metadataPath) with
       | None, None =>
           NoteDeleted note_id noteTitle (email props) [notePath; metadataPath]
             ("Successfully deleted note: " +:+ dq +:+ js_String noteTitle
              +:+ dq +:+ " (" +:+ note_id +:+ ")")
       | Some e, _ | None, Some e =>
           DeletionFailed note_id (error_message e)
             ("Failed to delete note " +:+ note_id +:+ ": " +:+ error_message e)
       end,
     mkWorld after_both
       (calls w ++ [R2Head notePath; R2Get metadataPath;
                    R2Delete notePath; R2Delete metadataPath])).
Proof.
  intros Hpresent Hhead. cbv zeta.
  unfold delete_note, try_catch. unfold bind at 1.
  unfold NOTES_head, r2_call.
  fold (getNotePath (email props) note_id).
  fold (getMetadataPath (email props) note_id).
  rewrite Hhead. cbn [objects record_call]. rewrite Hpresent.
  unfold bind at 1. rewrite read_note_title_run. cbn [objects record_call calls].
  unfold bind, promise_all2, NOTES_delete, r2_call, ret.
  cbn [objects record_call calls].
  destruct (NOTES_rejects env (R2Delete (getNotePath (email props) note_id))) as [e1|],
           (NOTES_rejects env (R2Delete (getMetadataPath (email props) note_id))) as [e2|];
    unfold record_call; cbn [objects calls]; rewrite <- ?app_assoc; reflexivity.
Qed.




(** X23.  When the note exists and every call is served, [delete_note]
    removes the note and its sidecar and nothing else, by one [head], one
    [get] and the two deletes, and answers with the success payload; the
    title in it is that of the sidecar, or [Unknown] when the sidecar is
    missing or does not parse, which does not stop the deletion. *)
Theorem delete_note_deletes_both
    (JSON_parse : string -> option JsVal) (env : Env) (props : Props)
    (note_id : string) (w : World) (obj : R2Object) :
  objects w !! getNotePath (email props) note_id = Some obj ->
  (forall c, NOTES_rejects env c = None) ->
  let notePath := getNotePath (email props) note_id in
  let metadataPath := getMetadataPath (email props) note_id in
  let noteTitle := sidecar_title JSON_parse (objects w !! metadataPath) in
  exists message w',
    delete_note JSON_parse env props note_id w =
      (Resolved (NoteDeleted note_id noteTitle (email props)
                   [notePath; metadataPath] message), w')
    /\ objects w' = delete metadataPath (delete notePath (objects w))
    /\ objects w' !! notePath = None
    /\ objects w' !! metadataPath = None
    /\ calls w' = calls w ++ [R2Head notePath; R2Get metadataPath;
                              R2Delete notePath; R2Delete metadataPath].
Proof.
  intros Hobj Hserved. cbv zeta.
  rewrite (delete_note_present _ _ _ _ _ _ Hobj (Hserved _)). cbv zeta.
  rewrite !Hserved. eexists _, _. split; [reflexivity|]. cbn [objects calls].
  split; [reflexivity|]. split; [|split; [|reflexivity]].
  - rewrite lookup_delete_ne by (apply not_eq_sym, note_path_not_sidecar_path).
    apply lookup_delete_eq.
  - apply lookup_delete_eq.
Qed.

Lemma delete_note_deletes_both_witness :
  let notePath := getNotePath (email ann) sample_id in
  let metadataPath := getMetadataPath (email ann) sample_id in
  let noteTitle :=
    sidecar_title (fun _ => Some (JObj [("title", JStr "Task: Buy milk")]))
      (objects stocked_world !! metadataPath) in
  exists message w',
    delete_note (fun _ => Some (JObj [("title", JStr "Task: Buy milk")]))
      serving_env ann sample_id stocked_world =
      (Resolved (NoteDeleted sample_id noteTitle (email ann)
                   [notePath; metadataPath] message), w')
    /\ objects w' = delete metadataPath (delete notePath (objects stocked_world))
    /\ objects w' !! notePath = None
    /\ objects w' !! metadataPath = None
    /\ calls w' = calls stocked_world
                  ++ [R2Head notePath; R2Get metadataPath;
                      R2Delete notePath; R2Delete metadataPath].
Proof.
  apply (delete_note_deletes_both
           (fun _ => Some (JObj [("title", JStr "Task: Buy milk")]))
           serving_env ann sample_id stocked_world (titled "Task: Buy milk")).
  - reflexivity.
  - intros c. reflexivity.
Defined.

(** X24.  The two deletes of [delete_note] are not atomic.  When the
    delete of the note rejects and the delete of the sidecar is served,
    the handler answers with the failure payload carrying that error,
    the sidecar is gone and the note is still there. *)
Theorem delete_note_partial_failure
    (JSON_parse : string -> option JsVal) (env : Env) (props : Props)
    (note_id : string) (w : World) (obj : R2Object) (e : Thrown) :
  objects w !! getNotePath (email props) note_id = Some obj ->
  NOTES_rejects env (R2Head (getNotePath (email props) note_id)) = None ->
  NOTES_rejects env (R2Delete (getNotePath (email props) note_id)) = Some e ->
  NOTES_rejects env (R2Delete (getMetadataPath (email props) note_id)) = None ->
  exists w',
    delete_note JSON_parse env props note_id w =
      (Resolved
         (DeletionFailed note_id (error_message e)
            ("Failed to delete note " +:+ note_id +:+ ": " +:+ error_message e)),
       w')
    /\ objects w' = delete (getMetadataPath (email props) note_id) (objects w)
    /\ objects w' !! getNotePath (email props) note_id = Some obj
    /\ objects w' !! getMetadataPath (email props) note_id = None.
Proof.
  intros Hobj Hhead Hnote Hside.
  rewrite (delete_note_present _ _ _ _ _ _ Hobj Hhead). cbv zeta.
  rewrite Hnote, Hside. eexists. split; [reflexivity|]. cbn [objects].
  split; [reflexivity|]. split.
  - rewrite lookup_delete_ne by (apply not_eq_sym, note_path_not_sidecar_path).
    exact Hobj.
  - apply lookup_delete_eq.
Qed.

Lemma delete_note_partial_failure_witness :
  exists w',
    delete_note (fun _ => None) note_delete_failing_env ann sample_id stocked_world =
      (Resolved
         (DeletionFailed sample_id (error_message (ErrorObj "delete failed"))
            ("Failed to delete note " +:+ sample_id +:+ ": "
             +:+ error_message (ErrorObj "delete failed"))),
       w')
    /\ objects w' = delete (getMetadataPath (email ann) sample_id) (objects stocked_world)
    /\ objects w' !! getNotePath (email ann) sample_id = Some (titled "Task: Buy milk")
    /\ objects w' !! getMetadataPath (email ann) sample_id = None.
Proof.
  apply (delete_note_partial_failure (fun _ => None) note_delete_failing_env ann
           sample_id stocked_world (titled "Task: Buy milk") (ErrorObj "delete failed")).
  - reflexivity.
  - reflexivity.
  - reflexivity.
  - reflexivity.
Defined.

(** X21.  Creating a note and then deleting it, with every call served,
    leaves neither the note nor the sidecar in the bucket and every other
    object as it was: the deletion answers with the success payload. *)
Theorem create_then_delete
    (JSON_parse : string -> option JsVal) (JSON_stringify : JsVal -> string)
    (toISOString : Z -> string) (env : Env) (props : Props) (uuid : string)
    (timestamp : Z) (args : CreateArgs) (w : World) :
  (forall c, NOTES_rejects env c = None) ->
  exists created w1 deleted w2,
    create_note JSON_stringify toISOString env props uuid timestamp args w
      = (Resolved created, w1)
    /\ delete_note JSON_parse env props (resp_id created) w1 = (Resolved deleted, w2)
    /\ success deleted = true
    /\ objects w2 !! getNotePath (email props) uuid = None
    /\ objects w2 !! getMetadataPath (email props) uuid = None
    /\ objects w2 = delete (getMetadataPath (email props) uuid)
                      (delete (getNotePath (email props) uuid) (objects w)).
Proof.
  intros Hserved.
  unfold create_note, bind, NOTES_put, r2_call, ret.
  rewrite !Hserved. cbn [objects calls record_call].
  fold (getNotePath (email props) uuid). fold (getMetadataPath (email props) uuid).
  eexists _, _. eexists. eexists. split; [reflexivity|]. cbn [resp_id].
  match goal with
  | |- delete_note _ _ _ _ ?w1 = _ /\ _ =>
      assert (Hobj : exists obj, objects w1 !! getNotePath (email props) uuid = Some obj)
  end.
  { eexists. cbn [objects].
    rewrite lookup_insert_ne by (apply not_eq_sym, note_path_not_sidecar_path).
    apply lookup_insert_eq. }
  destruct Hobj as [obj Hobj].
  rewrite (delete_note_present _ _ _ _ _ _ Hobj (Hserved _)). cbv zeta.
  rewrite !Hserved. split; [reflexivity|]. cbn [objects success].
  split; [reflexivity|].
  assert (Hgone : forall (a b : string) (x y : R2Object) (m : gmap string R2Object),
            delete b (delete a (<[b:=y]> (<[a:=x]> m))) = delete b (delete a m)).
  { intros a b x y m. apply map_eq. intros k.
    rewrite !lookup_delete. repeat case_decide; try reflexivity.
    now rewrite !lookup_insert_ne by congruence. }
  rewrite Hgone. split; [|split; [|reflexivity]].
  - rewrite lookup_delete_ne by (apply not_eq_sym, note_path_not_sidecar_path).
    apply lookup_delete_eq.
  - apply lookup_delete_eq.
Qed.

Lemma create_then_delete_witness :
  exists created w1 deleted w2,
    create_note (fun _ => "{}") (fun _ => "2024-10-04T00:00:00.000Z") serving_env ann
      sample_id 1728000000000 (mkCreateArgs "Buy milk" None (Some task)) empty_world
      = (Resolved created, w1)
    /\ delete_note (fun _ => None) serving_env ann (resp_id created) w1
       = (Resolved deleted, w2)
    /\ success deleted = true
    /\ objects w2 !! getNotePath (email ann) sample_id = None
    /\ objects w2 !! getMetadataPath (email ann) sample_id = None
    /\ objects w2 = delete (getMetadataPath (email ann) sample_id)
                      (delete (getNotePath (email ann) sample_id) (objects empty_world)).
Proof.
  apply (create_then_delete (fun _ => None) (fun _ => "{}")
           (fun _ => "2024-10-04T00:00:00.000Z") serving_env ann sample_id
           1728000000000 (mkCreateArgs "Buy milk" None (Some task)) empty_world).
  intros c. reflexivity.
Defined.

(* ===================================================================== *)
(** * Further properties: the OAuth callback *)
(* ===================================================================== *)

Lemma fetchUpstreamAuthToken_gives_up (up : Google.Upstream)
    (clientId clientSecret : string) (code : option string)
    (redirectUri upstreamUrl grantType : string) (r : Google.Response) :
  Google.fetchUpstreamAuthToken up clientId clientSecret code redirectUri
    upstreamUrl grantType = Resolved (inr r) ->
  Google.status r = 400 \/ Google.status r = 500.
Proof.
  unfold Google.fetchUpstreamAuthToken, Google.andThen.
  destruct code as [code|]; [|intros H; inversion H; now left].
  destruct (String.eqb code ""); [intros H; inversion H; now left|].
  destruct (Google.fetch_token up _) as [resp|e]; [|discriminate].
  destruct (negb (Google.ok resp)); [intros H; inversion H; now right|].
  destruct (Google.json resp); discriminate.
Qed.

(** Before the profile is fetched the callback gives up only with a
    client or server error. *)
Lemma callback_fetch_gives_up (cfg : Google.Config) (up : Google.Upstream)
    (req : Google.Request) (r : Google.Response) :
  Google.callback_fetch cfg up req = Resolved (Google.GiveUp r) ->
  Google.status r = 400 \/ Google.status r = 500.
Proof.
  unfold Google.callback_fetch.
  destruct (Google.query_state req) as [rawState|]; [|intros H; inversion H; now left].
  destruct (String.eqb rawState ""); [intros H; inversion H; now left|].
  match goal with
  | |- context [match ?d with inl _ => _ | inr _ => _ end] => destruct d as [info|r0] eqn:Ed
  end.
  2:{ intros H. inversion H. subst r.
      destruct (Google.andThen _ _) in Ed; [discriminate|].
      destruct (Google.decode_state up rawState) in Ed; [discriminate|].
      inversion Ed. now left. }
  destruct (negb (truthy_str (Google.clientId info))); [intros H; inversion H; now left|].
  destruct (negb (truthy_str (Google.query_code req))); [intros H; inversion H; now left|].
  unfold Google.andThen at 1.
  destruct (Google.fetchUpstreamAuthToken _ _ _ _ _ _ _) as [[tok|r1]|e] eqn:Etok;
    [| |discriminate].
  - unfold Google.andThen.
    destruct (Google.fetch_userinfo up _) as [resp|e]; [|discriminate].
    destruct (negb (Google.ok resp)); [intros H; inversion H; now right|].
    destruct (Google.json resp); discriminate.
  - intros H. inversion H. subst r1.
    eapply fetchUpstreamAuthToken_gives_up. exact Etok.
Qed.

(** What the callback does, by the outcome of its first part. *)
Lemma callback_cases (cfg : Google.Config) (up : Google.Upstream) (req : Google.Request) :
  (exists e, Google.callback_fetch cfg up req = Rejected e
             /\ Google.callback cfg up req = (Rejected e, []))
  \/ (exists r, Google.callback_fetch cfg up req = Resolved (Google.GiveUp r)
                /\ Google.callback cfg up req = (Resolved r, [])
                /\ (Google.status r = 400 \/ Google.status r = 500))
  \/ (exists info tok prof,
        Google.callback_fetch cfg up req = Resolved (Google.Profile info tok prof)
        /\ ((Google.domain_rejected cfg (Google.hd prof) = true
             /\ exists page,
                  Google.callback cfg up req
                  = (Resolved (Google.mkResponse 403 (Some "text/html") None page), []))
            \/ (Google.domain_rejected cfg (Google.hd prof) = false
                /\ Google.callback cfg up req
                   = (Google.andThen (Google.completeAuthorization up (grant_for info tok prof))
                        (fun redirectTo => Google.redirect up redirectTo),
                      [grant_for info tok prof])))).
Proof.
  unfold Google.callback.
  destruct (Google.callback_fetch cfg up req) as [[r|info tok prof]|e] eqn:E.
  - right. left. exists r. repeat split. eapply callback_fetch_gives_up. exact E.
  - right. right. exists info, tok, prof. split; [reflexivity|].
    unfold Google.callback_finish.
    destruct (Google.domain_rejected cfg (Google.hd prof)).
    + left. split; [reflexivity|]. eexists. reflexivity.
    + right. split; reflexivity.
  - left. exists e. split; reflexivity.
Qed.

Lemma domain_accepted (cfg : Google.Config) (d : string) (hd : option string) :
  Google.GOOGLE_HOSTED_DOMAIN cfg = Some d -> d <> "" ->
  Google.domain_rejected cfg hd = false -> hd = Some d.
Proof.
  intros Hcfg Hd. unfold Google.domain_rejected. rewrite Hcfg.
  cbn [truthy_str]. apply String.eqb_neq in Hd. rewrite Hd. cbn [negb andb].
  intros H. apply orb_false_iff in H as [_ H].
  apply negb_false_iff, bool_decide_eq_true in H. exact H.
Qed.

(** X25.  With a hosted domain configured, every grant the callback asks
    for is for a fetched profile whose hosted-domain claim is that
    domain; the grant carries the e-mail address of the profile as login
    and as e-mail, and its identifier as user id; and there is no other
    grant in the same callback. *)
Theorem callback_grants_only_for_domain
    (cfg : Google.Config) (up : Google.Upstream) (req : Google.Request)
    (d : string) (g : Google.Grant) :
  Google.GOOGLE_HOSTED_DOMAIN cfg = Some d -> d <> "" ->
  g ∈ snd (Google.callback cfg up req) ->
  exists info tok prof,
    Google.callback_fetch cfg up req = Resolved (Google.Profile info tok prof)
    /\ Google.hd prof = Some d
    /\ snd (Google.callback cfg up req) = [g]
    /\ email (Google.grant_props g) = Google.user_email prof
    /\ login (Google.grant_props g) = Google.user_email prof
    /\ accessToken (Google.grant_props g) = tok
    /\ Google.grant_userId g = Google.user_id prof.
Proof.
  intros Hcfg Hd Hin.
  destruct (callback_cases cfg up req)
    as [(e & _ & Hrun) | [(r & _ & Hrun & _) | (info & tok & prof & Hfetch & Hrun)]].
  - rewrite Hrun in Hin. inversion Hin.
  - rewrite Hrun in Hin. inversion Hin.
  - destruct Hrun as [[_ (page & Hrun)] | [Hok Hrun]].
    + rewrite Hrun in Hin. inversion Hin.
    + rewrite Hrun in Hin |- *. cbn [snd] in *.
      apply list_elem_of_singleton in Hin. subst g.
      exists info, tok, prof. split; [exact Hfetch|].
      split; [eapply domain_accepted; eassumption|]. repeat split.
Qed.

Lemma callback_grants_only_for_domain_witness :
  exists info tok prof,
    Google.callback_fetch restricted_config ann_upstream eve_request
      = Resolved (Google.Profile info tok prof)
    /\ Google.hd prof = Some "example.com"
    /\ snd (Google.callback restricted_config ann_upstream eve_request)
       = [grant_for (Google.mkAuthRequest (Some "mcp-client") JNull) "ya29.token"
            ann_profile]
    /\ email (Google.grant_props
                (grant_for (Google.mkAuthRequest (Some "mcp-client") JNull)
                   "ya29.token" ann_profile)) = Google.user_email prof
    /\ login (Google.grant_props
                (grant_for (Google.mkAuthRequest (Some "mcp-client") JNull)
                   "ya29.token" ann_profile)) = Google.user_email prof
    /\ accessToken (Google.grant_props
                      (grant_for (Google.mkAuthRequest (Some "mcp-client") JNull)
                         "ya29.token" ann_profile)) = tok
    /\ Google.grant_userId
         (grant_for (Google.mkAuthRequest (Some "mcp-client") JNull)
            "ya29.token" ann_profile) = Google.user_id prof.
Proof.
  apply (callback_grants_only_for_domain restricted_config ann_upstream eve_request
           "example.com").
  - reflexivity.
  - discriminate.
  - apply list_elem_of_singleton. reflexivity.
Defined.

(** X26.  The callback redirects back to the client only with a grant:
    a response it answers has status 302 exactly when it asked for a
    grant, and otherwise has status 400, 403 or 500. *)
Theorem callback_redirects_iff_grant
    (cfg : Google.Config) (up : Google.Upstream) (req : Google.Request)
    (r : Google.Response) :
  fst (Google.callback cfg up req) = Resolved r ->
  (Google.status r = 302 <-> snd (Google.callback cfg up req) <> [])
  /\ (Google.status r = 302 \/ Google.status r = 400
      \/ Google.status r = 403 \/ Google.status r = 500).
Proof.
  intros Hr.
  destruct (callback_cases cfg up req)
    as [(e & _ & Hrun) | [(r0 & _ & Hrun & Hst) | (info & tok & prof & _ & Hrun)]].
  - rewrite Hrun in Hr. discriminate Hr.
  - rewrite Hrun in Hr |- *. cbn [fst snd] in *. inversion Hr. subst r0.
    split; [split; intros H|].
    + destruct Hst as [Hst|Hst]; rewrite Hst in H; discriminate H.
    + contradiction.
    + destruct Hst; auto.
  - destruct Hrun as [[_ (page & Hrun)] | [_ Hrun]];
      rewrite Hrun in Hr |- *; cbn [fst snd] in *.
    + inversion Hr. cbn [Google.status]. split; [split; intros H|].
      * discriminate H.
      * contradiction.
      * auto.
    + unfold Google.redirect, Google.andThen in Hr.
      destruct (Google.completeAuthorization up _) as [redirectTo|];
        [|discriminate Hr].
      destruct (Google.URL_href up redirectTo); [|discriminate Hr].
      inversion Hr. cbn [Google.status].
      split; [split; intros H; [discriminate | reflexivity]|]. now left.
Qed.

Lemma callback_redirects_iff_grant_witness :
  (Google.status ann_redirect = 302
   <-> snd (Google.callback restricted_config ann_upstream eve_request) <> [])
  /\ (Google.status ann_redirect = 302
      \/ Google.status ann_redirect = 400
      \/ Google.status ann_redirect = 403
      \/ Google.status ann_redirect = 500).
Proof.
  apply (callback_redirects_iff_grant restricted_config ann_upstream eve_request).
  reflexivity.
Defined.

(* ===================================================================== *)
(** * Further properties: the authorization URL *)
(* ===================================================================== *)

Lemma decode_unit (c : ascii) (fuel : nat) (rest : string) :
  form_decode_fuel (S fuel) (encode_unit c +:+ rest)
  = String c <$> form_decode_fuel fuel rest.
Proof. destruct c as [[] [] [] [] [] [] [] []]; reflexivity. Qed.

Lemma form_decode_fuel_encode (s : string) (fuel : nat) :
  (String.length s < fuel)%nat ->
  form_decode_fuel fuel (form_encode s) = Some s.
Proof.
  revert fuel. induction s as [|c s IH]; intros fuel Hfuel.
  - destruct fuel; [lia | reflexivity].
  - destruct fuel as [|fuel]; [lia|]. cbn [form_encode String.length] in *.
    rewrite decode_unit, IH by lia. reflexivity.
Qed.

Lemma encode_unit_length (c : ascii) : (1 <= String.length (encode_unit c))%nat.
Proof. destruct c as [[] [] [] [] [] [] [] []]; vm_compute; lia. Qed.

Lemma form_encode_length (s : string) :
  (String.length s <= String.length (form_encode s))%nat.
Proof.
  induction s as [|c s IH]; [reflexivity|]. cbn [form_encode String.length].
  rewrite append_length. pose proof (encode_unit_length c). lia.
Qed.

(** Decoding inverts the encoding. *)
Lemma form_decode_encode (s : string) : form_decode (form_encode s) = Some s.
Proof.
  unfold form_decode. apply form_decode_fuel_encode.
  pose proof (form_encode_length s). lia.
Qed.

Lemma all_chars_append (p : ascii -> bool) (a b : string) :
  all_chars p (a +:+ b) = all_chars p a && all_chars p b.
Proof.
  induction a as [|c a IH]; push_append; [reflexivity|].
  cbn [all_chars]. rewrite IH. apply andb_assoc.
Qed.

Lemma encode_unit_safe (c : ascii) : all_chars is_query_safe (encode_unit c) = true.
Proof. destruct c as [[] [] [] [] [] [] [] []]; reflexivity. Qed.

Lemma form_encode_safe (s : string) : all_chars is_query_safe (form_encode s) = true.
Proof.
  induction s as [|c s IH]; [reflexivity|]. cbn [form_encode].
  now rewrite all_chars_append, encode_unit_safe, IH.
Qed.

Lemma safe_without (sep : ascii) (s : string) :
  is_query_safe sep = false ->
  all_chars is_query_safe s = true ->
  all_chars (fun c => negb (Ascii.eqb c sep)) s = true.
Proof.
  intros Hsep. induction s as [|c s IH]; [reflexivity|]. cbn [all_chars].
  intros H. apply andb_true_iff in H as [Hc Hs]. rewrite (IH Hs), andb_true_r.
  apply negb_true_iff. destruct (Ascii.eqb c sep) eqn:E; [|reflexivity].
  apply Ascii.eqb_eq in E. subst c. congruence.
Qed.

Lemma split_on_without (sep : ascii) (a : string) :
  all_chars (fun c => negb (Ascii.eqb c sep)) a = true -> split_on sep a = [a].
Proof.
  induction a as [|c a IH]; [reflexivity|]. cbn [all_chars split_on].
  intros H. apply andb_true_iff in H as [Hc Ha]. apply negb_true_iff in Hc.
  now rewrite Hc, (IH Ha).
Qed.

Lemma split_on_at (sep : ascii) (a b : string) :
  all_chars (fun c => negb (Ascii.eqb c sep)) a = true ->
  split_on sep (a +:+ String sep b) = a :: split_on sep b.
Proof.
  induction a as [|c a IH]; push_append; cbn [all_chars split_on].
  - intros _. now rewrite Ascii.eqb_refl.
  - intros H. apply andb_true_iff in H as [Hc Ha]. apply negb_true_iff in Hc.
    now rewrite Hc, (IH Ha).
Qed.

Lemma parse_pair_encoded (k v : string) :
  parse_pair (form_encode k +:+ "=" +:+ form_encode v) = Some (k, v).
Proof.
  unfold parse_pair.
  change (form_encode k +:+ "=" +:+ form_encode v)
    with (form_encode k +:+ String "=" (form_encode v)).
  rewrite split_on_at
    by (apply safe_without; [reflexivity | apply form_encode_safe]).
  rewrite split_on_without
    by (apply safe_without; [reflexivity | apply form_encode_safe]).
  cbn [join]. now rewrite !form_decode_encode.
Qed.

Lemma pair_without_amp (k v : string) :
  all_chars (fun c => negb (Ascii.eqb c "&"))
    (form_encode k +:+ "=" +:+ form_encode v) = true.
Proof.
  rewrite !all_chars_append.
  rewrite !(safe_without "&" _ eq_refl (form_encode_safe _)). reflexivity.
Qed.

Lemma pair_nonempty (k v : string) :
  String.eqb (form_encode k +:+ "=" +:+ form_encode v) "" = false.
Proof.
  apply String.eqb_neq. intros H. apply (f_equal String.length) in H.
  rewrite !append_length in H. cbn [String.length] in H. lia.
Qed.

(** Reading back a serialised list of parameters gives the list. *)
Lemma parse_query_serialised (params : list (string * string)) :
  parse_query (URLSearchParams_toString params) = Some params.
Proof.
  unfold parse_query, URLSearchParams_toString.
  induction params as [|[k v] params IH]; [reflexivity|].
  cbn [List.map fst snd] in *. destruct params as [|kv params].
  - cbn [List.map join]. rewrite split_on_without by apply pair_without_amp.
    cbn [List.filter]. rewrite pair_nonempty. cbn [negb parse_pairs].
    now rewrite parse_pair_encoded.
  - cbn [List.map] in *.
    set (piece := form_encode k +:+ "=" +:+ form_encode v).
    set (pieces := _ :: List.map _ params) in *.
    change (join "&" (piece :: pieces)) with (piece +:+ String "&" (join "&" pieces)).
    rewrite split_on_at by apply pair_without_amp.
    cbn [List.filter]. unfold piece at 1. rewrite pair_nonempty. cbn [negb parse_pairs].
    unfold piece. rewrite parse_pair_encoded. cbn [mbind option_bind]. now rewrite IH.
Qed.

Lemma all_chars_join (p : ascii -> bool) (sep : string) (pieces : list string) :
  all_chars p sep = true ->
  Forall (fun x => all_chars p x = true) pieces ->
  all_chars p (join sep pieces) = true.
Proof.
  intros Hsep H. induction H as [|x l Hx Hl IH]; [reflexivity|].
  destruct l as [|y l]; [exact Hx|].
  change (join sep (x :: y :: l)) with (x +:+ sep +:+ join sep (y :: l)).
  now rewrite !all_chars_append, Hx, Hsep, IH.
Qed.

(** X27.  The authorization URL is the upstream URL, a [?] and a query
    string that reads back as exactly the parameters given, in order:
    [client_id], [response_type=code], [redirect_uri] and [scope], then
    [state] and [hd] when they are given and not empty.  Every value is
    recovered unchanged, so no value can add or alter a parameter; and
    the query string consists of letters, digits and [* - . _ % + = &]
    only. *)
Theorem getUpstreamAuthorizeUrl_parameters
    (upstreamUrl clientId scope redirectUri : string)
    (state hostedDomain : option string) :
  exists q,
    getUpstreamAuthorizeUrl upstreamUrl clientId scope redirectUri state hostedDomain
      = upstreamUrl +:+ "?" +:+ q
    /\ parse_query q
       = Some (authorize_params clientId scope redirectUri state hostedDomain)
    /\ all_chars (fun c => is_query_safe c || Ascii.eqb c "=" || Ascii.eqb c "&") q
       = true.
Proof.
  eexists. split; [reflexivity|]. split; [apply parse_query_serialised|].
  unfold URLSearchParams_toString.
  assert (Hweak : forall s, all_chars is_query_safe s = true ->
            all_chars (fun c => is_query_safe c || Ascii.eqb c "=" || Ascii.eqb c "&") s
            = true).
  { induction s as [|c s IH]; [reflexivity|]. cbn [all_chars]. intros H.
    apply andb_true_iff in H as [Hc Hs]. now rewrite Hc, (IH Hs). }
  apply all_chars_join; [reflexivity|].
  apply Forall_forall. intros piece Hin.
  apply list_elem_of_In, in_map_iff in Hin as (kv & <- & _).
  rewrite !all_chars_append, !(Hweak _ (form_encode_safe _)). reflexivity.
Qed.

(* ===================================================================== *)
(** * Further properties: object keys *)
(* ===================================================================== *)

Lemma append_inj_r (a b c : string) : a +:+ c = b +:+ c -> a = b.
Proof.
  intros H. apply (f_equal String.rev) in H. rewrite !rev_append in H.
  apply (inj (String.app _)) in H.
  apply (f_equal String.rev) in H. now rewrite !rev_involutive in H.
Qed.

Lemma under_folder_inj (u1 u2 r1 r2 : string) :
  no_slash u1 = true -> no_slash u2 = true ->
  u1 +:+ "/" +:+ r1 = u2 +:+ "/" +:+ r2 -> u1 = u2 /\ r1 = r2.
Proof.
  intros N1 N2 H.
  assert (Hu : u1 = u2).
  { apply (same_folder_same_user u1 u2 (u1 +:+ "/" +:+ r1) N1 N2).
    - rewrite <- append_assoc. apply startsWith_append.
    - rewrite H, <- append_assoc. apply startsWith_append. }
  subst u2. split; [reflexivity|].
  rewrite <- !append_assoc in H. now apply (inj (String.app _)) in H.
Qed.

(** X28.  Object keys do not collide: for user names without [/], two
    note paths are equal only for the same user and identifier, likewise
    two sidecar paths, and a note path is never a sidecar path, of the
    same or of another user. *)
Theorem object_keys_do_not_collide (u1 u2 id1 id2 : string) :
  no_slash u1 = true -> no_slash u2 = true ->
  (getNotePath u1 id1 = getNotePath u2 id2 <-> u1 = u2 /\ id1 = id2)
  /\ (getMetadataPath u1 id1 = getMetadataPath u2 id2 <-> u1 = u2 /\ id1 = id2)
  /\ getNotePath u1 id1 <> getMetadataPath u2 id2.
Proof.
  intros N1 N2. unfold getNotePath, getMetadataPath. split; [|split].
  - split; [|intros [-> ->]; reflexivity].
    intros H. apply (under_folder_inj _ _ _ _ N1 N2) in H as [-> H].
    split; [reflexivity|]. now apply append_inj_r in H.
  - split; [|intros [-> ->]; reflexivity].
    change "/.metadata/" with ("/" +:+ ".metadata/"). rewrite !append_assoc.
    intros H. apply (under_folder_inj _ _ _ _ N1 N2) in H as [-> H].
    split; [reflexivity|].
    apply (inj (String.app _)) in H. now apply append_inj_r in H.
  - change "/.metadata/" with ("/" +:+ ".metadata/"). rewrite !append_assoc.
    intros H. apply (under_folder_inj _ _ _ _ N1 N2) in H as [_ H].
    apply (f_equal String.rev) in H. rewrite !rev_append in H.
    change (String.rev ".md") with "dm." in H.
    change (String.rev ".json") with "nosj." in H.
    push_append. discriminate H.
Qed.

Lemma object_keys_do_not_collide_witness :
  (getNotePath "ann@example.com" sample_id = getNotePath "bob@example.com" sample_id
   <-> "ann@example.com" = "bob@example.com" /\ sample_id = sample_id)
  /\ (getMetadataPath "ann@example.com" sample_id
      = getMetadataPath "bob@example.com" sample_id
      <-> "ann@example.com" = "bob@example.com" /\ sample_id = sample_id)
  /\ getNotePath "ann@example.com" sample_id
     <> getMetadataPath "bob@example.com" sample_id.
Proof.
  apply (object_keys_do_not_collide "ann@example.com" "bob@example.com"
           sample_id sample_id); reflexivity.
Defined.

(* ===================================================================== *)
(** * Further properties: the calls on the search endpoint *)
(* ===================================================================== *)

Lemma or_else_nonempty (a : option string) (b : string) :
  b <> "" -> or_else a b <> "".
Proof.
  intros Hb. unfold or_else. destruct a as [v|]; [|exact Hb].
  destruct (String.eqb v "") eqn:E; [exact Hb|]. now apply String.eqb_neq.
Qed.

Lemma given_or_or_else (a : option string) (b : string) :
  given_or a b (or_else a b).
Proof.
  unfold given_or, or_else. destruct a as [v|]; [|right; split; [now left | reflexivity]].
  destruct (String.eqb v "") eqn:E.
  - apply String.eqb_eq in E. subst v. right. split; [now right | reflexivity].
  - apply String.eqb_neq in E. left. exists v. repeat split. exact E.
Qed.

(** X29.  [performAutoRAGSearch] and [performAutoRAGAISearch] issue the
    one call and leave the bucket alone.  They reject exactly when the
    call rejects or its answer is not an object.  What they return is the
    answer normalised: the object tag and the search query are those of
    the answer when given and not empty, the default tag and the query
    sent otherwise; the data are those of the answer, or none; the prose
    answer of the AI search is that of the answer when given and not
    empty, the default sentence otherwise.  So the tag and the prose
    answer are never empty. *)
Theorem performAutoRAGSearch_normalises (env : Env) (params : SearchParams) (w : World) :
  snd (performAutoRAGSearch env params w) = record_call (AISearch params) w
  /\ snd (performAutoRAGAISearch env params w) = record_call (AIAiSearch params) w
  /\ match fst (performAutoRAGSearch env params w) with
     | Resolved page =>
         search_failure env params = None
         /\ exists o q r d,
              AI_search env params = Resolved (RawObject o q r d)
              /\ given_or o "vector_store.search_results.page" (page_object page)
              /\ given_or q (query params) (page_search_query page)
              /\ page_data page = default [] d
              /\ page_object page <> ""
     | Rejected e => search_failure env params = Some e
     end
  /\ match fst (performAutoRAGAISearch env params w) with
     | Resolved page =>
         exists o q r d,
           AI_aiSearch env params = Resolved (RawObject o q r d)
           /\ given_or o "vector_store.search_results.page" (page_object page)
           /\ given_or q (query params) (page_search_query page)
           /\ given_or r "No relevant information found." (page_response page)
           /\ page_data page = default [] d
           /\ page_object page <> "" /\ page_response page <> ""
     | Rejected e =>
         AI_aiSearch env params = Rejected e
         \/ (AI_aiSearch env params = Resolved RawNonObject
             /\ e = ErrorObj "Invalid AutoRAG AI response format")
     end.
Proof.
  unfold performAutoRAGSearch, performAutoRAGAISearch, bind, AI_call, ret, throw,
    search_failure.
  split; [|split; [|split]].
  - destruct (AI_search env params) as [[|o q r d]|e]; reflexivity.
  - destruct (AI_aiSearch env params) as [[|o q r d]|e]; reflexivity.
  - destruct (AI_search env params) as [[|o q r d]|e]; cbn [fst]; try reflexivity.
    cbn [page_object page_search_query page_data]. split; [reflexivity|].
    exists o, q, r, d. split; [reflexivity|].
    split; [apply given_or_or_else|]. split; [apply given_or_or_else|].
    split; [reflexivity|]. apply or_else_nonempty; discriminate.
  - destruct (AI_aiSearch env params) as [[|o q r d]|e]; cbn [fst].
    + right. split; reflexivity.
    + cbn [page_object page_search_query page_response page_data].
      exists o, q, r, d. split; [reflexivity|].
      do 3 (split; [apply given_or_or_else|]). split; [reflexivity|].
      split; apply or_else_nonempty; discriminate.
    + now left.
Qed.

(* ===================================================================== *)
(** * Further properties: the token exchange *)
(* ===================================================================== *)

(** X30.  [fetchUpstreamAuthToken] gives a token exactly when a
    non-empty code was given, the token endpoint answered the [POST] of
    the form with [ok], and the body of the answer gave that token; with
    no code, or an empty one, it answers 400 with the plain text
    [Missing code], whatever the endpoint does. *)
Theorem fetchUpstreamAuthToken_token_iff (up : Google.Upstream)
    (clientId clientSecret : string) (code : option string)
    (redirectUri upstreamUrl grantType token : string) :
  (Google.fetchUpstreamAuthToken up clientId clientSecret code redirectUri
     upstreamUrl grantType = Resolved (inl token)
   <-> exists resp,
         truthy_str code = true
         /\ Google.fetch_token up
              (Google.mkFetch upstreamUrl "POST"
                 [ ("clientId", clientId); ("clientSecret", clientSecret);
                   ("code", default "" code); ("grantType", grantType);
                   ("redirectUri", redirectUri) ]
                 None) = Resolved resp
         /\ Google.ok resp = true
         /\ Google.json resp = Resolved token)
  /\ (truthy_str code = true
      \/ Google.fetchUpstreamAuthToken up clientId clientSecret code redirectUri
           upstreamUrl grantType
         = Resolved
             (inr (Google.mkResponse 400 (Some "text/plain;charset=UTF-8") None
                     "Missing code"))).
Proof.
  unfold Google.fetchUpstreamAuthToken, Google.andThen, truthy_str.
  destruct code as [c|]; cbn [from_option Datatypes.id].
  2:{ split; [|now right]. split; [discriminate|]. intros (resp & H & _). discriminate H. }
  destruct (String.eqb c "") eqn:Ec; cbn [negb].
  { split; [|now right]. split; [discriminate|]. intros (resp & H & _). discriminate H. }
  split; [|now left].
  destruct (Google.fetch_token up _) as [resp|e].
  - split.
    + destruct (Google.ok resp) eqn:Eok; cbn [negb]; [|discriminate].
      destruct (Google.json resp) as [tok|e] eqn:Ej; [|discriminate].
      intros H. inversion H. subst tok. exists resp. repeat split; assumption.
    + intros (resp' & _ & Hresp & Hok & Hjson). inversion Hresp. subst resp'.
      now rewrite Hok, Hjson.
  - split; [discriminate|]. intros (resp & _ & H & _). discriminate H.
Qed.
